(** * News-scraper actor: adapter dispatch, site adapters and the run loop

    A shallow embedding of [scraper/core.py], [scraper/site_scrapers.py] and
    [src/main.py].

    - Python [str] values are [string]s (sequences of one-byte characters);
      [lower] and [strip] act on the ASCII range.
    - Article records are Python dicts: association lists in insertion order.
    - The world outside is a parameter: what an HTTP GET, a browser
      navigation or the creation of a directory answers is given by a [Web]
      value; documents are tables of selector answers.
    - A [scrape] call threads the adapter instance (its [results] list) and a
      trace of what happened through a small state-and-exception monad. *)

From Stdlib Require Import String Ascii List ZArith Bool Lia.
Import ListNotations.
Open Scope string_scope.

Set Warnings "-register-all".

(* ================================================================== *)
(** ** Python string operations *)

Module PyStr.

(** [s.startswith(p)] *)
Definition startswith (s p : string) : bool := String.prefix p s.

(** [sub in s] *)
Fixpoint contains (sub s : string) : bool :=
  String.prefix sub s ||
  match s with
  | EmptyString => false
  | String _ s' => contains sub s'
  end.

(** [s.split(sep)] for a non-empty [sep]: left-to-right, non-overlapping.
    [skip] counts the characters of a separator still to be dropped and
    [acc] is the piece being read. *)
Fixpoint split_from (sep : string) (skip : nat) (acc : string) (s : string)
  : list string :=
  match s with
  | EmptyString => [acc]
  | String c s' =>
      match skip with
      | S k => split_from sep k acc s'
      | O =>
          if String.prefix sep s
          then acc :: split_from sep (String.length sep - 1) "" s'
          else split_from sep 0 (acc ++ String c "") s'
      end
  end.

Definition split (s sep : string) : list string := split_from sep 0 "" s.

Definition lower_char (c : ascii) : ascii :=
  let n := nat_of_ascii c in
  if (65 <=? n)%nat && (n <=? 90)%nat then ascii_of_nat (n + 32) else c.

(** [s.lower()] *)
Fixpoint lower (s : string) : string :=
  match s with
  | EmptyString => EmptyString
  | String c s' => String (lower_char c) (lower s')
  end.

(** [s.replace(c, r)] for a one-character [c] *)
Fixpoint replace_char (c : ascii) (r : string) (s : string) : string :=
  match s with
  | EmptyString => EmptyString
  | String d s' =>
      (if Ascii.eqb c d then r else String d "") ++ replace_char c r s'
  end.

Definition is_space (c : ascii) : bool :=
  let n := nat_of_ascii c in
  ((9 <=? n)%nat && (n <=? 13)%nat) || ((28 <=? n)%nat && (n <=? 32)%nat).

Fixpoint lstrip (s : string) : string :=
  match s with
  | EmptyString => EmptyString
  | String c s' => if is_space c then lstrip s' else s
  end.

(** drops the trailing white space: a character is kept when something
    that is not white space follows it or it is not white space itself *)
Fixpoint rstrip (s : string) : string :=
  match s with
  | EmptyString => EmptyString
  | String c s' =>
      match rstrip s' with
      | EmptyString => if is_space c then EmptyString else String c ""
      | r => String c r
      end
  end.

(** [s.strip()] *)
Definition strip (s : string) : string := rstrip (lstrip s).

End PyStr.

(* ================================================================== *)
(** ** Exceptions and list indexing *)

Inductive Exn : Type :=
| NotImplementedError (msg : string)
| IndexError
| TimeoutError (selector : string)
| NavigationError (target : string)
| HTTPError (target : string)
| FileNotFoundError (path : string)
| OSError (path : string)
| TargetClosedError.

(** Result of a call that may raise. *)
Definition Res (A : Type) : Type := (Exn + A)%type.

(** [l[0]] *)
Definition index_first {A} (l : list A) : Res A :=
  match l with
  | [] => inl IndexError
  | x :: _ => inr x
  end.

(** [l[-1]] *)
Fixpoint index_last {A} (l : list A) : Res A :=
  match l with
  | [] => inl IndexError
  | [x] => inr x
  | _ :: l' => index_last l'
  end.

(** [url.split("//")[-1].split("/")[0].lower()], shared by
    [get_scraper_for_url] and [ScraperFactory.create_scraper]. *)
Definition domain_of (url : string) : Res string :=
  match index_last (PyStr.split url "//") with
  | inl e => inl e
  | inr rest =>
      match index_first (PyStr.split rest "/") with
      | inl e => inl e
      | inr host => inr (PyStr.lower host)
      end
  end.

(* ================================================================== *)
(** ** Documents

    A fetched document (BeautifulSoup tree or live DOM) is seen only through
    selector queries, text and attributes, so an element is its text, its
    attributes and the table of what each selector matches below it, in
    document order.  How a CSS selector is matched is the library's
    business and is not interpreted here. *)

Inductive Element : Type :=
  mkElement (text : string)
            (attrs : list (string * string))
            (matches : list (string * list Element)).

Definition inner_text (e : Element) : string :=
  match e with mkElement t _ _ => t end.

Fixpoint assoc {A} (k : string) (l : list (string * A)) : option A :=
  match l with
  | [] => None
  | (k', v) :: l' => if String.eqb k k' then Some v else assoc k l'
  end.

(** Playwright [el.get_attribute(name)]: [None] when the attribute is absent *)
Definition get_attribute (e : Element) (name : string) : option string :=
  match e with mkElement _ a _ => assoc name a end.

(** BeautifulSoup [el.get(name, default)] *)
Definition bs_get (e : Element) (name default : string) : string :=
  match get_attribute e name with
  | Some v => v
  | None => default
  end.

(** [query_selector_all] / [select] *)
Definition query_selector_all (e : Element) (sel : string) : list Element :=
  match e with
  | mkElement _ _ m =>
      match assoc sel m with
      | Some l => l
      | None => []
      end
  end.

(** [query_selector] / [select_one]: the first match, if any *)
Definition query_selector (e : Element) (sel : string) : option Element :=
  hd_error (query_selector_all e sel).

(** A browser page: the document it shows and what the adapter's next
    interaction with it (submitting the search form, activating the next
    control and waiting for the network to settle) leads to; [None] when
    that interaction raises. *)
Inductive Page : Type :=
  mkPage (doc : Element) (after : option Page).

Definition page_doc (p : Page) : Element :=
  match p with mkPage d _ => d end.

Definition page_after (p : Page) : option Page :=
  match p with mkPage _ a => a end.

(** The world a run meets.  The fetch primitives: [session.get(url)] followed
    by [raise_for_status()], and [page.goto(url, wait_until="networkidle")] on
    an open browser.  The file system: what creating a directory of a given
    non-empty path answers; it answers the same each time it is asked. *)
Record Web : Type := mkWeb {
  http_get : string -> Res Element;
  goto : string -> Res Page;
  mkdir : string -> Res unit
}.

(** [os.makedirs(path, exist_ok=True)]: the empty path is refused before the
    file system is asked. *)
Definition makedirs (web : Web) (path : string) : Res unit :=
  if String.eqb path "" then inl (FileNotFoundError path) else mkdir web path.

(* ================================================================== *)
(** ** Article records (Python dicts) *)

Inductive Value : Type :=
| VStr (s : string)
| VNone.

Definition Article : Type := list (string * Value).

(** [d[k] = v]: replaces the value of an existing key in place, otherwise
    adds the key at the end. *)
Fixpoint dict_set (k : string) (v : Value) (d : Article) : Article :=
  match d with
  | [] => [(k, v)]
  | (k', v') :: d' =>
      if String.eqb k k' then (k, v) :: d' else (k', v') :: dict_set k v d'
  end.

Definition dict_get (k : string) (d : Article) : option Value := assoc k d.

Definition of_attr (o : option string) : Value :=
  match o with
  | Some s => VStr s
  | None => VNone
  end.

(* ================================================================== *)
(** ** Scraper classes and instances *)

Inductive ScraperClass : Type :=
| AdnocScraper
| AhramScraper
| AlJazeeraScraper
| AfricanReviewScraper
| AlMonitorScraper
| RequestsScraper
| PlaywrightScraper.

Definition ScraperClass_eqb (a b : ScraperClass) : bool :=
  match a, b with
  | AdnocScraper, AdnocScraper
  | AhramScraper, AhramScraper
  | AlJazeeraScraper, AlJazeeraScraper
  | AfricanReviewScraper, AfricanReviewScraper
  | AlMonitorScraper, AlMonitorScraper
  | RequestsScraper, RequestsScraper
  | PlaywrightScraper, PlaywrightScraper => true
  | _, _ => false
  end.

(** Classes deriving from [PlaywrightScraper]: their [scrape] is a coroutine
    function. *)
Definition is_playwright (c : ScraperClass) : bool :=
  match c with
  | AdnocScraper | AlJazeeraScraper | AlMonitorScraper | PlaywrightScraper => true
  | AhramScraper | AfricanReviewScraper | RequestsScraper => false
  end.

(** Classes with a site-specific [scrape]. *)
Definition is_site_adapter (c : ScraperClass) : bool :=
  match c with
  | RequestsScraper | PlaywrightScraper => false
  | _ => true
  end.

(** An instance: [started] tells whether the HTTP session or the browser has
    been initialised ([self.session] / [self.browser] is set), [closed]
    whether that browser has been closed since ([self.browser] stays set). *)
Record Scraper : Type := mkScraper {
  cls : ScraperClass;
  base_url : string;
  output_dir : string;
  results : list Article;
  started : bool;
  closed : bool
}.

(** The fields [__init__] sets: [self.results = []], no session or browser
    yet. *)
Definition new_scraper (c : ScraperClass) (url out : string) : Scraper :=
  {| cls := c; base_url := url; output_dir := out; results := [];
     started := false; closed := false |}.

(** [scraper_class(url, output_dir)]: [BaseScraper.__init__] through the
    subclasses' [__init__].  It sets the fields and creates the output
    directory; when [os.makedirs] raises there is no instance. *)
Definition construct (web : Web) (c : ScraperClass) (url out : string) : Res Scraper :=
  match makedirs web out with
  | inl e => inl e
  | inr _ => inr (new_scraper c url out)
  end.

(* ================================================================== *)
(** ** Adapter resolution *)

(** [SCRAPER_MAP], in the order the dict literal lists its keys (the order
    [.items()] iterates in). *)
Definition SCRAPER_MAP : list (string * ScraperClass) :=
  [ ("adnoc.ae", AdnocScraper);
    ("ahram.org.eg", AhramScraper);
    ("aljazeera.com", AlJazeeraScraper);
    ("africanreview.com", AfricanReviewScraper);
    ("al-monitor.com", AlMonitorScraper) ].

(** The class [ScraperFactory.create_scraper] picks for a domain. *)
Definition factory_class (domain : string) : ScraperClass :=
  if PyStr.contains "adnoc.ae" domain || PyStr.contains "aljazeera.com" domain
  then PlaywrightScraper
  else if PyStr.contains "al-monitor.com" domain || PyStr.contains "alarabiya.net" domain
  then PlaywrightScraper
  else if PyStr.contains "africanreview.com" domain || PyStr.contains "ahram.org.eg" domain
  then RequestsScraper
  else PlaywrightScraper.

(** [ScraperFactory.create_scraper] *)
Definition create_scraper (web : Web) (url out : string) : Res Scraper :=
  match domain_of url with
  | inl e => inl e
  | inr domain => construct web (factory_class domain) url out
  end.

(** The loop [for key, scraper_class in SCRAPER_MAP.items(): if key in domain:
    return ...]: the first entry whose key occurs in the domain. *)
Definition lookup_scraper (domain : string) (m : list (string * ScraperClass))
  : option (string * ScraperClass) :=
  find (fun kc => PyStr.contains (fst kc) domain) m.

(** [get_scraper_for_url] *)
Definition get_scraper_for_url (web : Web) (url out : string) : Res Scraper :=
  match domain_of url with
  | inl e => inl e
  | inr domain =>
      match lookup_scraper domain SCRAPER_MAP with
      | Some (_, scraper_class) => construct web scraper_class url out
      | None => create_scraper web url out
      end
  end.

(* ================================================================== *)
(** ** The monad of a [scrape] call

    A call reads and updates the instance ([self]) and may raise.  The
    [trace] records what the call did: it is the model's view of the log
    and of the browser actions, and no code reads it. *)

Inductive Event : Type :=
| EvExtract (page_num : Z) (document : Element) (* one extraction pass over a page *)
| EvNoMatches                                   (* "No results found for query" *)
| EvClickNext
| EvDelay (min_seconds max_seconds : Z)
| EvItemError (e : Exn)                         (* "Error parsing result item" *)
| EvLogError (e : Exn)                          (* "Error scraping ..." *)
| EvClose.

Record St : Type := mkSt {
  self : Scraper;
  trace : list Event
}.

Definition M (A : Type) : Type := St -> St * Res A.

Definition ret {A} (a : A) : M A := fun s => (s, inr a).

Definition raise {A} (e : Exn) : M A := fun s => (s, inl e).

Definition bind {A B} (m : M A) (f : A -> M B) : M B :=
  fun s =>
    match m s with
    | (s', inl e) => (s', inl e)
    | (s', inr a) => f a s'
    end.

Declare Scope scrape_scope.
Delimit Scope scrape_scope with scrape.
Notation "x <- m ;; k" := (bind m (fun x => k))
  (at level 61, m at next level, right associativity) : scrape_scope.
Notation "m ;; k" := (bind m (fun _ => k))
  (at level 61, right associativity) : scrape_scope.
Open Scope scrape_scope.

(** [try: m except Exception as e: h e] *)
Definition try_except {A} (m : M A) (h : Exn -> M A) : M A :=
  fun s =>
    match m s with
    | (s', inl e) => h e s'
    | r => r
    end.

(** [try: m finally: c]: [c] runs on both exits; the result (or exception)
    of [m] stands unless [c] itself raises. *)
Definition finally {A} (m : M A) (c : M unit) : M A :=
  fun s =>
    match m s with
    | (s', r) =>
        match c s' with
        | (s'', inl e) => (s'', inl e)
        | (s'', inr _) => (s'', r)
        end
    end.

(** [lift] turns the answer of a fetch primitive into a step of the call. *)
Definition lift {A} (r : Res A) : M A := fun s => (s, r).

Definition emit (ev : Event) : M unit :=
  fun s => ({| self := self s; trace := trace s ++ [ev] |}, inr tt).

(** [self.results.append(a)] *)
Definition append_result (a : Article) : M unit :=
  fun s =>
    let i := self s in
    ({| self := {| cls := cls i; base_url := base_url i; output_dir := output_dir i;
                   results := results i ++ [a]; started := started i;
                   closed := closed i |};
        trace := trace s |}, inr tt).

(** reads [self.results] *)
Definition get_results : M (list Article) := fun s => (s, inr (results (self s))).

(** reads [self.base_url] *)
Definition get_base_url : M string := fun s => (s, inr (base_url (self s))).

(** [if not self.session: self._init_session()] and
    [if not self.browser: await self._init_browser()]: the session or browser
    is created on first use and kept. *)
Definition ensure_started : M unit :=
  fun s =>
    let i := self s in
    ({| self := {| cls := cls i; base_url := base_url i; output_dir := output_dir i;
                   results := results i; started := true; closed := closed i |};
        trace := trace s |}, inr tt).

(** [await self.close()]: [if self.browser: await self.browser.close()].  The
    browser is closed for good: [self.browser] stays set, so no later call
    starts another. *)
Definition close : M unit :=
  fun s =>
    let i := self s in
    if started i
    then ({| self := {| cls := cls i; base_url := base_url i; output_dir := output_dir i;
                        results := results i; started := started i; closed := true |};
             trace := trace s ++ [EvClose] |}, inr tt)
    else (s, inr tt).

(** [await self.page.goto(url, wait_until="networkidle")]: on a browser that
    has been closed the navigation raises. *)
Definition page_goto (web : Web) (url : string) : M Page :=
  fun s => if closed (self s) then (s, inl TargetClosedError) else (s, goto web url).

(** [self.random_delay(lo, hi)] *)
Definition random_delay (lo hi : Z) : M unit := emit (EvDelay lo hi).

(** [for x in l: f x] *)
Fixpoint for_each {A} (f : A -> M unit) (l : list A) : M unit :=
  match l with
  | [] => ret tt
  | x :: l' => f x ;; for_each f l'
  end.

(** [range(n)] *)
Definition py_range (n : Z) : list Z := map Z.of_nat (seq 0 (Z.to_nat n)).

(** What one turn of the page loop decides: [break], or go on with the page
    the browser now shows. *)
Inductive LoopStep : Type :=
| Break
| Continue (p : Page).

(** [for page_num in rng: body] over the page shown by the browser *)
Fixpoint for_pages (body : Z -> Page -> M LoopStep) (rng : list Z) (p : Page)
  : M unit :=
  match rng with
  | [] => ret tt
  | page_num :: rest =>
      step <- body page_num p ;;
      match step with
      | Break => ret tt
      | Continue p' => for_pages body rest p'
      end
  end.

(** [await self.page.wait_for_selector(sel, timeout=...)]: raises when
    nothing on the page matches. *)
Definition wait_for_selector (p : Page) (sel : string) : M unit :=
  match query_selector_all (page_doc p) sel with
  | [] => raise (TimeoutError sel)
  | _ :: _ => ret tt
  end.

(** The end of a turn of the page loop, the same in the three browser
    adapters but for the selector of the next control:
    [if page_num < max_pages - 1: next_button = ...; if next_button: click,
    wait, delay; else: break]. *)
Definition advance (next_sel : string) (max_pages page_num : Z) (p : Page)
  : M LoopStep :=
  if (page_num <? max_pages - 1)%Z then
    match query_selector (page_doc p) next_sel with
    | Some _ =>
        match page_after p with
        | Some p' =>
            emit EvClickNext ;;
            random_delay 2 4 ;;
            ret (Continue p')
        | None => raise (NavigationError next_sel)
        end
    | None => ret Break
    end
  else ret (Continue p).

(** [text if el else ""], with the text stripped *)
Definition text_or_empty (el : option Element) : string :=
  match el with
  | Some e => PyStr.strip (inner_text e)
  | None => ""
  end.

(** [if link and not link.startswith(("http://", "https://")): link = prefix + link] *)
Definition absolutize (prefix link : string) : string :=
  if negb (String.eqb link "")
     && negb (PyStr.startswith link "http://" || PyStr.startswith link "https://")
  then prefix ++ link
  else link.

(* ================================================================== *)
(** ** Site adapters ([site_scrapers.py]) and the base classes ([core.py]) *)

Section Adapters.

Variable web : Web.

(** [except Exception as e: logger.error(...); return []] *)
Definition on_error (e : Exn) : M (list Article) :=
  emit (EvLogError e) ;; ret [].

(** Shape of a browser adapter's [scrape]:
    [try: ... except Exception: ... finally: await self.close()] *)
Definition browser_guard (body : M (list Article)) : M (list Article) :=
  finally (try_except body on_error) close.

(** Shape of an HTTP adapter's [scrape]: [try: ... except Exception: ...] *)
Definition http_guard (body : M (list Article)) : M (list Article) :=
  try_except body on_error.

(** *** AdnocScraper *)

Definition adnoc_item (query : string) (result : Element) : M unit :=
  let title_el := query_selector result ".title" in
  let date_el := query_selector result ".date" in
  let snippet_el := query_selector result ".snippet" in
  let link_el := query_selector result "a" in
  match title_el, link_el with
  | Some t, Some l =>
      let title := inner_text t in
      let link := get_attribute l "href" in
      append_result
        [ ("title", VStr (PyStr.strip title));
          ("url", of_attr link);
          ("date", VStr (text_or_empty date_el));
          ("snippet", VStr (text_or_empty snippet_el));
          ("source", VStr "ADNOC");
          ("query", VStr query) ]
  | _, _ => ret tt
  end.

(** extraction step of one page *)
Definition adnoc_extract (query : string) (results : list Element) : M unit :=
  for_each (adnoc_item query) results.

Definition adnoc_turn (query : string) (max_pages page_num : Z) (p : Page)
  : M LoopStep :=
  wait_for_selector p ".search-result-item" ;;
  emit (EvExtract page_num (page_doc p)) ;;
  adnoc_extract query (query_selector_all (page_doc p) ".search-result-item") ;;
  advance ".pagination-next:not(.disabled)" max_pages page_num p.

Definition adnoc_try (search_url query : string) (max_pages : Z)
  : M (list Article) :=
  p <- page_goto web search_url ;;
  wait_for_selector p ".search-results" ;;
  match query_selector_all (page_doc p) "text=we found 0 matches" with
  | _ :: _ => emit EvNoMatches ;; ret []
  | [] =>
      for_pages (adnoc_turn query max_pages) (py_range max_pages) p ;;
      get_results
  end.

Definition adnoc_url (base query : string) : string :=
  base ++ "?query=" ++ PyStr.replace_char " " "+" query.

Definition adnoc_scrape (query : string) (max_pages : Z) : M (list Article) :=
  ensure_started ;;
  base <- get_base_url ;;
  browser_guard (adnoc_try (adnoc_url base query) query max_pages).

(** *** AhramScraper *)

Definition ahram_item (query : string) (result : Element) : M unit :=
  try_except
    (let category_el := query_selector result "p:first-child" in
     let title_el := query_selector result "div h5 a" in
     let date_el := query_selector result "p span:first-of-type" in
     let snippet_el := query_selector result "p:last-of-type span" in
     match title_el with
     | Some t =>
         let title := PyStr.strip (inner_text t) in
         let link := absolutize "https://english.ahram.org.eg" (bs_get t "href" "") in
         append_result
           [ ("title", VStr title);
             ("url", VStr link);
             ("date", VStr (text_or_empty date_el));
             ("category", VStr (text_or_empty category_el));
             ("snippet", VStr (text_or_empty snippet_el));
             ("source", VStr "Ahram Online");
             ("query", VStr query) ]
     | None => ret tt
     end)
    (fun e => emit (EvItemError e)).

(** extraction step of the page *)
Definition ahram_extract (query : string) (results : list Element) : M unit :=
  for_each (ahram_item query) results.

Definition ahram_try (search_url query : string) (max_pages : Z)
  : M (list Article) :=
  soup <- lift (http_get web search_url) ;;
  emit (EvExtract 0 soup) ;;
  ahram_extract query (query_selector_all soup "table tbody tr") ;;
  get_results.

Definition ahram_url (base query : string) : string :=
  base ++ "?Text=" ++ PyStr.replace_char " " "%20" query.

Definition ahram_scrape (query : string) (max_pages : Z) : M (list Article) :=
  ensure_started ;;
  base <- get_base_url ;;
  http_guard (ahram_try (ahram_url base query) query max_pages).

(** *** AlMonitorScraper *)

Definition almonitor_item (query : string) (article : Element) : M unit :=
  try_except
    (let title_el := query_selector article "h2 a, h3 a" in
     let source_el := query_selector article ".source" in
     let date_el := query_selector article "time" in
     match title_el with
     | Some t =>
         let title := inner_text t in
         let link :=
           option_map (absolutize "https://www.al-monitor.com")
                      (get_attribute t "href") in
         let source :=
           match source_el with Some e => inner_text e | None => "" end in
         append_result
           [ ("title", VStr (PyStr.strip title));
             ("url", of_attr link);
             ("date", VStr (text_or_empty date_el));
             ("source", VStr (if String.eqb source "" then "Al-Monitor"
                              else "Al-Monitor: " ++ PyStr.strip source));
             ("query", VStr query) ]
     | None => ret tt
     end)
    (fun e => emit (EvItemError e)).

Definition almonitor_turn (query : string) (max_pages page_num : Z) (p : Page)
  : M LoopStep :=
  emit (EvExtract page_num (page_doc p)) ;;
  for_each (almonitor_item query) (query_selector_all (page_doc p) "article") ;;
  advance "a.next, a:has-text('Next')" max_pages page_num p.

Definition almonitor_try (search_url query : string) (max_pages : Z)
  : M (list Article) :=
  p <- page_goto web search_url ;;
  wait_for_selector p "article" ;;
  for_pages (almonitor_turn query max_pages) (py_range max_pages) p ;;
  get_results.

Definition almonitor_url (base query : string) : string :=
  base ++ "?text=" ++ PyStr.replace_char " " "+" query.

Definition almonitor_scrape (query : string) (max_pages : Z) : M (list Article) :=
  ensure_started ;;
  base <- get_base_url ;;
  browser_guard (almonitor_try (almonitor_url base query) query max_pages).

(** *** AlJazeeraScraper *)

Definition aljazeera_item (query : string) (article : Element) : M unit :=
  let title_el := query_selector article "h3 a, h2 a" in
  let date_el := query_selector article "time, .date" in
  let category_el := query_selector article ".category" in
  let snippet_el := query_selector article "p" in
  match title_el with
  | Some t =>
      let title := inner_text t in
      let link :=
        option_map (absolutize "https://www.aljazeera.com")
                   (get_attribute t "href") in
      append_result
        [ ("title", VStr (PyStr.strip title));
          ("url", of_attr link);
          ("date", VStr (text_or_empty date_el));
          ("category", VStr (text_or_empty category_el));
          ("snippet", VStr (text_or_empty snippet_el));
          ("source", VStr "Al Jazeera");
          ("query", VStr query) ]
  | None => ret tt
  end.

Definition aljazeera_turn (query : string) (max_pages page_num : Z) (p : Page)
  : M LoopStep :=
  wait_for_selector p "article" ;;
  emit (EvExtract page_num (page_doc p)) ;;
  for_each (aljazeera_item query) (query_selector_all (page_doc p) "article") ;;
  advance "button:has-text('Next')" max_pages page_num p.

(** [fill] the search box, [press] Enter, wait for the network to settle *)
Definition submit_search (p : Page) : M Page :=
  match page_after p with
  | Some p' => ret p'
  | None => raise (NavigationError "input[placeholder=Search]")
  end.

Definition aljazeera_try (search_url query : string) (max_pages : Z)
  : M (list Article) :=
  p0 <- page_goto web search_url ;;
  p <- submit_search p0 ;;
  for_pages (aljazeera_turn query max_pages) (py_range max_pages) p ;;
  get_results.

Definition aljazeera_url (base query : string) : string := base ++ "?sort=date".

Definition aljazeera_scrape (query : string) (max_pages : Z) : M (list Article) :=
  ensure_started ;;
  base <- get_base_url ;;
  browser_guard (aljazeera_try (aljazeera_url base query) query max_pages).

(** *** AfricanReviewScraper *)

Definition africanreview_heading (query : string) (heading : Element) : M unit :=
  let title := PyStr.strip (inner_text heading) in
  let link := absolutize "https://africanreview.com" (bs_get heading "href" "") in
  append_result
    [ ("title", VStr title);
      ("url", VStr link);
      ("date", VStr "");
      ("snippet", VStr "");
      ("source", VStr "African Review");
      ("query", VStr query) ].

Definition africanreview_item (query : string) (result : Element) : M unit :=
  try_except
    (let title_el := query_selector result "h3 a, h2 a, .title a" in
     let date_el := query_selector result "time, .date, .meta time" in
     let snippet_el := query_selector result "p, .summary, .excerpt" in
     match title_el with
     | Some t =>
         let title := PyStr.strip (inner_text t) in
         let link := absolutize "https://africanreview.com" (bs_get t "href" "") in
         append_result
           [ ("title", VStr title);
             ("url", VStr link);
             ("date", VStr (text_or_empty date_el));
             ("snippet", VStr (text_or_empty snippet_el));
             ("source", VStr "African Review");
             ("query", VStr query) ]
     | None => ret tt
     end)
    (fun e => emit (EvItemError e)).

Definition africanreview_try (search_url query : string) (max_pages : Z)
  : M (list Article) :=
  soup <- lift (http_get web search_url) ;;
  emit (EvExtract 0 soup) ;;
  let result_containers :=
    match query_selector_all soup ".search-result, .search-results li, .article-list li" with
    | [] => query_selector_all soup "article, .article, .news-item"
    | l => l
    end in
  match result_containers with
  | [] =>
      for_each (africanreview_heading query)
               (firstn 10 (query_selector_all soup "h3 a, h2 a"))
  | _ :: _ => for_each (africanreview_item query) result_containers
  end ;;
  get_results.

Definition africanreview_url (base query : string) : string :=
  base ++ "?q=" ++ PyStr.replace_char " " "+" query ++ "&Search=".

Definition africanreview_scrape (query : string) (max_pages : Z) : M (list Article) :=
  ensure_started ;;
  base <- get_base_url ;;
  http_guard (africanreview_try (africanreview_url base query) query max_pages).

(** *** RequestsScraper and PlaywrightScraper ([core.py]) *)

Definition requests_scrape (query : string) (max_pages : Z) : M (list Article) :=
  ensure_started ;;
  raise (NotImplementedError "Site-specific implementation required").

Definition playwright_scrape (query : string) (max_pages : Z) : M (list Article) :=
  ensure_started ;;
  raise (NotImplementedError "Site-specific implementation required").

(** Method resolution: the [scrape] of an instance's class. *)
Definition scrape (c : ScraperClass) : string -> Z -> M (list Article) :=
  match c with
  | AdnocScraper => adnoc_scrape
  | AhramScraper => ahram_scrape
  | AlJazeeraScraper => aljazeera_scrape
  | AfricanReviewScraper => africanreview_scrape
  | AlMonitorScraper => almonitor_scrape
  | RequestsScraper => requests_scrape
  | PlaywrightScraper => playwright_scrape
  end.

(** The [try] block of a site adapter's [scrape], by class. *)
Definition try_block (c : ScraperClass) (base query : string) (max_pages : Z)
  : option (M (list Article)) :=
  match c with
  | AdnocScraper => Some (adnoc_try (adnoc_url base query) query max_pages)
  | AhramScraper => Some (ahram_try (ahram_url base query) query max_pages)
  | AlJazeeraScraper => Some (aljazeera_try (aljazeera_url base query) query max_pages)
  | AfricanReviewScraper =>
      Some (africanreview_try (africanreview_url base query) query max_pages)
  | AlMonitorScraper => Some (almonitor_try (almonitor_url base query) query max_pages)
  | RequestsScraper | PlaywrightScraper => None
  end.

(** The selector a browser adapter looks the next control up with. *)
Definition next_selector (c : ScraperClass) : option string :=
  match c with
  | AdnocScraper => Some ".pagination-next:not(.disabled)"
  | AlMonitorScraper => Some "a.next, a:has-text('Next')"
  | AlJazeeraScraper => Some "button:has-text('Next')"
  | _ => None
  end.

(** One call [scraper.scrape(query, max_pages)] on an instance: the instance
    afterwards, what the call did, and what it returned or raised. *)
Definition invoke (i : Scraper) (query : string) (max_pages : Z)
  : St * Res (list Article) :=
  scrape (cls i) query max_pages {| self := i; trace := [] |}.

End Adapters.

(* ================================================================== *)
(** ** The run ([main.py]) *)

(** The value under ["urls"]: a list of strings or a single string. *)
Inductive UrlsField : Type :=
| UrlList (l : list string)
| UrlString (s : string).

(** The parsed actor input; a field is [None] when its key is absent. *)
Record ActorInput : Type := mkInput {
  in_urls : option UrlsField;
  in_query : option string;
  in_maxPages : option Z
}.

Inductive LogEntry : Type :=
| LogStart                                   (* "Starting News Scraper Actor" *)
| LogNoUrls                                  (* error: "No URLs provided in the input" *)
| LogProcessing (url : string)
| LogUsingPlaywright (url : string)
| LogUsingRequests (url : string)
| LogScraped (n : nat) (url : string)
| LogNoResults (url : string)                (* warning: "No results found for ..." *)
| LogErrorProcessing (url : string) (e : Exn)
| LogTotal (n : nat)                         (* "Total results scraped: n" *)
| LogSaved.

(** The document written to OUTPUT.json (the timestamp left out). *)
Record Output : Type := mkOutput {
  out_query : string;
  out_max_pages : Z;
  total_results : nat;
  articles : list Article
}.

(** State of the loop over the URLs: [all_results], the log, and the
    [scrape] calls made so far with what each did. *)
Record Acc : Type := mkAcc {
  all_results : list Article;
  log : list LogEntry;
  calls : list (string * list Event)
}.

Definition add_log (l : LogEntry) (a : Acc) : Acc :=
  {| all_results := all_results a; log := log a ++ [l]; calls := calls a |}.

Definition add_call (url : string) (t : list Event) (a : Acc) : Acc :=
  {| all_results := all_results a; log := log a; calls := calls a ++ [(url, t)] |}.

(** [for result in results: result['source_url'] = url; all_results.append(result)] *)
Definition collect (url : string) (results : list Article) (a : Acc) : Acc :=
  {| all_results :=
       fold_left (fun all result => (all ++ [dict_set "source_url" (VStr url) result])%list)
                 results (all_results a);
     log := log a;
     calls := calls a |}.

Definition output_dir_name : string := "output".

(** Body of [for url in urls], with its [try ... except Exception ... continue]. *)
Definition process_url (web : Web) (query : string) (max_pages : Z)
  (a : Acc) (url : string) : Acc :=
  let a := add_log (LogProcessing url) a in
  match get_scraper_for_url web url output_dir_name with
  | inl e => add_log (LogErrorProcessing url e) a
  | inr scraper =>
      let a := add_log (if is_playwright (cls scraper)
                        then LogUsingPlaywright url
                        else LogUsingRequests url) a in
      let (st, r) := invoke web scraper query max_pages in
      let a := add_call url (trace st) a in
      match r with
      | inl e => add_log (LogErrorProcessing url e) a
      | inr [] => add_log (LogNoResults url) a
      | inr results => collect url results (add_log (LogScraped (length results) url) a)
      end
  end.

(** What a run leaves behind: the collected articles, the log, the [scrape]
    calls made, the output document when one was written, and the exception
    [main] raised when it did not return. *)
Record Run : Type := mkRun {
  run_articles : list Article;
  run_log : list LogEntry;
  run_calls : list (string * list Event);
  run_output : option Output;
  run_error : option Exn
}.

(** [main], from the parsed input on. *)
Definition main (web : Web) (actor_input : ActorInput) : Run :=
  let urls := match in_urls actor_input with Some u => u | None => UrlList [] end in
  let query := match in_query actor_input with Some q => q | None => "iraq oil" end in
  let max_pages := match in_maxPages actor_input with Some n => n | None => 1%Z end in
  let urls := match urls with UrlString s => [s] | UrlList l => l end in
  match urls with
  | [] =>
      {| run_articles := []; run_log := [LogStart; LogNoUrls];
         run_calls := []; run_output := None; run_error := None |}
  | _ :: _ =>
      (* os.makedirs(output_dir, exist_ok=True), outside any try *)
      match makedirs web output_dir_name with
      | inl e =>
          {| run_articles := []; run_log := [LogStart];
             run_calls := []; run_output := None; run_error := Some e |}
      | inr _ =>
          let a := fold_left (process_url web query max_pages) urls
                     {| all_results := []; log := [LogStart]; calls := [] |} in
          let a := add_log (LogTotal (length (all_results a))) a in
          match all_results a with
          | [] =>
              {| run_articles := []; run_log := log a;
                 run_calls := calls a; run_output := None; run_error := None |}
          | _ :: _ =>
              {| run_articles := all_results a;
                 run_log := log a ++ [LogSaved];
                 run_calls := calls a;
                 run_output :=
                   Some {| out_query := query; out_max_pages := max_pages;
                           total_results := length (all_results a);
                           articles := all_results a |};
                 run_error := None |}
          end
      end
  end.

(* ================================================================== *)
(** ** Vocabulary of the properties *)

(** The domains [create_scraper] names, all three lists together. *)
Definition factory_allow_list : list string :=
  [ "adnoc.ae"; "aljazeera.com"; "al-monitor.com"; "alarabiya.net";
    "africanreview.com"; "ahram.org.eg" ].


(** A batch of resolutions, in call order. *)
Definition resolve_all (web : Web) (out : string) (urls : list string)
  : list (Res Scraper) :=
  map (fun u => get_scraper_for_url web u out) urls.

(** The class an answer of the resolution carries. *)
Definition class_of (r : Res Scraper) : option ScraperClass :=
  match r with
  | inr s => Some (cls s)
  | inl _ => None
  end.

(** The documents of the extraction passes a trace records, in order. *)
Definition extracted (tr : list Event) : list Element :=
  flat_map (fun ev => match ev with EvExtract _ d => [d] | _ => [] end) tr.

(** [s'] is [s] after some records were appended to [self.results]; the
    class and the base URL of the instance are the same. *)
Definition extends (s s' : St) : Prop :=
  cls (self s') = cls (self s) /\
  base_url (self s') = base_url (self s) /\
  exists ext, results (self s') = (results (self s) ++ ext)%list.

(** A step that only ever appends to [self.results]. *)
Definition appends_only {A} (m : M A) : Prop :=
  forall s, extends s (fst (m s)).

(** A step that leaves the trace alone. *)
Definition quiet {A} (m : M A) : Prop :=
  forall s, trace (fst (m s)) = trace s.

(** The guard of [AdnocScraper]: [if title_el and link_el]. *)
Definition adnoc_keeps (e : Element) : bool :=
  match query_selector e ".title", query_selector e "a" with
  | Some _, Some _ => true
  | _, _ => false
  end.

(** The guard of [AhramScraper]: [if title_el]. *)
Definition ahram_keeps (e : Element) : bool :=
  match query_selector e "div h5 a" with
  | Some _ => true
  | None => false
  end.

(** The title an Ahram row offers: the text of its [div h5 a] anchor. *)
Definition ahram_title (e : Element) : option string :=
  option_map inner_text (query_selector e "div h5 a").

(** The link an Ahram row offers: the [href] of that anchor. *)
Definition ahram_link (e : Element) : option string :=
  match query_selector e "div h5 a" with
  | Some t => get_attribute t "href"
  | None => None
  end.

(** As the specification words it: a candidate element lacks a required
    field when its title or its link is absent. *)
Definition lacks_required_field (title link : option string) : bool :=
  match title, link with
  | Some _, Some _ => false
  | _, _ => true
  end.

(** An item extractor that never raises, leaves the trace alone and appends
    one record for an element [keeps] accepts and none for the others. *)
Definition item_counted (f : Element -> M unit) (keeps : Element -> bool) : Prop :=
  forall e s, exists s' recs,
    f e s = (s', inr tt) /\
    trace s' = trace s /\
    results (self s') = (results (self s) ++ recs)%list /\
    length recs = (if keeps e then 1 else 0).

(** The state in which the [try] block of a call on instance [i] starts: the
    session or browser is there, nothing has happened yet. *)
Definition entered (i : Scraper) : St :=
  {| self := {| cls := cls i; base_url := base_url i; output_dir := output_dir i;
                results := results i; started := true; closed := closed i |};
     trace := [] |}.

(** What surrounds the [try] block in a class's [scrape]. *)
Definition guard_of (c : ScraperClass) : M (list Article) -> M (list Article) :=
  if is_playwright c then browser_guard else http_guard.

(** A call that went through to [return self.results]: it neither logged a
    page-level error nor left through the "0 matches" exit of ADNOC. *)
Definition completed (tr : list Event) : bool :=
  forallb (fun ev => match ev with
                     | EvNoMatches | EvLogError _ => false
                     | _ => true
                     end) tr.

(** A step whose value, when the call completes, is [self.results]. *)
Definition returns_results (m : M (list Article)) : Prop :=
  forall s s' l, m s = (s', inr l) -> completed (trace s') = true ->
                 l = results (self s').

(** A step that performs no extraction pass. *)
Definition silent {A} (m : M A) : Prop :=
  forall s, extracted (trace (fst (m s))) = extracted (trace s).

(** The extraction passes [E] of a paginated call: at most [bound] of them,
    and none after a page on which the next-control query [sel] found
    nothing. *)
Definition paged (sel : option string) (bound : nat) (E : list Element) : Prop :=
  length E <= bound /\
  forall s0 k d,
    sel = Some s0 ->
    nth_error E k = Some d ->
    query_selector d s0 = None ->
    length E = S k.

(** A step whose extraction passes are [paged]. *)
Definition adds_pages {A} (sel : option string) (bound : nat) (m : M A) : Prop :=
  forall s, exists E,
    extracted (trace (fst (m s))) = (extracted (trace s) ++ E)%list /\
    paged sel bound E.

(** One turn of a page loop: it extracts the page it is given at most once,
    and goes on to a further turn only past a next control. *)
Definition turn_ok (sel : string) (N : Z) (body : Z -> Page -> M LoopStep) : Prop :=
  forall n p s,
    match body n p s with
    | (s1, inl _) =>
        extracted (trace s1) = extracted (trace s) \/
        extracted (trace s1) = (extracted (trace s) ++ [page_doc p])%list
    | (s1, inr Break) =>
        extracted (trace s1) = (extracted (trace s) ++ [page_doc p])%list
    | (s1, inr (Continue _)) =>
        extracted (trace s1) = (extracted (trace s) ++ [page_doc p])%list /\
        ((n < N - 1)%Z -> query_selector (page_doc p) sel <> None)
    end.

(** Events other than an extraction pass. *)
Definition not_a_pass (ev : Event) : Prop :=
  match ev with
  | EvExtract _ _ => False
  | _ => True
  end.

(** [result['source_url'] = url] *)
Definition tag (url : string) (a : Article) : Article :=
  dict_set "source_url" (VStr url) a.

(** What one URL adds to [all_results]: the records its adapter returns,
    tagged; nothing when the adapter raises. *)
Definition contribution (web : Web) (query : string) (max_pages : Z) (url : string)
  : list Article :=
  match get_scraper_for_url web url output_dir_name with
  | inl _ => []
  | inr scraper =>
      match snd (invoke web scraper query max_pages) with
      | inl _ => []
      | inr results => map (tag url) results
      end
  end.

(** A run over a list of URLs with a query and a page limit. *)
Definition run_on (web : Web) (urls : list string) (query : string) (max_pages : Z) : Run :=
  main web {| in_urls := Some (UrlList urls);
              in_query := Some query;
              in_maxPages := Some max_pages |}.

Definition empty_acc : Acc := {| all_results := []; log := []; calls := [] |}.

(** The loop state [a] followed by what a later stretch of the loop added. *)
Definition acc_app (a b : Acc) : Acc :=
  {| all_results := all_results a ++ all_results b;
     log := log a ++ log b;
     calls := calls a ++ calls b |}.

(** Processing [url] met an error: its adapter's [scrape] raised, or the
    [try] block inside it did (and [scrape] caught it). *)
Definition page_error (web : Web) (query : string) (max_pages : Z) (url : string) : Prop :=
  exists scraper,
    get_scraper_for_url web url output_dir_name = inr scraper /\
    ((exists st e, invoke web scraper query max_pages = (st, inl e)) \/
     (exists body s' e,
         try_block web (cls scraper) (base_url scraper) query max_pages = Some body /\
         body (entered scraper) = (s', inl e))).

(** Sample pages and a sample web, for running the model on. *)
Module Sample.

Definition anchor (title href : string) : Element :=
  mkElement title [("href", href)] [].

Definition almonitor_article (title href : string) : Element :=
  mkElement "" [] [("h2 a, h3 a", [anchor title href])].

Definition almonitor_doc : Element :=
  mkElement "" []
    [("article",
      [ almonitor_article "Oil output rises" "/a/1";
        almonitor_article " Iraq signs deal " "https://www.al-monitor.com/a/2" ])].

Definition africanreview_doc : Element :=
  mkElement "" []
    [(".search-result, .search-results li, .article-list li",
      [ mkElement "" []
          [("h3 a, h2 a, .title a", [anchor "Pipeline opens" "/energy/p"])] ])].

Definition ahram_doc : Element :=
  mkElement "" []
    [("table tbody tr",
      [ mkElement "" [] [("div h5 a", [anchor "Gas field found" "/News/1.aspx"])] ])].

Definition adnoc_result (title href : string) : Element :=
  mkElement "" [] [(".title", [mkElement title [] []]); ("a", [anchor "" href])].

(** An ADNOC results page: three items, the second without a link. *)
Definition adnoc_doc : Element :=
  mkElement "" []
    [(".search-results", [mkElement "" [] []]);
     (".search-result-item",
      [ adnoc_result " Upstream contract awarded " "/news/1";
        mkElement "" [] [(".title", [mkElement "No link" [] []])];
        adnoc_result "Iraq oil talks" "/news/2" ])].

Definition almonitor_url : string := "https://www.al-monitor.com/search".
Definition africanreview_url : string := "https://africanreview.com/search".
Definition ahram_url : string := "https://english.ahram.org.eg/Search".
Definition adnoc_url : string := "https://www.adnoc.ae/search".
Definition unknown_url : string := "https://example.com/news".

(** Al-Monitor, African Review and Ahram answer; every other fetch fails.
    Directories can be created. *)
Definition web : Web :=
  {| http_get := fun u =>
       if String.eqb u "https://africanreview.com/search?q=iraq+oil&Search="
       then inr africanreview_doc
       else if String.eqb u "https://english.ahram.org.eg/Search?Text=iraq%20oil"
       then inr ahram_doc
       else inl (HTTPError u);
     goto := fun u =>
       if String.eqb u "https://www.al-monitor.com/search?text=iraq+oil"
       then inr (mkPage almonitor_doc None)
       else inl (NavigationError u);
     mkdir := fun _ => inr tt |}.

(** ADNOC and Ahram answer; every other fetch fails.  Directories can be
    created. *)
Definition adnoc_web : Web :=
  {| http_get := fun u =>
       if String.eqb u "https://english.ahram.org.eg/Search?Text=iraq%20oil"
       then inr ahram_doc
       else inl (HTTPError u);
     goto := fun u =>
       if String.eqb u "https://www.adnoc.ae/search?query=iraq+oil"
       then inr (mkPage adnoc_doc None)
       else inl (NavigationError u);
     mkdir := fun _ => inr tt |}.

End Sample.

(* ================================================================== *)
(** ** Vocabulary of the further properties *)

(** [link.startswith(("http://", "https://"))] *)
Definition is_absolute (link : string) : bool :=
  PyStr.startswith link "http://" || PyStr.startswith link "https://".

(** A string with no white space at either end. *)
Definition trimmed (s : string) : Prop := PyStr.strip s = s.

(** What the [url] of a record of class [c] can be.  Ahram and African
    Review read the link with a default and resolve it; Al-Monitor and
    Al Jazeera resolve it when the anchor has one; ADNOC stores the [href]
    as it is. *)
Definition url_ok (c : ScraperClass) (v : option Value) : Prop :=
  match c with
  | AhramScraper | AfricanReviewScraper =>
      exists u, v = Some (VStr u) /\ (u = "" \/ is_absolute u = true)
  | AlMonitorScraper | AlJazeeraScraper =>
      v = Some VNone \/
      exists u, v = Some (VStr u) /\ (u = "" \/ is_absolute u = true)
  | _ => v = Some VNone \/ exists u, v = Some (VStr u)
  end.

(** The fields every record of class [c] scraped for [query] has. *)
Definition fields_ok (c : ScraperClass) (query : string) (a : Article) : Prop :=
  dict_get "query" a = Some (VStr query) /\
  (exists t, dict_get "title" a = Some (VStr t) /\ trimmed t) /\
  (exists d, dict_get "date" a = Some (VStr d) /\ trimmed d) /\
  (exists s, dict_get "source" a = Some (VStr s) /\ s <> "") /\
  url_ok c (dict_get "url" a).

(** A record as an adapter appends it: the fields above, no source URL yet. *)
Definition record_ok (c : ScraperClass) (query : string) (a : Article) : Prop :=
  fields_ok c query a /\ dict_get "source_url" a = None.

(** A step that only appends records satisfying [P]. *)
Definition appends_with {A} (P : Article -> Prop) (m : M A) : Prop :=
  forall s, exists ext,
    results (self (fst (m s))) = (results (self s) ++ ext)%list /\ Forall P ext.

(** A step whose value is the empty list or [self.results]. *)
Definition returns_own (m : M (list Article)) : Prop :=
  forall s s' l, m s = (s', inr l) -> l = [] \/ l = results (self s').

(** An article of a run over [urls] for [query]: scraped by the site adapter
    of one of the URLs, with that adapter's fields, and tagged with the
    URL. *)
Definition article_ok (web : Web) (urls : list string) (query : string) (a : Article)
  : Prop :=
  exists u sc,
    In u urls /\
    get_scraper_for_url web u output_dir_name = inr sc /\
    is_site_adapter (cls sc) = true /\
    fields_ok (cls sc) query a /\
    dict_get "source_url" a = Some (VStr u).

(** A step all of whose events satisfy [Q]. *)
Definition emits {A} (Q : Event -> Prop) (m : M A) : Prop :=
  forall s, exists evs,
    trace (fst (m s)) = (trace s ++ evs)%list /\ Forall Q evs.

(** Events of a call before its browser is closed. *)
Definition not_close (ev : Event) : Prop := ev <> EvClose.

(** Events of an adapter that fetches over HTTP: no browser action at all. *)
Definition http_event (ev : Event) : Prop :=
  match ev with
  | EvClickNext | EvDelay _ _ | EvClose | EvNoMatches => False
  | _ => True
  end.

(** The site adapters that drive a browser. *)
Definition is_browser_adapter (c : ScraperClass) : bool :=
  is_playwright c && is_site_adapter c.

(** The guard of [AfricanReviewScraper] on a result container: [if title_el]. *)
Definition africanreview_keeps (e : Element) : bool :=
  match query_selector e "h3 a, h2 a, .title a" with
  | Some _ => true
  | None => false
  end.

(** ** Saving an adapter's results ([BaseScraper.save_results]) *)

Fixpoint ends_with_slash (s : string) : bool :=
  match s with
  | EmptyString => false
  | String c EmptyString => Ascii.eqb c "/"
  | String _ s' => ends_with_slash s'
  end.

(** [os.path.join(a, b)] on POSIX paths *)
Definition path_join (a b : string) : string :=
  if PyStr.startswith b "/" then b
  else if String.eqb a "" then b
  else if ends_with_slash a then a ++ b
  else a ++ "/" ++ b.

(** The file [save_results] writes: where, and the JSON document in it. *)
Record SavedFile : Type := mkSavedFile {
  saved_path : string;
  saved_source : string;
  saved_timestamp : string;
  saved_articles : list Article
}.

(** [save_results(filename)].  [stamp] and [iso] are what the clock gives for
    [strftime("%Y%m%d_%H%M%S")] and [isoformat()]; [filename] is [None] for
    the default argument.  The result is the path returned, with the
    document written there. *)
Definition save_results (self : Scraper) (filename : option string) (stamp iso : string)
  : Res SavedFile :=
  let given :=
    match filename with
    | Some f => if String.eqb f "" then None else Some f
    | None => None
    end in
  let chosen : Res string :=
    match given with
    | Some f => inr f
    | None =>
        match index_last (PyStr.split (base_url self) "//") with
        | inl e => inl e
        | inr rest =>
            match index_first (PyStr.split rest "/") with
            | inl e => inl e
            | inr host =>
                let domain := PyStr.replace_char "." "_" host in
                inr (domain ++ "_" ++ stamp ++ ".json")
            end
        end
    end in
  match chosen with
  | inl e => inl e
  | inr name =>
      inr {| saved_path := path_join (output_dir self) name;
             saved_source := base_url self;
             saved_timestamp := iso;
             saved_articles := results self |}
  end.

(** An item extractor that never raises and appends records whose titles
    are [titles e], in that order. *)
Definition item_titles (f : Element -> M unit) (titles : Element -> list string) : Prop :=
  forall e s, exists s' recs,
    f e s = (s', inr tt) /\
    results (self s') = (results (self s) ++ recs)%list /\
    map (dict_get "title") recs = map (fun t => Some (VStr t)) (titles e).

(** The title ADNOC reads off a result item, when its guard lets it through. *)
Definition adnoc_title (e : Element) : list string :=
  match query_selector e ".title", query_selector e "a" with
  | Some t, Some _ => [PyStr.strip (inner_text t)]
  | _, _ => []
  end.

(** The title Ahram reads off a row, when its guard lets it through. *)
Definition ahram_row_title (e : Element) : list string :=
  match query_selector e "div h5 a" with
  | Some t => [PyStr.strip (inner_text t)]
  | None => []
  end.

(* ================================================================== *)
(** ** Vocabulary for pages and records *)

(** The title Al-Monitor reads off an article element. *)
Definition almonitor_title (e : Element) : list string :=
  match query_selector e "h2 a, h3 a" with
  | Some t => [PyStr.strip (inner_text t)]
  | None => []
  end.

(** The title Al Jazeera reads off an article element. *)
Definition aljazeera_title (e : Element) : list string :=
  match query_selector e "h3 a, h2 a" with
  | Some t => [PyStr.strip (inner_text t)]
  | None => []
  end.

(** The title African Review reads off a result container. *)
Definition africanreview_title (e : Element) : list string :=
  match query_selector e "h3 a, h2 a, .title a" with
  | Some t => [PyStr.strip (inner_text t)]
  | None => []
  end.

(** The title African Review reads off a bare heading. *)
Definition africanreview_heading_title (e : Element) : list string :=
  [PyStr.strip (inner_text e)].

(** The titles of the records one extraction pass of class [c] over the
    document [doc] appends, in order. *)
Definition page_titles (c : ScraperClass) (doc : Element) : list string :=
  match c with
  | AdnocScraper =>
      flat_map adnoc_title (query_selector_all doc ".search-result-item")
  | AhramScraper =>
      flat_map ahram_row_title (query_selector_all doc "table tbody tr")
  | AlMonitorScraper =>
      flat_map almonitor_title (query_selector_all doc "article")
  | AlJazeeraScraper =>
      flat_map aljazeera_title (query_selector_all doc "article")
  | AfricanReviewScraper =>
      match
        match query_selector_all doc ".search-result, .search-results li, .article-list li" with
        | [] => query_selector_all doc "article, .article, .news-item"
        | l => l
        end
      with
      | [] =>
          flat_map africanreview_heading_title
                   (firstn 10 (query_selector_all doc "h3 a, h2 a"))
      | containers => flat_map africanreview_title containers
      end
  | RequestsScraper | PlaywrightScraper => []
  end.

(** The records [recs] are those of the extraction passes over [E]. *)
Definition records_of (c : ScraperClass) (E : list Element) (recs : list Article) : Prop :=
  map (dict_get "title") recs =
  map (fun t => Some (VStr t)) (flat_map (page_titles c) E).

(** A step that appends exactly the records of the passes it makes. *)
Definition yields {A} (c : ScraperClass) (m : M A) : Prop :=
  forall s, exists E recs,
    extracted (trace (fst (m s))) = (extracted (trace s) ++ E)%list /\
    results (self (fst (m s))) = (results (self s) ++ recs)%list /\
    records_of c E recs.

(** A step that leaves the browser as it finds it: it neither starts it nor
    closes it. *)
Definition keeps_browser {A} (m : M A) : Prop :=
  forall s,
    started (self (fst (m s))) = started (self s) /\
    closed (self (fst (m s))) = closed (self s).
(* ================================================================== *)
(** * Properties *)

(** ** Resolution *)

Lemma split_from_nonempty (sep : string) (s : string) :
  forall skip acc, PyStr.split_from sep skip acc s <> [].
Proof.
  induction s as [|c s IH]; intros skip acc; cbn [PyStr.split_from].
  - discriminate.
  - destruct skip as [|k].
    + destruct (String.prefix sep (String c s)).
      * discriminate.
      * apply IH.
    + apply IH.
Qed.

Lemma index_last_some {A} {l : list A} :
  l <> [] -> exists x, index_last l = inr x.
Proof.
  induction l as [|a l IH]; intros Hne.
  - now elim Hne.
  - destruct l as [|b l'].
    + now exists a.
    + simpl. apply IH. discriminate.
Qed.

Lemma index_first_some {A} {l : list A} :
  l <> [] -> exists x, index_first l = inr x.
Proof.
  destruct l as [|a l]; intros Hne.
  - now elim Hne.
  - now exists a.
Qed.

(** Indexing the pieces of a split never raises: the domain is always there. *)
Lemma domain_of_total (url : string) : exists d, domain_of url = inr d.
Proof.
  unfold domain_of.
  destruct (index_last_some (@split_from_nonempty "//" url 0 EmptyString)) as [rest Hr].
  unfold PyStr.split. rewrite Hr.
  destruct (index_first_some (@split_from_nonempty "/" rest 0 EmptyString)) as [host Hh].
  rewrite Hh. now eexists.
Qed.

(** What [find] finds is the first matching entry. *)
Lemma lookup_scraper_first {d : string} {m : list (string * ScraperClass)} {k c} :
  lookup_scraper d m = Some (k, c) ->
  PyStr.contains k d = true /\
  exists before after,
    m = (before ++ (k, c) :: after)%list /\
    forall e, In e before -> PyStr.contains (fst e) d = false.
Proof.
  unfold lookup_scraper.
  induction m as [|[k0 c0] m IH]; simpl; intros H.
  - discriminate.
  - destruct (PyStr.contains k0 d) eqn:E.
    + injection H as Hk Hc0. subst k0 c0. split; [exact E|].
      exists [], m. split; [reflexivity|]. intros e [].
    + destruct (IH H) as [Hc (before & after & -> & Hb)].
      split; [exact Hc|].
      exists ((k0, c0) :: before), after. split; [reflexivity|].
      intros e [<-|Hin]; [exact E|now apply Hb].
Qed.

Lemma lookup_scraper_none (d : string) (m : list (string * ScraperClass)) :
  lookup_scraper d m = None <->
  forall k c, In (k, c) m -> PyStr.contains k d = false.
Proof.
  unfold lookup_scraper. split.
  - intros H k c Hin. exact (find_none _ _ H (k, c) Hin).
  - intros H. destruct (find _ m) as [[k c]|] eqn:E; [|reflexivity].
    apply find_some in E. destruct E as [Hin Hc]. simpl in Hc.
    rewrite (H k c Hin) in Hc. discriminate.
Qed.

Lemma factory_class_default (d : string) :
  factory_class d = PlaywrightScraper \/ factory_class d = RequestsScraper.
Proof.
  unfold factory_class.
  repeat match goal with |- context [if ?b then _ else _] => destruct b end; auto.
Qed.

Lemma factory_class_unlisted (d : string) :
  (forall k, In k factory_allow_list -> PyStr.contains k d = false) ->
  factory_class d = PlaywrightScraper.
Proof.
  intros H. unfold factory_class.
  rewrite !H by (simpl; tauto). reflexivity.
Qed.

(** Every static-site domain of the factory is a key of [SCRAPER_MAP], so
    behind [get_scraper_for_url] the fallback only ever builds the browser
    base class. *)
Lemma factory_class_unregistered (d : string) :
  (forall k c, In (k, c) SCRAPER_MAP -> PyStr.contains k d = false) ->
  factory_class d = PlaywrightScraper.
Proof.
  intros H. unfold factory_class.
  rewrite (H "africanreview.com" AfricanReviewScraper) by (simpl; tauto).
  rewrite (H "ahram.org.eg" AhramScraper) by (simpl; tauto).
  simpl. repeat match goal with |- context [if ?b then _ else _] => destruct b end; auto.
Qed.

Lemma scraper_map_site_adapters k c :
  In (k, c) SCRAPER_MAP -> is_site_adapter c = true.
Proof.
  simpl. intros H.
  repeat (destruct H as [H|H]; [injection H as <- <-; reflexivity|]).
  destruct H.
Qed.

Lemma makedirs_unit (web : Web) (path : string) (u : unit) :
  makedirs web path = inr u -> makedirs web path = inr tt.
Proof. now destruct u. Qed.

Lemma construct_ok (web : Web) c url out :
  makedirs web out = inr tt -> construct web c url out = inr (new_scraper c url out).
Proof. unfold construct. now intros ->. Qed.

Lemma construct_failed (web : Web) c url out e :
  makedirs web out = inl e -> construct web c url out = inl e.
Proof. unfold construct. now intros ->. Qed.

Lemma construct_inr (web : Web) c url out s :
  construct web c url out = inr s ->
  makedirs web out = inr tt /\ s = new_scraper c url out.
Proof.
  unfold construct. destruct (makedirs web out) as [e|[]]; [discriminate|].
  intros H. injection H as <-. auto.
Qed.

Lemma construct_inl (web : Web) c url out e :
  construct web c url out = inl e -> makedirs web out = inl e.
Proof.
  unfold construct. destruct (makedirs web out) as [e'|[]]; [|discriminate].
  intros H. now injection H as <-.
Qed.

(** How a resolution comes about: the domain of the URL picks the class, the
    constructor builds the instance. *)
Lemma resolution_spec (web : Web) (url out : string) :
  exists d,
    domain_of url = inr d /\
    get_scraper_for_url web url out =
      construct web
        match lookup_scraper d SCRAPER_MAP with
        | Some (_, c) => c
        | None => factory_class d
        end url out.
Proof.
  destruct (domain_of_total url) as [d Hd]. exists d. split; [exact Hd|].
  unfold get_scraper_for_url, create_scraper. rewrite Hd.
  now destruct (lookup_scraper d SCRAPER_MAP) as [[k c]|].
Qed.

(** Once the output directory is there, the resolution returns. *)
Lemma resolution_returns (web : Web) (url out : string) :
  makedirs web out = inr tt ->
  exists s, get_scraper_for_url web url out = inr s.
Proof.
  intros Hm. destruct (resolution_spec web url out) as (d & _ & ->).
  rewrite (construct_ok _ _ _ _ Hm). now eexists.
Qed.

(** A resolution that returned has created the output directory. *)
Lemma resolution_made_directory (web : Web) (url out : string) s :
  get_scraper_for_url web url out = inr s -> makedirs web out = inr tt.
Proof.
  destruct (resolution_spec web url out) as (d & _ & ->).
  intros H. now apply construct_inr in H.
Qed.

(** Without the output directory, no resolution returns. *)
Lemma resolution_failed (web : Web) (url out : string) e :
  makedirs web out = inl e -> get_scraper_for_url web url out = inl e.
Proof.
  intros Hm. destruct (resolution_spec web url out) as (d & _ & ->).
  now apply construct_failed.
Qed.

(** C1, as stated, fails: the constructor of every adapter creates the output
    directory, and [os.makedirs] refuses the empty path, whatever the URL. *)
Lemma resolution_can_fail :
  ~ (forall web url out, exists s, get_scraper_for_url web url out = inr s).
Proof.
  intros H.
  destruct (H Sample.web "https://www.adnoc.ae/search" "") as [s Hs].
  vm_compute in Hs. discriminate Hs.
Qed.

(** C1, amended.  For every URL string the resolution ([get_scraper_for_url],
    falling back to [ScraperFactory.create_scraper]) never fails on account
    of the URL: the only exception it raises is the one [os.makedirs] raises
    in the adapter's constructor.  When the output directory exists or can
    be created, it returns a fresh adapter.  The domain is the text between
    the last double slash and the next slash, in lower case.  When it
    contains a key of [SCRAPER_MAP], the adapter is the site adapter
    registered for the first such key in the map's order; when it contains
    none, the adapter is the one [create_scraper] builds, a base class, and
    it is the browser (Playwright) one for a domain on none of the factory's
    lists. *)
Theorem get_scraper_for_url_resolves (web : Web) (url out : string) :
  exists rest host d,
    index_last (PyStr.split url "//") = inr rest /\
    index_first (PyStr.split rest "/") = inr host /\
    d = PyStr.lower host /\
    domain_of url = inr d /\
    (forall e, get_scraper_for_url web url out = inl e <-> makedirs web out = inl e) /\
    (makedirs web out = inr tt ->
     exists s,
       get_scraper_for_url web url out = inr s /\
       s = new_scraper (cls s) url out /\
       ((exists k c, In (k, c) SCRAPER_MAP /\ PyStr.contains k d = true) ->
        exists k before after,
          SCRAPER_MAP = (before ++ (k, cls s) :: after)%list /\
          PyStr.contains k d = true /\
          (forall e, In e before -> PyStr.contains (fst e) d = false) /\
          is_site_adapter (cls s) = true) /\
       ((forall k c, In (k, c) SCRAPER_MAP -> PyStr.contains k d = false) ->
        create_scraper web url out = inr s /\
        is_site_adapter (cls s) = false /\
        (cls s = PlaywrightScraper \/ cls s = RequestsScraper) /\
        ((forall k, In k factory_allow_list -> PyStr.contains k d = false) ->
         cls s = PlaywrightScraper))).
Proof.
  destruct (index_last_some (@split_from_nonempty "//" url 0 EmptyString)) as [rest Hr].
  destruct (index_first_some (@split_from_nonempty "/" rest 0 EmptyString)) as [host Hh].
  exists rest, host, (PyStr.lower host).
  assert (Hd : domain_of url = inr (PyStr.lower host)).
  { unfold domain_of, PyStr.split. rewrite Hr. fold (PyStr.split rest "/").
    unfold PyStr.split. now rewrite Hh. }
  split; [exact Hr|]. split; [exact Hh|]. split; [reflexivity|]. split; [exact Hd|].
  set (d := PyStr.lower host) in *.
  unfold get_scraper_for_url, create_scraper. rewrite Hd.
  split.
  - intros e. destruct (lookup_scraper d SCRAPER_MAP) as [[k c]|]; split;
      try apply construct_inl; apply construct_failed.
  - intros Hm.
    destruct (lookup_scraper d SCRAPER_MAP) as [[k c]|] eqn:L.
    + exists (new_scraper c url out). rewrite (construct_ok _ _ _ _ Hm).
      destruct (lookup_scraper_first L) as [Hc (before & after & Hmap & Hb)].
      assert (Hin : In (k, c) SCRAPER_MAP)
        by (rewrite Hmap; apply in_or_app; right; now left).
      split; [reflexivity|]. split; [reflexivity|]. split.
      * intros _. exists k, before, after. cbn [cls new_scraper].
        repeat split; auto.
        exact (scraper_map_site_adapters _ _ Hin).
      * intros Hnone. rewrite (Hnone k c Hin) in Hc. discriminate.
    + exists (new_scraper (factory_class d) url out).
      rewrite (construct_ok _ _ _ _ Hm).
      split; [reflexivity|]. split; [reflexivity|]. split.
      * intros (k & c & Hin & Hc).
        rewrite (proj1 (lookup_scraper_none d SCRAPER_MAP) L k c Hin) in Hc.
        discriminate.
      * intros _. cbn [cls new_scraper]. split; [reflexivity|]. split.
        -- now destruct (factory_class_default d) as [-> | ->].
        -- split; [apply factory_class_default|].
           intros Hl. now apply factory_class_unlisted.
Qed.

(** C7, as stated, fails: the domain [adnoc.ae.aljazeera.com] contains the
    registered key [aljazeera.com], and the resolution returns the adapter of
    [adnoc.ae], the key the map lists first. *)
Lemma resolution_by_every_key_fails :
  ~ (forall web url out d k c s,
        domain_of url = inr d ->
        In (k, c) SCRAPER_MAP ->
        PyStr.contains k d = true ->
        get_scraper_for_url web url out = inr s ->
        cls s = c).
Proof.
  intros H.
  specialize (H Sample.web "https://adnoc.ae.aljazeera.com/search" "output"
                "adnoc.ae.aljazeera.com" "aljazeera.com" AlJazeeraScraper
                (new_scraper AdnocScraper "https://adnoc.ae.aljazeera.com/search" "output")
                eq_refl).
  assert (Hin : In ("aljazeera.com", AlJazeeraScraper) SCRAPER_MAP) by (simpl; tauto).
  specialize (H Hin eq_refl eq_refl). discriminate H.
Qed.

(** C7, amended.  For every target URL whose domain contains a registered
    [SCRAPER_MAP] key, the resolution (given an output directory that exists
    or can be created) returns an adapter of the class of the first key, in
    the map's order, that the domain contains: of that key's class whenever
    every key the domain contains is registered for the same class.  The
    result is deterministic: wherever the URL stands in a sequence of
    resolutions, it gets an adapter of the same class, and so does every
    resolution of the URL that returns, whatever the output directory. *)
Theorem resolution_first_key_deterministic
  (web : Web) (url out d k : string) (c : ScraperClass) :
  domain_of url = inr d ->
  In (k, c) SCRAPER_MAP ->
  PyStr.contains k d = true ->
  makedirs web out = inr tt ->
  exists s k1 before after,
    get_scraper_for_url web url out = inr s /\
    SCRAPER_MAP = (before ++ (k1, cls s) :: after)%list /\
    PyStr.contains k1 d = true /\
    (forall e, In e before -> PyStr.contains (fst e) d = false) /\
    ((forall k' c', In (k', c') SCRAPER_MAP -> PyStr.contains k' d = true -> c' = c) ->
     cls s = c) /\
    (forall out1 out2 urls1 urls2 i j,
        makedirs web out1 = inr tt ->
        makedirs web out2 = inr tt ->
        nth_error urls1 i = Some url ->
        nth_error urls2 j = Some url ->
        option_map class_of (nth_error (resolve_all web out1 urls1) i) = Some (Some (cls s)) /\
        option_map class_of (nth_error (resolve_all web out2 urls2) j) = Some (Some (cls s))) /\
    (forall web' out' s',
        get_scraper_for_url web' url out' = inr s' -> cls s' = cls s).
Proof.
  intros Hd Hin Hc Hm.
  assert (R : forall o, makedirs web o = inr tt ->
                        exists k1 c1, lookup_scraper d SCRAPER_MAP = Some (k1, c1) /\
                                      get_scraper_for_url web url o = inr (new_scraper c1 url o)).
  { intros o Ho. unfold get_scraper_for_url. rewrite Hd.
    destruct (lookup_scraper d SCRAPER_MAP) as [[k1 c1]|] eqn:L.
    - exists k1, c1. now rewrite (construct_ok _ _ _ _ Ho).
    - rewrite (proj1 (lookup_scraper_none d SCRAPER_MAP) L k c Hin) in Hc. discriminate. }
  destruct (R out Hm) as (k1 & c1 & L & Hr).
  destruct (lookup_scraper_first L) as [Hc1 (before & after & Hmap & Hb)].
  exists (new_scraper c1 url out), k1, before, after.
  cbn [cls new_scraper].
  split; [exact Hr|]. split; [exact Hmap|]. split; [exact Hc1|]. split; [exact Hb|].
  split; [|split].
  - intros Hsame. apply (Hsame k1 c1); [|exact Hc1].
    rewrite Hmap. apply in_or_app. right. now left.
  - intros out1 out2 urls1 urls2 i j Ho1 Ho2 H1 H2. unfold resolve_all.
    rewrite !nth_error_map, H1, H2. cbn [option_map].
    destruct (R out1 Ho1) as (ka & ca & La & ->).
    destruct (R out2 Ho2) as (kb & cb & Lb & ->).
    rewrite L in La, Lb. injection La as _ <-. injection Lb as _ <-.
    split; reflexivity.
  - intros web' out' s' H'. unfold get_scraper_for_url in H'.
    rewrite Hd, L in H'. apply construct_inr in H'. now destruct H' as [_ ->].
Qed.

Lemma resolution_first_key_deterministic_witness :
  exists s,
    get_scraper_for_url Sample.web "https://www.aljazeera.com/search" "output" = inr s /\
    cls s = AlJazeeraScraper.
Proof.
  destruct (@resolution_first_key_deterministic Sample.web
              "https://www.aljazeera.com/search" "output"
              "www.aljazeera.com" "aljazeera.com" AlJazeeraScraper)
    as (s & k1 & before & after & Hr & Hm & Hk & Hb & Hsole & Hdet & _).
  - reflexivity.
  - simpl; tauto.
  - reflexivity.
  - reflexivity.
  - exists s. split; [exact Hr|].
    apply Hsole. intros k' c' Hin Hc.
    simpl in Hin.
    repeat (destruct Hin as [Hin|Hin];
            [injection Hin as <- <-; try reflexivity; vm_compute in Hc; discriminate Hc|]).
    destruct Hin.
Defined.

(* ------------------------------------------------------------------ *)
(** ** Steps that only append to [self.results] *)

Lemma extends_refl s : extends s s.
Proof.
  repeat split. exists []. now rewrite app_nil_r.
Qed.

Lemma extends_trans s1 s2 s3 : extends s1 s2 -> extends s2 s3 -> extends s1 s3.
Proof.
  intros (C1 & B1 & e1 & R1) (C2 & B2 & e2 & R2).
  repeat split; try congruence.
  exists (e1 ++ e2)%list. now rewrite R2, R1, app_assoc.
Qed.

Lemma ao_ret {A} (a : A) : appends_only (ret a).
Proof. intros s. apply extends_refl. Qed.

Lemma ao_raise {A} (e : Exn) : appends_only (@raise A e).
Proof. intros s. apply extends_refl. Qed.

Lemma ao_lift {A} (r : Res A) : appends_only (lift r).
Proof. intros s. apply extends_refl. Qed.

Lemma ao_emit ev : appends_only (emit ev).
Proof. intros s. repeat split. exists []. cbn. now rewrite app_nil_r. Qed.

Lemma ao_get_results : appends_only get_results.
Proof. intros s. apply extends_refl. Qed.

Lemma ao_get_base_url : appends_only get_base_url.
Proof. intros s. apply extends_refl. Qed.

Lemma ao_ensure_started : appends_only ensure_started.
Proof. intros s. repeat split. exists []. cbn. now rewrite app_nil_r. Qed.

Lemma ao_append_result a : appends_only (append_result a).
Proof. intros s. repeat split. now exists [a]. Qed.

Lemma ao_close : appends_only close.
Proof.
  intros s. unfold close.
  destruct (started (self s)); repeat split; exists []; cbn; now rewrite app_nil_r.
Qed.

Lemma ao_page_goto (web : Web) url : appends_only (page_goto web url).
Proof.
  intros s. unfold page_goto. destruct (closed (self s)); apply extends_refl.
Qed.

Lemma ao_bind {A B} (m : M A) (f : A -> M B) :
  appends_only m -> (forall a, appends_only (f a)) -> appends_only (bind m f).
Proof.
  intros Hm Hf s. unfold bind. specialize (Hm s).
  destruct (m s) as [s1 [e|a]]; cbn [fst] in *.
  - exact Hm.
  - eapply extends_trans; [exact Hm|apply Hf].
Qed.

Lemma ao_try_except {A} (m : M A) (h : Exn -> M A) :
  appends_only m -> (forall e, appends_only (h e)) -> appends_only (try_except m h).
Proof.
  intros Hm Hh s. unfold try_except. specialize (Hm s).
  destruct (m s) as [s1 [e|a]]; cbn [fst] in *.
  - eapply extends_trans; [exact Hm|apply Hh].
  - exact Hm.
Qed.

Lemma ao_finally {A} (m : M A) (c : M unit) :
  appends_only m -> appends_only c -> appends_only (finally m c).
Proof.
  intros Hm Hc s. unfold finally. specialize (Hm s).
  destruct (m s) as [s1 r]. specialize (Hc s1).
  destruct (c s1) as [s2 [e|u]]; cbn [fst] in *;
    eapply extends_trans; eauto.
Qed.

Lemma ao_for_each {A} (f : A -> M unit) (l : list A) :
  (forall x, appends_only (f x)) -> appends_only (for_each f l).
Proof.
  intros Hf. induction l as [|x l IH]; cbn [for_each].
  - apply ao_ret.
  - apply ao_bind; [apply Hf|intros _; exact IH].
Qed.

Lemma ao_for_pages (body : Z -> Page -> M LoopStep) (rng : list Z) :
  (forall n p, appends_only (body n p)) ->
  forall p, appends_only (for_pages body rng p).
Proof.
  intros Hb. induction rng as [|n rng IH]; intros p; cbn [for_pages].
  - apply ao_ret.
  - apply ao_bind; [apply Hb|]. intros [|p']; [apply ao_ret|apply IH].
Qed.

Create HintDb appends discriminated.
#[export] Hint Resolve ao_ret ao_raise ao_lift ao_emit ao_get_results
  ao_get_base_url ao_ensure_started ao_append_result ao_close ao_page_goto : appends.

(** Walks through a step built from the combinators above. *)
Ltac appends :=
  repeat first
    [ progress intros
    | apply ao_bind
    | apply ao_try_except
    | apply ao_finally
    | apply ao_for_each
    | apply ao_for_pages
    | solve [auto with appends]
    | match goal with
      | |- appends_only (match ?x with _ => _ end) => destruct x
      | |- appends_only (if ?b then _ else _) => destruct b
      end ].

Lemma ao_wait_for_selector p sel : appends_only (wait_for_selector p sel).
Proof. unfold wait_for_selector. appends. Qed.

Lemma ao_advance sel n k p : appends_only (advance sel n k p).
Proof. unfold advance, random_delay. appends. Qed.

#[export] Hint Resolve ao_wait_for_selector ao_advance : appends.

Lemma ao_scrape (web : Web) (c : ScraperClass) (query : string) (max_pages : Z) :
  appends_only (scrape web c query max_pages).
Proof.
  destruct c; cbn [scrape];
    unfold adnoc_scrape, ahram_scrape, aljazeera_scrape, africanreview_scrape,
      almonitor_scrape, requests_scrape, playwright_scrape,
      browser_guard, http_guard, on_error,
      adnoc_try, ahram_try, aljazeera_try, africanreview_try, almonitor_try,
      adnoc_turn, aljazeera_turn, almonitor_turn, adnoc_extract, ahram_extract,
      adnoc_item, ahram_item, aljazeera_item, africanreview_item, almonitor_item,
      africanreview_heading, submit_search;
    appends.
Qed.

(* ------------------------------------------------------------------ *)
(** ** Extraction of one page *)

Lemma filter_negb_length {A} (keeps : A -> bool) (l : list A) :
  length (filter keeps l) = length l - length (filter (fun e => negb (keeps e)) l).
Proof.
  induction l as [|x l IH]; cbn [filter length]; [reflexivity|].
  assert (Hle := filter_length_le (fun e => negb (keeps e)) l).
  destruct (keeps x); cbn [negb length]; lia.
Qed.

Lemma for_each_counted {f : Element -> M unit} {keeps : Element -> bool} :
  item_counted f keeps ->
  forall l s, exists s' recs,
    for_each f l s = (s', inr tt) /\
    trace s' = trace s /\
    results (self s') = (results (self s) ++ recs)%list /\
    length recs = length (filter keeps l).
Proof.
  intros Hf. induction l as [|x l IH]; intros s; cbn [for_each filter].
  - exists s, []. repeat split. now rewrite app_nil_r.
  - destruct (Hf x s) as (s1 & r1 & E1 & T1 & R1 & L1).
    destruct (IH s1) as (s2 & r2 & E2 & T2 & R2 & L2).
    exists s2, (r1 ++ r2)%list. unfold bind. rewrite E1, E2.
    repeat split.
    + congruence.
    + now rewrite R2, R1, app_assoc.
    + rewrite length_app, L1, L2. now destruct (keeps x).
Qed.

Lemma adnoc_item_counted query : item_counted (adnoc_item query) adnoc_keeps.
Proof.
  intros e s. unfold adnoc_item, adnoc_keeps.
  destruct (query_selector e ".title"), (query_selector e "a");
    try (exists s, []; repeat split; now rewrite app_nil_r).
  eexists _, [_]. repeat split.
Qed.

Lemma ahram_item_counted query : item_counted (ahram_item query) ahram_keeps.
Proof.
  intros e s. unfold ahram_item, ahram_keeps, try_except.
  destruct (query_selector e "div h5 a");
    try (exists s, []; repeat split; now rewrite app_nil_r).
  eexists _, [_]. repeat split.
Qed.

(** C2, as stated, fails: an Ahram row whose title anchor has no [href] lacks
    its link, and still yields a record (with an empty url). *)
Lemma extraction_count_as_stated_fails :
  ~ (forall query elems s,
        length (results (self (fst (ahram_extract query elems s)))) =
        length (results (self s)) +
        (length elems -
         length (filter (fun e => lacks_required_field (ahram_title e) (ahram_link e))
                        elems))).
Proof.
  intros H.
  specialize (H "iraq oil"
                [mkElement "" [] [("div h5 a", [mkElement "Oil output rises" [] []])]]
                {| self := new_scraper AhramScraper "https://english.ahram.org.eg/Search" "output";
                   trace := [] |}).
  vm_compute in H. discriminate H.
Qed.

(** C2, amended.  On a page with K candidate elements of which M fail the
    adapter's guard (Ahram: no [div h5 a] title anchor; ADNOC: no [.title]
    element or no [a] element), the extraction step never aborts and appends
    exactly K - M records.  A missing [href] does not disqualify an element:
    its record carries an empty url (Ahram) or a null one (ADNOC). *)
Theorem extraction_skips_unmatched (query : string) (elems : list Element) (s : St) :
  (exists s' recs,
      ahram_extract query elems s = (s', inr tt) /\
      results (self s') = (results (self s) ++ recs)%list /\
      length recs =
        length elems - length (filter (fun e => negb (ahram_keeps e)) elems)) /\
  (exists s' recs,
      adnoc_extract query elems s = (s', inr tt) /\
      results (self s') = (results (self s) ++ recs)%list /\
      length recs =
        length elems - length (filter (fun e => negb (adnoc_keeps e)) elems)) /\
  (forall e t,
      query_selector e "div h5 a" = Some t ->
      get_attribute t "href" = None ->
      exists r,
        results (self (fst (ahram_item query e s))) = (results (self s) ++ [r])%list /\
        dict_get "url" r = Some (VStr "")) /\
  (forall e t l,
      query_selector e ".title" = Some t ->
      query_selector e "a" = Some l ->
      get_attribute l "href" = None ->
      exists r,
        results (self (fst (adnoc_item query e s))) = (results (self s) ++ [r])%list /\
        dict_get "url" r = Some VNone).
Proof.
  split; [|split; [|split]].
  - destruct (for_each_counted (ahram_item_counted query) elems s)
      as (s' & recs & E & _ & R & L).
    exists s', recs. unfold ahram_extract. rewrite <- filter_negb_length. auto.
  - destruct (for_each_counted (adnoc_item_counted query) elems s)
      as (s' & recs & E & _ & R & L).
    exists s', recs. unfold adnoc_extract. rewrite <- filter_negb_length. auto.
  - intros e t Ht Hh. unfold ahram_item, try_except, bs_get. rewrite Ht, Hh.
    eexists. split; reflexivity.
  - intros e t l Ht Hl Hh. unfold adnoc_item. rewrite Ht, Hl, Hh.
    eexists. split; reflexivity.
Qed.

(* ------------------------------------------------------------------ *)
(** ** One call of [scrape] *)

Lemma invoke_site (web : Web) (i : Scraper) (query : string) (max_pages : Z) body :
  try_block web (cls i) (base_url i) query max_pages = Some body ->
  invoke web i query max_pages = guard_of (cls i) body (entered i).
Proof.
  unfold invoke. destruct i as [c b o r st]. cbn [cls base_url].
  destruct c; cbn [try_block]; intros H; try discriminate H;
    injection H as <-; reflexivity.
Qed.

Lemma ao_try_block (web : Web) c base query max_pages body :
  try_block web c base query max_pages = Some body -> appends_only body.
Proof.
  destruct c; cbn [try_block]; intros H; try discriminate H; injection H as <-;
    unfold adnoc_try, ahram_try, aljazeera_try, africanreview_try, almonitor_try,
      adnoc_turn, aljazeera_turn, almonitor_turn, adnoc_extract, ahram_extract,
      adnoc_item, ahram_item, aljazeera_item, africanreview_item, almonitor_item,
      africanreview_heading, submit_search;
    appends.
Qed.

(** What a guard makes of a [try] block that raises: the error is logged,
    the call returns the empty list, and the instance keeps what the block
    had appended. *)
Lemma guard_caught c (body : M (list Article)) s s' e :
  body s = (s', inl e) ->
  exists st,
    guard_of c body s = (st, inr []) /\
    results (self st) = results (self s') /\
    In (EvLogError e) (trace st).
Proof.
  intros H. unfold guard_of, browser_guard, http_guard, finally, try_except, on_error,
    close, emit, bind, ret.
  destruct (is_playwright c); rewrite H; cbn [self trace];
    [destruct (started (self s'))|]; cbn; eexists;
    (split; [reflexivity|]); (split; [reflexivity|]); cbn [trace];
    rewrite ?in_app_iff; cbn [In]; tauto.
Qed.

(** What a guard makes of a [try] block that returns. *)
Lemma guard_returned c (body : M (list Article)) s s' l :
  body s = (s', inr l) ->
  exists st,
    guard_of c body s = (st, inr l) /\
    results (self st) = results (self s') /\
    completed (trace st) = completed (trace s').
Proof.
  intros H. unfold guard_of, browser_guard, http_guard, finally, try_except, close, emit.
  destruct (is_playwright c); rewrite H; cbn [self trace];
    [destruct (started (self s'))|]; cbn; eexists;
    (split; [reflexivity|]); (split; [reflexivity|]); cbn [trace];
    unfold completed; rewrite ?forallb_app; cbn [forallb];
    rewrite ?andb_true_r; reflexivity.
Qed.

(** C6, as stated, fails.  ADNOC, two pages allowed: the first page yields a
    record and has a next control, the second never shows a result item, so
    the wait times out.  The call returns the empty list, not the record. *)
Lemma caught_error_returns_accumulated_fails :
  ~ (forall web i query max_pages body s' e,
        try_block web (cls i) (base_url i) query max_pages = Some body ->
        body (entered i) = (s', inl e) ->
        snd (invoke web i query max_pages) = inr (results (self s'))).
Proof.
  intros H.
  pose (item := mkElement "" []
                  [(".title", [mkElement "Oil output rises" [] []]);
                   ("a", [mkElement "" [("href", "/a/1")] []])]).
  pose (doc0 := mkElement "" []
                  [(".search-results", [mkElement "" [] []]);
                   (".search-result-item", [item]);
                   (".pagination-next:not(.disabled)", [mkElement "Next" [] []])]).
  pose (doc1 := mkElement "" [] []).
  pose (web := {| http_get := fun u => inl (HTTPError u);
                  goto := fun _ => inr (mkPage doc0 (Some (mkPage doc1 None)));
                  mkdir := fun _ => inr tt |}).
  pose (i := new_scraper AdnocScraper "https://www.adnoc.ae/search" "output").
  specialize (H web i "iraq oil" 2%Z _
                (fst (adnoc_try web (adnoc_url (base_url i) "iraq oil") "iraq oil" 2 (entered i)))
                (TimeoutError ".search-result-item") eq_refl eq_refl).
  vm_compute in H. discriminate H.
Qed.

(** C6, amended.  When the [try] block of a site adapter's [scrape] raises a
    page-level error, the call catches it, logs it and returns the empty
    list rather than propagating; the records extracted before the error are
    not returned, they stay in the instance's [results]. *)
Theorem caught_error_returns_empty
  (web : Web) (i : Scraper) (query : string) (max_pages : Z)
  (body : M (list Article)) (s' : St) (e : Exn) :
  try_block web (cls i) (base_url i) query max_pages = Some body ->
  body (entered i) = (s', inl e) ->
  exists st,
    invoke web i query max_pages = (st, inr []) /\
    In (EvLogError e) (trace st) /\
    results (self st) = results (self s') /\
    exists before_error, results (self s') = (results i ++ before_error)%list.
Proof.
  intros Hb He.
  destruct (guard_caught (cls i) body _ _ _ He) as (st & Hg & Hs & Hl).
  exists st. rewrite (invoke_site _ _ _ _ _ Hb).
  split; [exact Hg|]. split; [exact Hl|]. split; [exact Hs|].
  destruct (ao_try_block _ _ _ _ _ _ Hb (entered i)) as (_ & _ & ext & Hx).
  rewrite He in Hx. exists ext. exact Hx.
Qed.

Lemma caught_error_returns_empty_witness :
  exists st,
    invoke {| http_get := fun u => inl (HTTPError u);
              goto := fun u => inl (NavigationError u);
              mkdir := fun _ => inr tt |}
           (new_scraper AhramScraper "https://english.ahram.org.eg/Search" "output")
           "iraq oil" 1 = (st, inr []) /\
    results (self st) = [].
Proof.
  destruct (@caught_error_returns_empty
              {| http_get := fun u => inl (HTTPError u);
                 goto := fun u => inl (NavigationError u);
                 mkdir := fun _ => inr tt |}
              (new_scraper AhramScraper "https://english.ahram.org.eg/Search" "output")
              "iraq oil" 1%Z _
              (entered (new_scraper AhramScraper "https://english.ahram.org.eg/Search" "output"))
              (HTTPError "https://english.ahram.org.eg/Search?Text=iraq%20oil")
              eq_refl eq_refl)
    as (st & Hi & _ & Hr & _).
  exists st. split; [exact Hi|exact Hr].
Defined.

(* ------------------------------------------------------------------ *)
(** ** What a completed call returns *)

Lemma rr_bind {A} (m : M A) (f : A -> M (list Article)) :
  (forall a, returns_results (f a)) -> returns_results (bind m f).
Proof.
  intros Hf s s' l. unfold bind.
  destruct (m s) as [s1 [e|a]]; [discriminate|apply Hf].
Qed.

Lemma rr_get_results : returns_results get_results.
Proof. intros s s' l H _. injection H as <- <-. reflexivity. Qed.

Lemma rr_no_matches : returns_results (emit EvNoMatches ;; ret []).
Proof.
  intros s s' l H C. injection H as <- <-. cbn [trace] in C.
  unfold completed in C. rewrite forallb_app in C. cbn in C.
  rewrite andb_false_r in C. discriminate C.
Qed.

Lemma rr_try_block (web : Web) c base query max_pages body :
  try_block web c base query max_pages = Some body -> returns_results body.
Proof.
  destruct c; cbn [try_block]; intros H; try discriminate H; injection H as <-;
    unfold adnoc_try, ahram_try, aljazeera_try, africanreview_try, almonitor_try;
    repeat first
      [ progress intros
      | apply rr_get_results
      | apply rr_no_matches
      | apply rr_bind
      | match goal with
        | |- returns_results (match ?x with _ => _ end) => destruct x
        end ].
Qed.

Lemma invoke_base_raises (web : Web) (i : Scraper) (query : string) (max_pages : Z) :
  is_site_adapter (cls i) = false ->
  invoke web i query max_pages =
    (entered i, inl (NotImplementedError "Site-specific implementation required")).
Proof.
  unfold invoke. destruct i as [c b o r st]. cbn [cls].
  destruct c; intros H; try discriminate H; reflexivity.
Qed.

Lemma try_block_site (web : Web) c base query max_pages :
  is_site_adapter c = true ->
  exists body, try_block web c base query max_pages = Some body.
Proof.
  destruct c; intros H; try discriminate H; cbn [try_block]; eauto.
Qed.

Lemma is_site_adapter_cases c : is_site_adapter c = true \/ is_site_adapter c = false.
Proof. destruct (is_site_adapter c); auto. Qed.

(** A completed call returns the whole [self.results]. *)
Lemma invoke_completed (web : Web) (i : Scraper) (query : string) (max_pages : Z) st l :
  invoke web i query max_pages = (st, inr l) ->
  completed (trace st) = true ->
  l = results (self st).
Proof.
  intros Hi Hc.
  destruct (is_site_adapter_cases (cls i)) as [Hs|Hs].
  - destruct (try_block_site web (cls i) (base_url i) query max_pages Hs) as [body Hb].
    rewrite (invoke_site _ _ _ _ _ Hb) in Hi.
    destruct (body (entered i)) as [s' [e|l']] eqn:E.
    + destruct (guard_caught (cls i) body _ _ _ E) as (st' & Hg & _ & Hl).
      rewrite Hg in Hi. injection Hi as <- <-.
      unfold completed in Hc. rewrite forallb_forall in Hc.
      specialize (Hc _ Hl). discriminate Hc.
    + destruct (guard_returned (cls i) body _ _ _ E) as (st' & Hg & Hself & Hcomp).
      rewrite Hg in Hi. injection Hi as <- <-.
      rewrite Hself. apply (rr_try_block _ _ _ _ _ _ Hb _ _ _ E). now rewrite <- Hcomp.
  - rewrite (invoke_base_raises _ _ _ _ Hs) in Hi. discriminate Hi.
Qed.

(** A call only appends to the instance's [results]. *)
Lemma invoke_appends (web : Web) (i : Scraper) (query : string) (max_pages : Z) :
  exists appended,
    results (self (fst (invoke web i query max_pages))) = (results i ++ appended)%list.
Proof.
  destruct (ao_scrape web (cls i) query max_pages {| self := i; trace := [] |})
    as (_ & _ & ext & H).
  exists ext. exact H.
Qed.

(* ------------------------------------------------------------------ *)
(** ** Extraction passes and the page loop *)

Lemma extracted_app (t1 t2 : list Event) :
  extracted (t1 ++ t2) = (extracted t1 ++ extracted t2)%list.
Proof. unfold extracted. apply flat_map_app. Qed.

Lemma silent_ret {A} (a : A) : silent (ret a).
Proof. intros s. reflexivity. Qed.

Lemma silent_raise {A} (e : Exn) : silent (@raise A e).
Proof. intros s. reflexivity. Qed.

Lemma silent_lift {A} (r : Res A) : silent (lift r).
Proof. intros s. reflexivity. Qed.

Lemma silent_get_results : silent get_results.
Proof. intros s. reflexivity. Qed.

Lemma silent_get_base_url : silent get_base_url.
Proof. intros s. reflexivity. Qed.

Lemma silent_ensure_started : silent ensure_started.
Proof. intros s. reflexivity. Qed.

Lemma silent_append_result a : silent (append_result a).
Proof. intros s. reflexivity. Qed.

Lemma silent_emit ev : not_a_pass ev -> silent (emit ev).
Proof.
  intros H s. cbn. rewrite extracted_app.
  destruct ev; try (cbn; apply app_nil_r). destruct H.
Qed.

Lemma silent_bind {A B} (m : M A) (f : A -> M B) :
  silent m -> (forall a, silent (f a)) -> silent (bind m f).
Proof.
  intros Hm Hf s. unfold bind. specialize (Hm s).
  destruct (m s) as [s1 [e|a]]; cbn [fst] in *.
  - exact Hm.
  - now rewrite Hf.
Qed.

Lemma silent_try_except {A} (m : M A) (h : Exn -> M A) :
  silent m -> (forall e, silent (h e)) -> silent (try_except m h).
Proof.
  intros Hm Hh s. unfold try_except. specialize (Hm s).
  destruct (m s) as [s1 [e|a]]; cbn [fst] in *.
  - now rewrite Hh.
  - exact Hm.
Qed.

Lemma silent_for_each {A} (f : A -> M unit) (l : list A) :
  (forall x, silent (f x)) -> silent (for_each f l).
Proof.
  intros Hf. induction l as [|x l IH]; cbn [for_each].
  - apply silent_ret.
  - apply silent_bind; [apply Hf|intros _; exact IH].
Qed.

Create HintDb silence discriminated.
#[export] Hint Resolve silent_ret silent_raise silent_lift silent_get_results
  silent_get_base_url silent_ensure_started silent_append_result : silence.

Ltac silence :=
  repeat first
    [ progress intros
    | solve [auto with silence]
    | solve [apply silent_emit; exact I]
    | progress cbv zeta
    | apply silent_bind
    | apply silent_try_except
    | apply silent_for_each
    | match goal with
      | |- silent (match ?x with _ => _ end) => destruct x
      | |- silent (if ?b then _ else _) => destruct b
      end ].

Lemma silent_wait_for_selector p sel : silent (wait_for_selector p sel).
Proof. unfold wait_for_selector. silence. Qed.

Lemma silent_advance sel N n p : silent (advance sel N n p).
Proof. unfold advance, random_delay. silence. Qed.

Lemma silent_on_error e : silent (on_error e).
Proof. unfold on_error. silence. Qed.

Lemma silent_close : silent close.
Proof.
  intros s. unfold close. destruct (started (self s)); [|reflexivity].
  cbn [fst trace]. rewrite extracted_app. cbn. apply app_nil_r.
Qed.

Lemma silent_page_goto (web : Web) url : silent (page_goto web url).
Proof. intros s. unfold page_goto. now destruct (closed (self s)). Qed.

Lemma silent_submit_search p : silent (submit_search p).
Proof. unfold submit_search. silence. Qed.

#[export] Hint Resolve silent_wait_for_selector silent_advance silent_on_error
  silent_close silent_submit_search silent_page_goto : silence.

Lemma silent_adnoc_extract q l : silent (adnoc_extract q l).
Proof. unfold adnoc_extract, adnoc_item. silence. Qed.

Lemma silent_ahram_extract q l : silent (ahram_extract q l).
Proof. unfold ahram_extract, ahram_item. silence. Qed.

Lemma silent_almonitor_items q l : silent (for_each (almonitor_item q) l).
Proof. unfold almonitor_item. silence. Qed.

Lemma silent_aljazeera_items q l : silent (for_each (aljazeera_item q) l).
Proof. unfold aljazeera_item. silence. Qed.

Lemma silent_africanreview_items q l : silent (for_each (africanreview_item q) l).
Proof. unfold africanreview_item. silence. Qed.

Lemma silent_africanreview_headings q l : silent (for_each (africanreview_heading q) l).
Proof. unfold africanreview_heading. silence. Qed.

#[export] Hint Resolve silent_adnoc_extract silent_ahram_extract silent_almonitor_items
  silent_aljazeera_items silent_africanreview_items silent_africanreview_headings
  : silence.

(** The common shape of a turn: wait (or not), note the pass, extract the
    items, then look for the next control. *)
Lemma turn_shape_ok sel N (pre items : Page -> M unit) :
  (forall p, silent (pre p)) ->
  (forall p, silent (items p)) ->
  turn_ok sel N
    (fun n p => pre p ;; emit (EvExtract n (page_doc p)) ;; items p ;; advance sel N n p).
Proof.
  intros Hpre Hitems n p s. unfold bind.
  pose proof (Hpre p s) as H1.
  destruct (pre p s) as [s1 [e|[]]]; cbn [fst] in H1; [now left|].
  cbn [emit].
  match goal with |- context [items p ?s2] =>
    pose proof (Hitems p s2) as H2; destruct (items p s2) as [s3 [e|[]]]
  end; cbn [fst trace] in H2; rewrite extracted_app, H1 in H2; cbn in H2.
  - now right.
  - unfold advance, random_delay, emit, bind, ret, raise.
    destruct (n <? N - 1)%Z eqn:Hlt.
    + destruct (query_selector (page_doc p) sel) eqn:Hq.
      * destruct (page_after p); cbn [trace].
        -- rewrite !extracted_app. cbn. rewrite !app_nil_r. split; [exact H2|].
           intros _. discriminate.
        -- now right.
      * exact H2.
    + split; [exact H2|]. intros Hn. apply Z.ltb_ge in Hlt. lia.
Qed.

Lemma nth_error_singleton {A} (x d : A) k :
  nth_error [x] k = Some d -> k = 0 /\ d = x.
Proof.
  destruct k as [|k]; cbn.
  - intros H. injection H as <-. auto.
  - destruct k; discriminate.
Qed.

(** The page loop over the tail [a, a+1, ..., a+b-1] of [range(N)]. *)
Lemma for_pages_paged sel N body :
  turn_ok sel N body ->
  forall b a p s,
    (b = 0 \/ Z.of_nat (a + b) = N) ->
    exists E,
      extracted (trace (fst (for_pages body (map Z.of_nat (seq a b)) p s))) =
        (extracted (trace s) ++ E)%list /\
      paged (Some sel) b E.
Proof.
  intros Hturn. induction b as [|b IH]; intros a p s Hinv; cbn [seq map for_pages].
  - exists []. split; [now rewrite app_nil_r|]. split; [cbn; lia|].
    intros s0 k d _ Hk. destruct k; discriminate Hk.
  - unfold bind. pose proof (Hturn (Z.of_nat a) p s) as Ht.
    destruct (body (Z.of_nat a) p s) as [s1 [e|[|p']]]; cbn [fst].
    + destruct Ht as [Ht|Ht].
      * exists []. split; [now rewrite app_nil_r|]. split; [cbn; lia|].
        intros s0 k d _ Hk. destruct k; discriminate Hk.
      * exists [page_doc p]. split; [exact Ht|]. split; [cbn; lia|].
        intros s0 k d _ Hk _. apply nth_error_singleton in Hk. now destruct Hk as [-> _].
    + exists [page_doc p]. split; [exact Ht|]. split; [cbn; lia|].
      intros s0 k d _ Hk _. apply nth_error_singleton in Hk. now destruct Hk as [-> _].
    + destruct Ht as [Ht Hnext].
      destruct (IH (S a) p' s1) as (E & HE & Hlen & Hhalt).
      { destruct Hinv as [Hinv|Hinv]; [discriminate|]. right. rewrite <- Hinv. f_equal. lia. }
      exists (page_doc p :: E). split.
      { rewrite HE, Ht, <- app_assoc. reflexivity. }
      split; [cbn; lia|].
      intros s0 k d Hs0 Hk Hq. injection Hs0 as <-.
      destruct k as [|k]; cbn in Hk.
      * injection Hk as <-.
        destruct b as [|b'].
        -- destruct E; [reflexivity|cbn in Hlen; lia].
        -- exfalso. apply Hnext; [|exact Hq].
           destruct Hinv as [Hinv|Hinv]; [discriminate|]. lia.
      * cbn. f_equal. now apply (Hhalt sel k d).
Qed.

Lemma paged_nil sel b : paged sel b [].
Proof.
  split; [cbn; lia|]. intros s0 k d _ Hk. destruct k; discriminate Hk.
Qed.

Lemma silent_adds {A} sel b (m : M A) : silent m -> adds_pages sel b m.
Proof.
  intros H s. exists []. rewrite app_nil_r. split; [apply H|apply paged_nil].
Qed.

Lemma adds_bind_l {A B} sel b (m : M A) (f : A -> M B) :
  silent m -> (forall a, adds_pages sel b (f a)) -> adds_pages sel b (bind m f).
Proof.
  intros Hm Hf s. unfold bind. specialize (Hm s).
  destruct (m s) as [s1 [e|a]]; cbn [fst] in *.
  - exists []. rewrite app_nil_r. split; [exact Hm|apply paged_nil].
  - destruct (Hf a s1) as (E & HE & HP). exists E. split; [now rewrite HE, Hm|exact HP].
Qed.

Lemma adds_bind_r {A B} sel b (m : M A) (f : A -> M B) :
  adds_pages sel b m -> (forall a, silent (f a)) -> adds_pages sel b (bind m f).
Proof.
  intros Hm Hf s. unfold bind. destruct (Hm s) as (E & HE & HP).
  destruct (m s) as [s1 [e|a]]; cbn [fst] in *.
  - exists E. auto.
  - exists E. split; [now rewrite Hf|exact HP].
Qed.

Lemma adds_try_except {A} sel b (m : M A) (h : Exn -> M A) :
  adds_pages sel b m -> (forall e, silent (h e)) -> adds_pages sel b (try_except m h).
Proof.
  intros Hm Hh s. unfold try_except. destruct (Hm s) as (E & HE & HP).
  destruct (m s) as [s1 [e|a]]; cbn [fst] in *.
  - exists E. split; [now rewrite Hh|exact HP].
  - exists E. auto.
Qed.

Lemma adds_finally {A} sel b (m : M A) (c : M unit) :
  adds_pages sel b m -> silent c -> adds_pages sel b (finally m c).
Proof.
  intros Hm Hc s. unfold finally. destruct (Hm s) as (E & HE & HP).
  destruct (m s) as [s1 r]. cbn [fst] in *. specialize (Hc s1).
  destruct (c s1) as [s2 [e|u]]; cbn [fst] in *; exists E; split; congruence || exact HP.
Qed.

Lemma adds_for_pages sel N body p :
  turn_ok sel N body ->
  adds_pages (Some sel) (Z.to_nat N) (for_pages body (py_range N) p).
Proof.
  intros Hturn s. unfold py_range.
  apply (for_pages_paged _ _ _ Hturn).
  destruct (Z.to_nat N) eqn:E; [now left|right]. lia.
Qed.

(** The single pass of an HTTP adapter. *)
Lemma adds_single_pass n d b : 1 <= b -> adds_pages None b (emit (EvExtract n d)).
Proof.
  intros Hb s. exists [d]. cbn. rewrite extracted_app. split; [reflexivity|].
  split; [cbn; lia|]. intros s0 k d' Hs. discriminate Hs.
Qed.

Lemma adnoc_turn_ok q N :
  turn_ok ".pagination-next:not(.disabled)" N (adnoc_turn q N).
Proof.
  exact (@turn_shape_ok _ N
           (fun p => wait_for_selector p ".search-result-item")
           (fun p => adnoc_extract q (query_selector_all (page_doc p) ".search-result-item"))
           (fun p => silent_wait_for_selector p _)
           (fun p => silent_adnoc_extract q _)).
Qed.

Lemma aljazeera_turn_ok q N :
  turn_ok "button:has-text('Next')" N (aljazeera_turn q N).
Proof.
  exact (@turn_shape_ok _ N
           (fun p => wait_for_selector p "article")
           (fun p => for_each (aljazeera_item q) (query_selector_all (page_doc p) "article"))
           (fun p => silent_wait_for_selector p _)
           (fun p => silent_aljazeera_items q _)).
Qed.

Lemma almonitor_turn_ok q N :
  turn_ok "a.next, a:has-text('Next')" N (almonitor_turn q N).
Proof.
  intros n p s.
  exact (@turn_shape_ok _ N
           (fun _ => ret tt)
           (fun p => for_each (almonitor_item q) (query_selector_all (page_doc p) "article"))
           (fun _ => silent_ret tt)
           (fun p => silent_almonitor_items q _) n p s).
Qed.

(** The extraction passes of a whole call. *)
Lemma scrape_paged (web : Web) c q N :
  (1 <= N)%Z -> adds_pages (next_selector c) (Z.to_nat N) (scrape web c q N).
Proof.
  intros HN. assert (Hb : 1 <= Z.to_nat N) by lia.
  destruct c; cbn [scrape next_selector].
  - unfold adnoc_scrape, browser_guard, adnoc_try.
    apply adds_bind_l; [silence|intros _].
    apply adds_bind_l; [silence|intros base].
    apply adds_finally; [|silence]. apply adds_try_except; [|silence].
    apply adds_bind_l; [silence|intros p].
    apply adds_bind_l; [silence|intros _].
    destruct (query_selector_all (page_doc p) "text=we found 0 matches").
    + apply adds_bind_r; [|silence]. apply adds_for_pages, adnoc_turn_ok.
    + apply silent_adds. silence.
  - unfold ahram_scrape, http_guard, ahram_try.
    apply adds_bind_l; [silence|intros _].
    apply adds_bind_l; [silence|intros base].
    apply adds_try_except; [|silence].
    apply adds_bind_l; [silence|intros soup].
    apply adds_bind_r; [|silence]. now apply adds_single_pass.
  - unfold aljazeera_scrape, browser_guard, aljazeera_try.
    apply adds_bind_l; [silence|intros _].
    apply adds_bind_l; [silence|intros base].
    apply adds_finally; [|silence]. apply adds_try_except; [|silence].
    apply adds_bind_l; [silence|intros p0].
    apply adds_bind_l; [silence|intros p].
    apply adds_bind_r; [|silence]. apply adds_for_pages, aljazeera_turn_ok.
  - unfold africanreview_scrape, http_guard, africanreview_try.
    apply adds_bind_l; [silence|intros _].
    apply adds_bind_l; [silence|intros base].
    apply adds_try_except; [|silence].
    apply adds_bind_l; [silence|intros soup].
    apply adds_bind_r; [now apply adds_single_pass|]. silence.
  - unfold almonitor_scrape, browser_guard, almonitor_try.
    apply adds_bind_l; [silence|intros _].
    apply adds_bind_l; [silence|intros base].
    apply adds_finally; [|silence]. apply adds_try_except; [|silence].
    apply adds_bind_l; [silence|intros p].
    apply adds_bind_l; [silence|intros _].
    apply adds_bind_r; [|silence]. apply adds_for_pages, almonitor_turn_ok.
  - apply silent_adds. unfold requests_scrape. silence.
  - apply silent_adds. unfold playwright_scrape. silence.
Qed.


(* ------------------------------------------------------------------ *)
(** ** The run *)

Lemma dict_get_set k v d : dict_get k (dict_set k v d) = Some v.
Proof.
  unfold dict_get. induction d as [|[k' v'] d IH]; cbn.
  - now rewrite String.eqb_refl.
  - destruct (String.eqb k k') eqn:E; cbn; rewrite ?String.eqb_refl, ?E; auto.
Qed.

Lemma dict_get_set_other k k' v d :
  k' <> k -> dict_get k' (dict_set k v d) = dict_get k' d.
Proof.
  intros Hne. unfold dict_get. induction d as [|[k0 v0] d IH]; cbn.
  - destruct (String.eqb k' k) eqn:E; [apply String.eqb_eq in E; contradiction|reflexivity].
  - destruct (String.eqb k k0) eqn:E; cbn.
    + apply String.eqb_eq in E. subst k0.
      destruct (String.eqb k' k) eqn:E'; [apply String.eqb_eq in E'; contradiction|reflexivity].
    + now rewrite IH.
Qed.

Lemma collect_fold {A B} (g : A -> B) (rs : list A) (init : list B) :
  fold_left (fun all r => (all ++ [g r])%list) rs init = (init ++ map g rs)%list.
Proof.
  revert init. induction rs as [|r rs IH]; intros init; cbn.
  - now rewrite app_nil_r.
  - now rewrite IH, <- app_assoc.
Qed.

Lemma acc_app_empty_r a : acc_app a empty_acc = a.
Proof. destruct a. unfold acc_app. cbn. now rewrite !app_nil_r. Qed.

Lemma acc_app_assoc a b c : acc_app (acc_app a b) c = acc_app a (acc_app b c).
Proof. unfold acc_app. cbn. now rewrite !app_assoc. Qed.

(** The body of the loop only adds to the loop state, and what it adds does
    not depend on the state it finds. *)
Lemma process_url_acc (web : Web) q n a url :
  process_url web q n a url = acc_app a (process_url web q n empty_acc url).
Proof.
  unfold process_url.
  destruct (get_scraper_for_url web url output_dir_name) as [e|sc].
  - unfold add_log, acc_app, empty_acc. cbn [all_results log calls].
    rewrite ?app_nil_r, <- ?app_assoc. reflexivity.
  - destruct (invoke web sc q n) as [st [e|[|r rs]]];
      unfold collect, add_call, add_log, acc_app, empty_acc;
      cbn [all_results log calls];
      rewrite ?collect_fold, ?app_nil_r, <- ?app_assoc; reflexivity.
Qed.

Lemma fold_process_acc (web : Web) q n urls a :
  fold_left (process_url web q n) urls a =
  acc_app a (fold_left (process_url web q n) urls empty_acc).
Proof.
  revert a. induction urls as [|u urls IH]; intros a; cbn [fold_left].
  - now rewrite acc_app_empty_r.
  - rewrite IH, (IH (process_url web q n empty_acc u)), process_url_acc.
    apply acc_app_assoc.
Qed.

Lemma process_url_results (web : Web) q n url :
  all_results (process_url web q n empty_acc url) = contribution web q n url.
Proof.
  unfold process_url, contribution.
  destruct (get_scraper_for_url web url output_dir_name) as [e|sc]; [reflexivity|].
  destruct (invoke web sc q n) as [st [e|[|r rs]]]; cbn [snd]; try reflexivity.
  unfold collect. cbn [all_results]. now rewrite collect_fold.
Qed.

Lemma fold_process_results (web : Web) q n urls :
  all_results (fold_left (process_url web q n) urls empty_acc) =
  flat_map (contribution web q n) urls.
Proof.
  induction urls as [|u urls IH]; [reflexivity|].
  cbn [fold_left flat_map]. rewrite fold_process_acc. cbn [acc_app all_results].
  now rewrite IH, process_url_results.
Qed.

Lemma process_url_logs_url (web : Web) q n url :
  exists more, log (process_url web q n empty_acc url) = LogProcessing url :: more.
Proof.
  unfold process_url.
  destruct (get_scraper_for_url web url output_dir_name) as [e|sc]; [now eexists|].
  destruct (invoke web sc q n) as [st [e|[|r rs]]]; now eexists.
Qed.

Lemma fold_process_log (web : Web) q n urls u x :
  In u urls ->
  In x (log (process_url web q n empty_acc u)) ->
  In x (log (fold_left (process_url web q n) urls empty_acc)).
Proof.
  induction urls as [|v urls IH]; intros Hin Hx; [destruct Hin|].
  cbn [fold_left]. rewrite fold_process_acc. cbn [acc_app log].
  apply in_or_app. destruct Hin as [->|Hin].
  - now left.
  - right. now apply IH.
Qed.

Lemma process_url_calls (web : Web) q n url :
  makedirs web output_dir_name = inr tt ->
  map fst (calls (process_url web q n empty_acc url)) = [url].
Proof.
  intros Hm. unfold process_url.
  destruct (resolution_returns web url output_dir_name Hm) as (s & ->).
  destruct (invoke web s q n) as [st [e|[|r rs]]]; reflexivity.
Qed.

Lemma fold_process_calls (web : Web) q n urls :
  makedirs web output_dir_name = inr tt ->
  map fst (calls (fold_left (process_url web q n) urls empty_acc)) = urls.
Proof.
  intros Hm. induction urls as [|u urls IH]; [reflexivity|].
  cbn [fold_left]. rewrite fold_process_acc. cbn [acc_app calls].
  now rewrite map_app, process_url_calls, IH.
Qed.

(** Without the output directory no URL contributes a record. *)
Lemma contribution_no_directory (web : Web) q n e urls :
  makedirs web output_dir_name = inl e ->
  flat_map (contribution web q n) urls = [].
Proof.
  intros Hm. induction urls as [|u urls IH]; [reflexivity|].
  cbn [flat_map]. rewrite IH, app_nil_r. unfold contribution.
  now rewrite (resolution_failed web u output_dir_name e Hm).
Qed.

(** What a run over [urls] leaves. *)
Lemma run_on_spec (web : Web) urls q n :
  let all := flat_map (contribution web q n) urls in
  let r := run_on web urls q n in
  run_articles r = all /\
  (makedirs web output_dir_name = inr tt ->
   map fst (run_calls r) = urls /\
   (forall u x, In u urls -> In x (log (process_url web q n empty_acc u)) ->
                In x (run_log r)) /\
   (urls <> [] -> In (LogTotal (length all)) (run_log r)) /\
   run_error r = None) /\
  (forall o, run_output r = Some o ->
             total_results o = length all /\ articles o = all /\
             out_query o = q /\ out_max_pages o = n) /\
  (all <> [] -> exists o, run_output r = Some o).
Proof.
  cbv zeta. unfold run_on, main. cbn [in_urls in_query in_maxPages].
  destruct urls as [|u urls].
  - cbn. repeat split; try tauto; try discriminate.
  - destruct (makedirs web output_dir_name) as [e|[]] eqn:Hm.
    { rewrite (contribution_no_directory web q n e (u :: urls) Hm).
      cbn [run_articles run_output].
      split; [reflexivity|]. split; [discriminate|]. split; [discriminate|].
      intros H. now elim H. }
    change {| all_results := []; log := [LogStart]; calls := [] |}
      with (acc_app {| all_results := []; log := [LogStart]; calls := [] |} empty_acc).
    set (l := u :: urls).
    rewrite fold_process_acc, acc_app_empty_r.
    pose proof (fold_process_results web q n l) as HR.
    pose proof (fold_process_calls web q n l Hm) as HC.
    pose proof (fold_process_log web q n l) as HL.
    set (f := fold_left (process_url web q n) l empty_acc) in *.
    unfold add_log, acc_app. cbn [all_results log calls app].
    rewrite HR.
    destruct (flat_map (contribution web q n) l) as [|x xs] eqn:E;
      cbn [run_articles run_calls run_log run_output].
    + split; [reflexivity|]. split; [|split; [discriminate|intros H; now elim H]].
      intros _. split; [exact HC|]. split; [|split; [|reflexivity]].
      * intros v x Hv Hx. right. apply in_or_app. left. now apply (HL v).
      * intros _. right. apply in_or_app. right. now left.
    + split; [reflexivity|]. split; [|split].
      * intros _. split; [exact HC|]. split; [|split; [|reflexivity]].
        -- intros v y Hv Hy. right. apply in_or_app. left. apply in_or_app. left.
           now apply (HL v).
        -- intros _. right. apply in_or_app. left. apply in_or_app. right. now left.
      * intros o Ho. injection Ho as <-. repeat split.
      * intros _. now eexists.
Qed.

Lemma contribution_returned (web : Web) q n url sc st r :
  get_scraper_for_url web url output_dir_name = inr sc ->
  invoke web sc q n = (st, inr r) ->
  contribution web q n url = map (tag url) r.
Proof.
  intros Hg Hi. unfold contribution. now rewrite Hg, Hi.
Qed.

Lemma contribution_failed (web : Web) q n url :
  page_error web q n url -> contribution web q n url = [].
Proof.
  intros (sc & Hg & [(st & e & Hi)|(body & s' & e & Hb & He)]);
    unfold contribution; rewrite Hg.
  - now rewrite Hi.
  - destruct (guard_caught (cls sc) body _ _ _ He) as (st & Hgd & _).
    now rewrite (invoke_site _ _ _ _ _ Hb), Hgd.
Qed.

(** C3. For a run over the target URLs [u1; u2] whose scrapes return the
    record lists [r1] and [r2], the aggregated articles are the records of
    [u1] followed by those of [u2], each list in its own order and every
    record tagged with its source URL (its other fields untouched); the
    total that is logged, and written whenever an output document is, is
    [length r1 + length r2]. *)
Theorem aggregation_in_url_order
  (web : Web) (q : string) (n : Z) (u1 u2 : string)
  (sc1 sc2 : Scraper) (st1 st2 : St) (r1 r2 : list Article) :
  get_scraper_for_url web u1 output_dir_name = inr sc1 ->
  invoke web sc1 q n = (st1, inr r1) ->
  get_scraper_for_url web u2 output_dir_name = inr sc2 ->
  invoke web sc2 q n = (st2, inr r2) ->
  let run := run_on web [u1; u2] q n in
  run_articles run = (map (tag u1) r1 ++ map (tag u2) r2)%list /\
  (forall u a, dict_get "source_url" (tag u a) = Some (VStr u)) /\
  (forall u a k, k <> "source_url" -> dict_get k (tag u a) = dict_get k a) /\
  In (LogTotal (length r1 + length r2)) (run_log run) /\
  (forall o, run_output run = Some o ->
             total_results o = length r1 + length r2 /\
             articles o = (map (tag u1) r1 ++ map (tag u2) r2)%list) /\
  (0 < length r1 + length r2 -> exists o, run_output run = Some o).
Proof.
  intros G1 I1 G2 I2 run.
  destruct (run_on_spec web [u1; u2] q n) as (HA & HM & HO & HS).
  destruct (HM (resolution_made_directory web u1 _ _ G1)) as (_ & _ & HT & _).
  fold run in HA, HT, HO, HS.
  cbn [flat_map] in *.
  rewrite (contribution_returned web q n u1 _ _ _ G1 I1),
          (contribution_returned web q n u2 _ _ _ G2 I2), app_nil_r in *.
  assert (HL : length (map (tag u1) r1 ++ map (tag u2) r2) = length r1 + length r2)
    by now rewrite length_app, !length_map.
  rewrite HL in HT.
  split; [exact HA|]. split; [intros; apply dict_get_set|].
  split; [intros u a k Hk; now apply dict_get_set_other|].
  split; [apply HT; discriminate|]. split.
  - intros o Ho. destruct (HO o Ho) as (H1 & H2 & _). split; congruence.
  - intros Hpos. apply HS. intros Hnil. rewrite Hnil in HL. cbn in HL. lia.
Qed.

(** C5. When processing [u1] meets an error (its adapter raises, or a
    page-level error is caught inside it), a run over [u1; u2] still makes
    the [scrape] call for [u2] and its aggregate is exactly what [u2] yields
    alone, in either order of the two URLs.  In general what a run collects
    is the concatenation of what each URL yields on its own. *)
Theorem url_isolation (web : Web) (q : string) (n : Z) (u1 u2 : string) :
  page_error web q n u1 ->
  run_articles (run_on web [u1; u2] q n) = run_articles (run_on web [u2] q n) /\
  run_articles (run_on web [u2; u1] q n) = run_articles (run_on web [u2] q n) /\
  run_articles (run_on web [u2] q n) = contribution web q n u2 /\
  map fst (run_calls (run_on web [u1; u2] q n)) = [u1; u2] /\
  In (LogProcessing u2) (run_log (run_on web [u1; u2] q n)) /\
  (forall urls1 urls2,
      run_articles (run_on web (urls1 ++ urls2) q n) =
      (run_articles (run_on web urls1 q n) ++ run_articles (run_on web urls2 q n))%list).
Proof.
  intros Herr.
  assert (Hm : makedirs web output_dir_name = inr tt).
  { destruct Herr as (sc & Hg & _). exact (resolution_made_directory web u1 _ _ Hg). }
  apply contribution_failed in Herr.
  destruct (run_on_spec web [u1; u2] q n) as (H12 & HM & _).
  destruct (HM Hm) as (C12 & L12 & _).
  destruct (run_on_spec web [u2; u1] q n) as (H21 & _).
  destruct (run_on_spec web [u2] q n) as (H2 & _).
  rewrite H12, H21, H2. cbn [flat_map]. rewrite Herr, !app_nil_r. cbn [app].
  repeat split; auto.
  - apply (L12 u2); [cbn; tauto|].
    destruct (process_url_logs_url web q n u2) as [more ->]. now left.
  - intros urls1 urls2.
    destruct (run_on_spec web (urls1 ++ urls2) q n) as (-> & _).
    destruct (run_on_spec web urls1 q n) as (-> & _).
    destruct (run_on_spec web urls2 q n) as (-> & _).
    apply flat_map_app.
Qed.

(** C8. A run whose input has an empty [urls] list (or none) makes no
    [scrape] call, collects no article and writes no output document; it
    logs that no URLs were provided and ends normally. *)
Theorem no_urls_no_work (web : Web) (q : option string) (n : option Z) :
  let run := main web {| in_urls := Some (UrlList []); in_query := q; in_maxPages := n |} in
  run_calls run = [] /\
  run_articles run = [] /\
  run_output run = None /\
  run_log run = [LogStart; LogNoUrls] /\
  run_error run = None /\
  main web {| in_urls := None; in_query := q; in_maxPages := n |} = run.
Proof.
  cbv zeta. unfold main. cbn. repeat split.
Qed.

Lemma process_url_raise_logged (web : Web) q n url sc st e :
  get_scraper_for_url web url output_dir_name = inr sc ->
  invoke web sc q n = (st, inl e) ->
  In (LogErrorProcessing url e) (log (process_url web q n empty_acc url)).
Proof.
  intros Hg Hi. unfold process_url. rewrite Hg, Hi. cbn. tauto.
Qed.

(** C9. A target URL whose domain contains no [SCRAPER_MAP] key resolves to
    a base adapter (behind [get_scraper_for_url] always the browser one,
    built as soon as the output directory of the run is there), and the
    [scrape] of a base adapter always raises [NotImplementedError] without
    touching [results].  Such a URL adds no record to the run: the exception
    is caught and logged at the per-URL boundary and every URL of the run
    still gets its [scrape] call. *)
Theorem unregistered_url_contributes_nothing (url d : string) :
  domain_of url = inr d ->
  (forall k c, In (k, c) SCRAPER_MAP -> PyStr.contains k d = false) ->
  exists sc msg,
    (forall web, makedirs web output_dir_name = inr tt ->
                 get_scraper_for_url web url output_dir_name = inr sc) /\
    (forall web sc', get_scraper_for_url web url output_dir_name = inr sc' -> sc' = sc) /\
    cls sc = PlaywrightScraper /\
    (forall web i q n,
        cls i = RequestsScraper \/ cls i = PlaywrightScraper ->
        exists st,
          invoke web i q n = (st, inl (NotImplementedError msg)) /\
          results (self st) = results i) /\
    (forall web q n before after,
        let run := run_on web (before ++ url :: after) q n in
        contribution web q n url = [] /\
        run_articles run = run_articles (run_on web (before ++ after) q n) /\
        (makedirs web output_dir_name = inr tt ->
         In (LogErrorProcessing url (NotImplementedError msg)) (run_log run) /\
         map fst (run_calls run) = (before ++ url :: after)%list)).
Proof.
  intros Hd Hnone.
  assert (Hg : forall web,
             get_scraper_for_url web url output_dir_name =
             construct web PlaywrightScraper url output_dir_name).
  { intros web. unfold get_scraper_for_url, create_scraper. rewrite Hd.
    rewrite (proj2 (lookup_scraper_none d SCRAPER_MAP) Hnone).
    now rewrite (factory_class_unregistered d Hnone). }
  exists (new_scraper PlaywrightScraper url output_dir_name),
         "Site-specific implementation required".
  split; [intros web Hm; rewrite Hg; now apply construct_ok|].
  split; [intros web sc' H; rewrite Hg in H; now apply construct_inr in H|].
  split; [reflexivity|]. split.
  - intros web i q n Hc. exists (entered i). split; [|reflexivity].
    apply invoke_base_raises. destruct Hc as [-> | ->]; reflexivity.
  - intros web q n before after run.
    assert (Hi : invoke web (new_scraper PlaywrightScraper url output_dir_name) q n =
                 (entered (new_scraper PlaywrightScraper url output_dir_name),
                  inl (NotImplementedError "Site-specific implementation required")))
      by reflexivity.
    assert (Hc : contribution web q n url = []).
    { unfold contribution. rewrite Hg. unfold construct.
      destruct (makedirs web output_dir_name) as [e|[]]; [reflexivity|].
      now rewrite Hi. }
    destruct (run_on_spec web (before ++ url :: after) q n) as (HA & HM & _).
    destruct (run_on_spec web (before ++ after) q n) as (HA' & _).
    fold run in HA, HM.
    split; [exact Hc|]. split.
    + rewrite HA, HA', !flat_map_app. cbn [flat_map]. now rewrite Hc.
    + intros Hm. destruct (HM Hm) as (HC & HL & _). split; [|exact HC].
      apply (HL url); [apply in_or_app; right; now left|].
      apply (process_url_raise_logged web q n url
               (new_scraper PlaywrightScraper url output_dir_name)
               (entered (new_scraper PlaywrightScraper url output_dir_name)));
        [rewrite Hg; now apply construct_ok | exact Hi].
Qed.

(* ------------------------------------------------------------------ *)
(** ** The properties at work on the sample web *)

Lemma aggregation_in_url_order_witness :
  exists r1 r2,
    length r1 = 2 /\ length r2 = 1 /\
    run_articles (run_on Sample.web [Sample.almonitor_url; Sample.africanreview_url]
                         "iraq oil" 1) =
    (map (tag Sample.almonitor_url) r1 ++ map (tag Sample.africanreview_url) r2)%list.
Proof.
  pose (sc1 := new_scraper AlMonitorScraper Sample.almonitor_url output_dir_name).
  pose (sc2 := new_scraper AfricanReviewScraper Sample.africanreview_url output_dir_name).
  pose (i1 := invoke Sample.web sc1 "iraq oil" 1).
  pose (i2 := invoke Sample.web sc2 "iraq oil" 1).
  exists (results (self (fst i1))), (results (self (fst i2))).
  split; [reflexivity|]. split; [reflexivity|].
  destruct (@aggregation_in_url_order Sample.web "iraq oil" 1
              Sample.almonitor_url Sample.africanreview_url
              sc1 sc2 (fst i1) (fst i2)
              (results (self (fst i1))) (results (self (fst i2))))
    as [H _];
    [vm_compute; reflexivity | vm_compute; reflexivity
    |vm_compute; reflexivity | vm_compute; reflexivity | exact H].
Defined.


Lemma url_isolation_witness :
  run_articles (run_on Sample.web [Sample.adnoc_url; Sample.almonitor_url] "iraq oil" 1) =
  run_articles (run_on Sample.web [Sample.almonitor_url] "iraq oil" 1).
Proof.
  destruct (@url_isolation Sample.web "iraq oil" 1%Z
              Sample.adnoc_url Sample.almonitor_url) as [H _].
  - exists (new_scraper AdnocScraper Sample.adnoc_url output_dir_name).
    split; [reflexivity|]. right.
    exists (adnoc_try Sample.web (adnoc_url Sample.adnoc_url "iraq oil") "iraq oil" 1),
           (entered (new_scraper AdnocScraper Sample.adnoc_url output_dir_name)),
           (NavigationError "https://www.adnoc.ae/search?query=iraq+oil").
    split; reflexivity.
  - exact H.
Defined.

Lemma unregistered_url_contributes_nothing_witness :
  run_articles (run_on Sample.web
                  [Sample.almonitor_url; Sample.unknown_url; Sample.africanreview_url]
                  "iraq oil" 1) =
  run_articles (run_on Sample.web [Sample.almonitor_url; Sample.africanreview_url]
                  "iraq oil" 1).
Proof.
  destruct (@unregistered_url_contributes_nothing Sample.unknown_url "example.com")
    as (sc & msg & _ & _ & _ & _ & H).
  - reflexivity.
  - intros k c Hin. simpl in Hin.
    repeat (destruct Hin as [Hin|Hin]; [injection Hin as <- <-; reflexivity|]).
    destruct Hin.
  - exact (proj1 (proj2 (H Sample.web "iraq oil" 1%Z
                           [Sample.almonitor_url] [Sample.africanreview_url]))).
Defined.

(* ================================================================== *)
(** * Further properties of the code *)

(** ** Strings *)

Lemma prefix_empty s : String.prefix "" s = true.
Proof. now destruct s. Qed.

Lemma contains_char_cons c d s :
  PyStr.contains (String c "") (String d s) =
  Ascii.eqb c d || PyStr.contains (String c "") s.
Proof.
  cbn [PyStr.contains String.prefix].
  destruct (ascii_dec c d) as [->|Hne].
  - now rewrite prefix_empty, Ascii.eqb_refl.
  - apply Ascii.eqb_neq in Hne. now rewrite Hne.
Qed.

Lemma contains_char_nil c : PyStr.contains (String c "") "" = false.
Proof. reflexivity. Qed.

Lemma contains_char_app c a b :
  PyStr.contains (String c "") (a ++ b) =
  PyStr.contains (String c "") a || PyStr.contains (String c "") b.
Proof.
  induction a as [|d a IH].
  - reflexivity.
  - change (String d a ++ b) with (String d (a ++ b)).
    now rewrite !contains_char_cons, IH, orb_assoc.
Qed.

Lemma string_app_assoc (a b c : string) : (a ++ b) ++ c = a ++ (b ++ c).
Proof.
  induction a as [|x a IH]; [reflexivity|]. cbn. now rewrite IH.
Qed.

Lemma string_app_nil_r (a : string) : a ++ "" = a.
Proof.
  induction a as [|x a IH]; [reflexivity|]. cbn. now rewrite IH.
Qed.

(** A character that does not open the separator extends the current piece
    (for a separator that starts with [c0]). *)
Lemma split_from_skip_piece c0 sep acc a s :
  PyStr.contains (String c0 "") a = false ->
  PyStr.split_from (String c0 sep) 0 acc (a ++ s) =
  PyStr.split_from (String c0 sep) 0 (acc ++ a) s.
Proof.
  revert acc. induction a as [|d a IH]; intros acc Ha.
  - now rewrite string_app_nil_r.
  - rewrite contains_char_cons in Ha. apply orb_false_iff in Ha. destruct Ha as [Hd Ha].
    change (String d a ++ s) with (String d (a ++ s)).
    cbn [PyStr.split_from String.prefix].
    destruct (ascii_dec c0 d) as [->|Hne]; [now rewrite Ascii.eqb_refl in Hd|].
    rewrite IH by exact Ha.
    now rewrite string_app_assoc.
Qed.

(** A string without the separator is a single piece. *)
Lemma split_from_no_sep sep acc s :
  sep <> "" ->
  PyStr.contains sep s = false ->
  PyStr.split_from sep 0 acc s = [acc ++ s].
Proof.
  intros Hsep. revert acc. induction s as [|d s IH]; intros acc Hs.
  - now rewrite string_app_nil_r.
  - cbn [PyStr.contains] in Hs. apply orb_false_iff in Hs. destruct Hs as [Hp Hs].
    cbn [PyStr.split_from]. rewrite Hp, IH by exact Hs.
    now rewrite string_app_assoc.
Qed.

(** The first piece of a split on a character never holds that character. *)
Lemma split_from_first_piece c acc s :
  PyStr.contains (String c "") acc = false ->
  exists piece rest,
    PyStr.split_from (String c "") 0 acc s = piece :: rest /\
    PyStr.contains (String c "") piece = false.
Proof.
  revert acc. induction s as [|d s IH]; intros acc Hacc.
  - now exists acc, [].
  - cbn [PyStr.split_from String.prefix].
    destruct (ascii_dec c d) as [->|Hne].
    + rewrite prefix_empty. now eexists _, _.
    + apply IH. rewrite contains_char_app, Hacc, contains_char_cons.
      apply Ascii.eqb_neq in Hne. now rewrite Hne.
Qed.

Lemma lower_char_idem c : PyStr.lower_char (PyStr.lower_char c) = PyStr.lower_char c.
Proof.
  destruct c as [[] [] [] [] [] [] [] []]; reflexivity.
Qed.

Lemma lower_char_slash c :
  Ascii.eqb "/"%char (PyStr.lower_char c) = Ascii.eqb "/"%char c.
Proof.
  destruct c as [[] [] [] [] [] [] [] []]; reflexivity.
Qed.

Lemma lower_idem s : PyStr.lower (PyStr.lower s) = PyStr.lower s.
Proof.
  induction s as [|c s IH]; [reflexivity|]. cbn. now rewrite lower_char_idem, IH.
Qed.

Lemma lower_no_slash s :
  PyStr.contains "/" (PyStr.lower s) = PyStr.contains "/" s.
Proof.
  induction s as [|c s IH]; [reflexivity|].
  cbn [PyStr.lower]. now rewrite !contains_char_cons, lower_char_slash, IH.
Qed.

(** X1. The domain the dispatch works on is in normal form: it holds no
    slash and lower-casing it again changes nothing. *)
Theorem domain_of_normal (url d : string) :
  domain_of url = inr d ->
  PyStr.contains "/" d = false /\ PyStr.lower d = d.
Proof.
  unfold domain_of.
  destruct (index_last (PyStr.split url "//")) as [e|rest]; [discriminate|].
  unfold PyStr.split.
  destruct (split_from_first_piece "/"%char "" rest eq_refl) as (piece & more & -> & Hp).
  cbn [index_first]. intros H. injection H as <-.
  split; [now rewrite lower_no_slash|apply lower_idem].
Qed.

Lemma domain_of_normal_witness :
  PyStr.contains "/" "www.al-monitor.com" = false /\
  PyStr.lower "www.al-monitor.com" = "www.al-monitor.com".
Proof.
  apply (@domain_of_normal "HTTPS://WWW.Al-Monitor.com/search?text=iraq+oil").
  reflexivity.
Defined.

(** X2. For a URL of the usual shape, [pre//host/path] with no slash in [pre]
    and [host] and no double slash after the host, the domain is the host in
    lower case, whatever the path. *)
Theorem domain_of_host (pre host path : string) :
  PyStr.contains "/" pre = false ->
  PyStr.contains "/" host = false ->
  PyStr.contains "//" ("/" ++ path) = false ->
  domain_of (pre ++ "//" ++ host ++ "/" ++ path) = inr (PyStr.lower host) /\
  domain_of (pre ++ "//" ++ host) = inr (PyStr.lower host) /\
  domain_of host = inr (PyStr.lower host).
Proof.
  intros Hpre Hhost Hpath.
  assert (Hrest : PyStr.contains "//" (host ++ "/" ++ path) = false).
  { clear Hpre. induction host as [|c host IH]; [exact Hpath|].
    rewrite contains_char_cons in Hhost. apply orb_false_iff in Hhost.
    destruct Hhost as [Hc Hh].
    change (String c host ++ "/" ++ path) with (String c (host ++ "/" ++ path)).
    cbn [PyStr.contains String.prefix].
    destruct (ascii_dec "/"%char c) as [<-|Hne]; [discriminate Hc|].
    now apply IH. }
  assert (Hhost2 : PyStr.contains "//" host = false).
  { clear Hpre Hrest. induction host as [|c host IH]; [reflexivity|].
    rewrite contains_char_cons in Hhost. apply orb_false_iff in Hhost.
    destruct Hhost as [Hc Hh].
    cbn [PyStr.contains String.prefix].
    destruct (ascii_dec "/"%char c) as [<-|Hne]; [discriminate Hc|].
    now apply IH. }
  assert (H1 : index_first (PyStr.split (host ++ "/" ++ path) "/") = inr host).
  { unfold PyStr.split. rewrite (split_from_skip_piece "/"%char "" "" host _ Hhost).
    cbn [append PyStr.split_from String.prefix].
    destruct (ascii_dec "/"%char "/"%char) as [_|Hne]; [|now elim Hne].
    rewrite ?prefix_empty. reflexivity. }
  assert (H2 : index_first (PyStr.split host "/") = inr host).
  { unfold PyStr.split. rewrite split_from_no_sep by (discriminate || exact Hhost).
    reflexivity. }
  assert (Hsplit : forall rest,
             PyStr.contains "//" rest = false ->
             index_last (PyStr.split (pre ++ "//" ++ rest) "//") = inr rest).
  { intros rest Hr. unfold PyStr.split.
    rewrite (split_from_skip_piece "/"%char "/" "" pre _ Hpre).
    cbn [append PyStr.split_from String.prefix String.length Nat.sub].
    destruct (ascii_dec "/"%char "/"%char) as [_|Hne]; [|now elim Hne].
    rewrite prefix_empty.
    rewrite split_from_no_sep by (discriminate || exact Hr).
    reflexivity. }
  unfold domain_of.
  rewrite (Hsplit _ Hrest), H1, (Hsplit _ Hhost2), H2.
  repeat split.
  unfold PyStr.split. rewrite split_from_no_sep by (discriminate || exact Hhost2).
  cbn [index_last append]. unfold PyStr.split.
  rewrite split_from_no_sep by (discriminate || exact Hhost). reflexivity.
Qed.

Lemma domain_of_host_witness :
  domain_of "https://WWW.Al-Monitor.com/search?text=iraq+oil" = inr "www.al-monitor.com".
Proof.
  exact (proj1 (@domain_of_host "https:" "WWW.Al-Monitor.com" "search?text=iraq+oil"
                  eq_refl eq_refl eq_refl)).
Defined.

(* ------------------------------------------------------------------ *)
(** ** The factory on its own *)

Lemma domain_of_parts (url : string) :
  exists rest host,
    index_last (PyStr.split url "//") = inr rest /\
    index_first (PyStr.split rest "/") = inr host /\
    domain_of url = inr (PyStr.lower host).
Proof.
  destruct (index_last_some (@split_from_nonempty "//" url 0 EmptyString)) as [rest Hr].
  destruct (index_first_some (@split_from_nonempty "/" rest 0 EmptyString)) as [host Hh].
  exists rest, host. split; [exact Hr|]. split; [exact Hh|].
  unfold domain_of, PyStr.split. rewrite Hr. fold (PyStr.split rest "/").
  unfold PyStr.split. now rewrite Hh.
Qed.

(** X3. [ScraperFactory.create_scraper] never fails on account of the URL:
    it raises exactly what [os.makedirs] raises in the constructor, and when
    the output directory exists or can be created it returns a fresh
    instance of a base class, chosen by the domain (the text between the
    last double slash and the next slash, in lower case): the HTTP one
    exactly for a domain on the static list and on neither of the two
    browser lists, the browser one otherwise.  Whatever it builds, [scrape]
    on it raises [NotImplementedError] and collects nothing. *)
Theorem create_scraper_only_base (web : Web) (url out : string) :
  exists rest host d c,
    index_last (PyStr.split url "//") = inr rest /\
    index_first (PyStr.split rest "/") = inr host /\
    d = PyStr.lower host /\
    domain_of url = inr d /\
    (c = RequestsScraper \/ c = PlaywrightScraper) /\
    (c = RequestsScraper <->
     (PyStr.contains "africanreview.com" d || PyStr.contains "ahram.org.eg" d = true /\
      forall k, In k ["adnoc.ae"; "aljazeera.com"; "al-monitor.com"; "alarabiya.net"] ->
                PyStr.contains k d = false)) /\
    (forall e, create_scraper web url out = inl e <-> makedirs web out = inl e) /\
    (forall s, create_scraper web url out = inr s <->
               makedirs web out = inr tt /\ s = new_scraper c url out) /\
    (forall web' q n,
        exists st msg,
          invoke web' (new_scraper c url out) q n = (st, inl (NotImplementedError msg)) /\
          results (self st) = []).
Proof.
  destruct (domain_of_parts url) as (rest & host & Hr & Hh & Hd).
  exists rest, host, (PyStr.lower host), (factory_class (PyStr.lower host)).
  set (d := PyStr.lower host) in *.
  unfold create_scraper. rewrite Hd.
  split; [exact Hr|]. split; [exact Hh|]. split; [reflexivity|]. split; [reflexivity|].
  split; [destruct (factory_class_default d); auto|]. split; [|split; [|split]].
  - unfold factory_class.
    destruct (PyStr.contains "adnoc.ae" d) eqn:E1,
             (PyStr.contains "aljazeera.com" d) eqn:E2,
             (PyStr.contains "al-monitor.com" d) eqn:E3,
             (PyStr.contains "alarabiya.net" d) eqn:E4,
             (PyStr.contains "africanreview.com" d || PyStr.contains "ahram.org.eg" d) eqn:E5;
      cbn [orb]; split;
      try discriminate;
      try (intros [H5 H]; try discriminate H5;
           first [ rewrite (H "adnoc.ae") in E1 by (cbn; tauto); discriminate E1
                 | rewrite (H "aljazeera.com") in E2 by (cbn; tauto); discriminate E2
                 | rewrite (H "al-monitor.com") in E3 by (cbn; tauto); discriminate E3
                 | rewrite (H "alarabiya.net") in E4 by (cbn; tauto); discriminate E4
                 | reflexivity ]).
    intros _. split; [reflexivity|].
    intros k Hk. cbn in Hk.
    repeat (destruct Hk as [<-|Hk]; [assumption|]). destruct Hk.
  - intros e. split; [apply construct_inl | apply construct_failed].
  - intros s. split; [apply construct_inr|].
    intros [Hm ->]. now apply construct_ok.
  - intros web' q n.
    exists (entered (new_scraper (factory_class d) url out)),
           "Site-specific implementation required".
    split; [|reflexivity].
    apply invoke_base_raises. cbn [cls new_scraper].
    now destruct (factory_class_default d) as [-> | ->].
Qed.

(** X4. The lookup table and the factory agree on how a registered site is
    fetched: for a domain that holds one registered key and no other listed
    domain, the site adapter the table gives drives a browser exactly when
    the class the factory would build does. *)
Theorem registry_matches_factory (d k : string) (c : ScraperClass) :
  In (k, c) SCRAPER_MAP ->
  PyStr.contains k d = true ->
  (forall k', In k' factory_allow_list -> k' <> k -> PyStr.contains k' d = false) ->
  lookup_scraper d SCRAPER_MAP = Some (k, c) /\
  is_playwright (factory_class d) = is_playwright c.
Proof.
  intros Hin Hk Hothers. cbn in Hin.
  unfold lookup_scraper, factory_class.
  repeat (destruct Hin as [Hin|Hin];
          [injection Hin as <- <-; cbn [find fst SCRAPER_MAP];
           rewrite ?Hk;
           rewrite ?Hothers by (cbn; intuition discriminate);
           rewrite ?Hk; cbn; rewrite ?orb_true_r; split; reflexivity|]).
  destruct Hin.
Qed.

Lemma registry_matches_factory_witness :
  lookup_scraper "english.ahram.org.eg" SCRAPER_MAP = Some ("ahram.org.eg", AhramScraper) /\
  is_playwright (factory_class "english.ahram.org.eg") = false.
Proof.
  apply (@registry_matches_factory "english.ahram.org.eg" "ahram.org.eg" AhramScraper).
  - cbn. tauto.
  - reflexivity.
  - intros k' Hin Hne. cbn in Hin.
    repeat (destruct Hin as [<-|Hin]; [try reflexivity; now elim Hne|]).
    destruct Hin.
Defined.

(* ------------------------------------------------------------------ *)
(** ** Search URLs *)

Lemma replace_char_removes c r s :
  PyStr.contains (String c "") r = false ->
  PyStr.contains (String c "") (PyStr.replace_char c r s) = false.
Proof.
  intros Hr. induction s as [|d s IH]; [reflexivity|].
  cbn [PyStr.replace_char]. rewrite contains_char_app, IH, orb_false_r.
  destruct (Ascii.eqb c d) eqn:E; [exact Hr|].
  now rewrite contains_char_cons, E.
Qed.

Lemma replace_char_absent c r s :
  PyStr.contains (String c "") s = false -> PyStr.replace_char c r s = s.
Proof.
  induction s as [|d s IH]; [reflexivity|].
  rewrite contains_char_cons. intros H. apply orb_false_iff in H. destruct H as [E H].
  cbn [PyStr.replace_char]. now rewrite E, IH.
Qed.



(* ------------------------------------------------------------------ *)
(** ** More about the run *)

Lemma fold_process_never_saved (web : Web) q n l :
  ~ In LogSaved (log (fold_left (process_url web q n) l empty_acc)).
Proof.
  induction l as [|v l IH]; cbn [fold_left]; [intros []|].
  rewrite fold_process_acc. cbn [acc_app log]. rewrite in_app_iff.
  intros [H|H]; [|now apply IH].
  unfold process_url in H.
  destruct (get_scraper_for_url web v output_dir_name) as [e|sc];
    [cbn in H; intuition discriminate|].
  destruct (invoke web sc q n) as [st [e|[|r rs]]], (is_playwright (cls sc));
    cbn in H; intuition discriminate.
Qed.


Lemma main_calls (web : Web) (input : ActorInput) :
  makedirs web output_dir_name = inr tt ->
  map fst (run_calls (main web input)) =
  match in_urls input with
  | Some (UrlList l) => l
  | Some (UrlString s) => [s]
  | None => []
  end /\
  run_error (main web input) = None.
Proof.
  intros Hm. unfold main.
  destruct (in_urls input) as [[l|s]|]; [destruct l as [|u l]| |];
    try (split; reflexivity); rewrite Hm.
  - change {| all_results := []; log := [LogStart]; calls := [] |}
      with (acc_app {| all_results := []; log := [LogStart]; calls := [] |} empty_acc).
    rewrite fold_process_acc, acc_app_empty_r.
    pose proof (fold_process_calls web
                  match in_query input with Some q => q | None => "iraq oil" end
                  match in_maxPages input with Some n => n | None => 1%Z end
                  (u :: l) Hm) as HC.
    set (f := fold_left _ _ empty_acc) in *.
    unfold add_log. cbn [all_results log calls acc_app app].
    destruct (all_results f); split; solve [exact HC | reflexivity].
  - change {| all_results := []; log := [LogStart]; calls := [] |}
      with (acc_app {| all_results := []; log := [LogStart]; calls := [] |} empty_acc).
    rewrite fold_process_acc, acc_app_empty_r.
    pose proof (fold_process_calls web
                  match in_query input with Some q => q | None => "iraq oil" end
                  match in_maxPages input with Some n => n | None => 1%Z end
                  [s] Hm) as HC.
    set (f := fold_left _ _ empty_acc) in *.
    unfold add_log. cbn [all_results log calls acc_app app].
    destruct (all_results f); split; solve [exact HC | reflexivity].
Qed.

Lemma main_aborted (web : Web) (input : ActorInput) e :
  run_error (main web input) = Some e ->
  makedirs web output_dir_name = inl e /\
  run_calls (main web input) = [] /\
  run_articles (main web input) = [] /\
  run_output (main web input) = None /\
  run_log (main web input) = [LogStart].
Proof.
  unfold main.
  destruct (match match in_urls input with Some u => u | None => UrlList [] end with
            | UrlList l => l | UrlString s => [s] end) as [|u urls];
    [discriminate|].
  destruct (makedirs web output_dir_name) as [e'|[]].
  - cbn. intros H. injection H as <-. repeat split.
  - cbv zeta. unfold add_log. cbn [all_results].
    destruct (all_results _); discriminate.
Qed.


(* ------------------------------------------------------------------ *)
(** ** The shape of the records *)

Lemma rstrip_idem s : PyStr.rstrip (PyStr.rstrip s) = PyStr.rstrip s.
Proof.
  induction s as [|c s IH]; [reflexivity|].
  cbn [PyStr.rstrip].
  destruct (PyStr.rstrip s) as [|d r] eqn:E.
  - destruct (PyStr.is_space c) eqn:Ec; [reflexivity|].
    cbn [PyStr.rstrip]. now rewrite Ec.
  - cbn [PyStr.rstrip]. cbn [PyStr.rstrip] in IH. now rewrite IH.
Qed.

Lemma lstrip_head s :
  PyStr.lstrip s = "" \/
  exists c s', PyStr.lstrip s = String c s' /\ PyStr.is_space c = false.
Proof.
  induction s as [|c s IH]; [now left|].
  cbn [PyStr.lstrip]. destruct (PyStr.is_space c) eqn:E; [exact IH|].
  right. now exists c, s.
Qed.

Lemma rstrip_head c s :
  PyStr.is_space c = false -> exists r, PyStr.rstrip (String c s) = String c r.
Proof.
  intros Hc. cbn [PyStr.rstrip].
  destruct (PyStr.rstrip s); [rewrite Hc|]; now eexists.
Qed.

Lemma strip_idem s : trimmed (PyStr.strip s).
Proof.
  unfold trimmed, PyStr.strip.
  destruct (lstrip_head s) as [->|(c & s' & -> & Hc)]; [reflexivity|].
  destruct (rstrip_head c s' Hc) as [r Hr]. rewrite Hr.
  cbn [PyStr.lstrip]. rewrite Hc, <- Hr. apply rstrip_idem.
Qed.

Lemma text_or_empty_trimmed el : trimmed (text_or_empty el).
Proof.
  destruct el; [apply strip_idem|reflexivity].
Qed.

Lemma prefix_app p a b :
  String.prefix p a = true -> String.prefix p (a ++ b) = true.
Proof.
  revert a. induction p as [|c p IH]; intros a H; [apply prefix_empty|].
  destruct a as [|d a]; [discriminate H|].
  cbn [append String.prefix] in *.
  destruct (ascii_dec c d); [now apply IH|discriminate H].
Qed.

Lemma is_absolute_app p link : is_absolute p = true -> is_absolute (p ++ link) = true.
Proof.
  unfold is_absolute, PyStr.startswith. intros H.
  apply orb_true_iff in H. apply orb_true_iff.
  destruct H as [H|H]; [left|right]; now apply prefix_app.
Qed.

(** Resolving a link leaves an empty link empty and an absolute link as it
    is, and makes every other link absolute. *)
Lemma absolutize_ok p link :
  is_absolute p = true ->
  (absolutize p link = "" \/ is_absolute (absolutize p link) = true) /\
  (link = "" -> absolutize p link = "") /\
  (is_absolute link = true -> absolutize p link = link).
Proof.
  intros Hp. unfold absolutize. fold (is_absolute link).
  destruct (String.eqb link "") eqn:E.
  - apply String.eqb_eq in E. subst link. cbn. auto.
  - destruct (is_absolute link) eqn:Ea; cbn [negb andb].
    + repeat split; auto; try (intros ->; discriminate E).
    + repeat split; try discriminate; try (intros ->; discriminate E).
      right. now apply is_absolute_app.
Qed.

Lemma absolutize_empty_or_absolute p link :
  is_absolute p = true ->
  absolutize p link = "" \/ is_absolute (absolutize p link) = true.
Proof. intros Hp. apply (absolutize_ok p link Hp). Qed.

Lemma aw_ret {A} P (a : A) : appends_with P (ret a).
Proof. intros s. exists []. now rewrite app_nil_r. Qed.

Lemma aw_raise {A} P (e : Exn) : appends_with P (@raise A e).
Proof. intros s. exists []. now rewrite app_nil_r. Qed.

Lemma aw_lift {A} P (r : Res A) : appends_with P (lift r).
Proof. intros s. exists []. now rewrite app_nil_r. Qed.

Lemma aw_emit P ev : appends_with P (emit ev).
Proof. intros s. exists []. cbn. now rewrite app_nil_r. Qed.

Lemma aw_get_results P : appends_with P get_results.
Proof. intros s. exists []. now rewrite app_nil_r. Qed.

Lemma aw_get_base_url P : appends_with P get_base_url.
Proof. intros s. exists []. now rewrite app_nil_r. Qed.

Lemma aw_ensure_started P : appends_with P ensure_started.
Proof. intros s. exists []. cbn. now rewrite app_nil_r. Qed.

Lemma aw_append_result (P : Article -> Prop) a : P a -> appends_with P (append_result a).
Proof. intros H s. exists [a]. split; [reflexivity|]. now constructor. Qed.

Lemma aw_bind {A B} P (m : M A) (f : A -> M B) :
  appends_with P m -> (forall a, appends_with P (f a)) -> appends_with P (bind m f).
Proof.
  intros Hm Hf s. unfold bind. destruct (Hm s) as (e1 & R1 & F1).
  destruct (m s) as [s1 [e|a]]; cbn [fst] in *.
  - now exists e1.
  - destruct (Hf a s1) as (e2 & R2 & F2).
    exists (e1 ++ e2)%list. split; [now rewrite R2, R1, app_assoc|].
    apply Forall_app. auto.
Qed.

Lemma aw_try_except {A} P (m : M A) (h : Exn -> M A) :
  appends_with P m -> (forall e, appends_with P (h e)) -> appends_with P (try_except m h).
Proof.
  intros Hm Hh s. unfold try_except. destruct (Hm s) as (e1 & R1 & F1).
  destruct (m s) as [s1 [e|a]]; cbn [fst] in *.
  - destruct (Hh e s1) as (e2 & R2 & F2).
    exists (e1 ++ e2)%list. split; [now rewrite R2, R1, app_assoc|].
    apply Forall_app. auto.
  - now exists e1.
Qed.

Lemma aw_finally {A} P (m : M A) (c : M unit) :
  appends_with P m -> appends_with P c -> appends_with P (finally m c).
Proof.
  intros Hm Hc s. unfold finally. destruct (Hm s) as (e1 & R1 & F1).
  destruct (m s) as [s1 r]. cbn [fst] in *.
  destruct (Hc s1) as (e2 & R2 & F2).
  destruct (c s1) as [s2 [e|u]]; cbn [fst] in *;
    (exists (e1 ++ e2)%list; split; [now rewrite R2, R1, app_assoc|];
     apply Forall_app; auto).
Qed.

Lemma aw_for_each {A} P (f : A -> M unit) (l : list A) :
  (forall x, appends_with P (f x)) -> appends_with P (for_each f l).
Proof.
  intros Hf. induction l as [|x l IH]; cbn [for_each].
  - apply aw_ret.
  - apply aw_bind; [apply Hf|intros _; exact IH].
Qed.

Lemma aw_for_pages P (body : Z -> Page -> M LoopStep) (rng : list Z) :
  (forall n p, appends_with P (body n p)) ->
  forall p, appends_with P (for_pages body rng p).
Proof.
  intros Hb. induction rng as [|n rng IH]; intros p; cbn [for_pages].
  - apply aw_ret.
  - apply aw_bind; [apply Hb|]. intros [|p']; [apply aw_ret|apply IH].
Qed.

Create HintDb records discriminated.
#[export] Hint Resolve aw_ret aw_raise aw_lift aw_emit aw_get_results
  aw_get_base_url aw_ensure_started : records.

Ltac records :=
  repeat first
    [ progress intros
    | solve [auto with records]
    | progress cbv zeta
    | apply aw_bind
    | apply aw_try_except
    | apply aw_finally
    | apply aw_for_each
    | apply aw_for_pages
    | match goal with
      | |- appends_with _ (match ?x with _ => _ end) => destruct x
      | |- appends_with _ (if ?b then _ else _) => destruct b
      end ].

Lemma aw_wait_for_selector P p sel : appends_with P (wait_for_selector p sel).
Proof. unfold wait_for_selector. records. Qed.

Lemma aw_advance P sel n k p : appends_with P (advance sel n k p).
Proof. unfold advance, random_delay. records. Qed.

Lemma aw_on_error P e : appends_with P (on_error e).
Proof. unfold on_error. records. Qed.

Lemma aw_close P : appends_with P close.
Proof.
  intros s. exists []. unfold close.
  destruct (started (self s)); cbn; now rewrite app_nil_r.
Qed.

Lemma aw_page_goto P (web : Web) url : appends_with P (page_goto web url).
Proof.
  intros s. exists []. unfold page_goto.
  destruct (closed (self s)); cbn; now rewrite app_nil_r.
Qed.

Lemma aw_submit_search P p : appends_with P (submit_search p).
Proof. unfold submit_search. records. Qed.

#[export] Hint Resolve aw_wait_for_selector aw_advance aw_on_error aw_close
  aw_page_goto aw_submit_search : records.

(** Looks the fields of a record literal up and settles what remains. *)
Ltac record_fields :=
  unfold record_ok, fields_ok, url_ok;
  cbn [dict_get assoc String.eqb Ascii.eqb Bool.eqb];
  repeat split;
  try (eexists; split; [reflexivity|]);
  auto using strip_idem, text_or_empty_trimmed;
  try discriminate;
  try (unfold trimmed; reflexivity).

Lemma aw_adnoc_item q e : appends_with (record_ok AdnocScraper q) (adnoc_item q e).
Proof.
  unfold adnoc_item.
  destruct (query_selector e ".title"), (query_selector e "a"); try apply aw_ret.
  apply aw_append_result. record_fields.
  destruct (get_attribute e1 "href"); cbn [of_attr]; eauto.
Qed.

Lemma aw_ahram_item q e : appends_with (record_ok AhramScraper q) (ahram_item q e).
Proof.
  unfold ahram_item. apply aw_try_except; [|records].
  cbv zeta. destruct (query_selector e "div h5 a"); [|apply aw_ret].
  apply aw_append_result. record_fields.
  apply absolutize_empty_or_absolute; reflexivity.
Qed.

Lemma aw_almonitor_item q e :
  appends_with (record_ok AlMonitorScraper q) (almonitor_item q e).
Proof.
  unfold almonitor_item. apply aw_try_except; [|records].
  cbv zeta. destruct (query_selector e "h2 a, h3 a"); [|apply aw_ret].
  apply aw_append_result. record_fields.
  - destruct (String.eqb _ ""); discriminate.
  - destruct (get_attribute e0 "href"); cbn [option_map of_attr]; [right|now left].
    eexists. split; [reflexivity|]. apply absolutize_empty_or_absolute; reflexivity.
Qed.

Lemma aw_aljazeera_item q e :
  appends_with (record_ok AlJazeeraScraper q) (aljazeera_item q e).
Proof.
  unfold aljazeera_item.
  cbv zeta. destruct (query_selector e "h3 a, h2 a"); [|apply aw_ret].
  apply aw_append_result. record_fields.
  destruct (get_attribute e0 "href"); cbn [option_map of_attr]; [right|now left].
  eexists. split; [reflexivity|]. apply absolutize_ok. reflexivity.
Qed.

Lemma aw_africanreview_item q e :
  appends_with (record_ok AfricanReviewScraper q) (africanreview_item q e).
Proof.
  unfold africanreview_item. apply aw_try_except; [|records].
  cbv zeta. destruct (query_selector e "h3 a, h2 a, .title a"); [|apply aw_ret].
  apply aw_append_result. record_fields.
  apply absolutize_empty_or_absolute; reflexivity.
Qed.

Lemma aw_africanreview_heading q e :
  appends_with (record_ok AfricanReviewScraper q) (africanreview_heading q e).
Proof.
  unfold africanreview_heading. cbv zeta.
  apply aw_append_result. record_fields.
  apply absolutize_empty_or_absolute; reflexivity.
Qed.

(** Every record a call appends has the fields of its class. *)
Lemma aw_scrape (web : Web) c q n : appends_with (record_ok c q) (scrape web c q n).
Proof.
  destruct c; cbn [scrape];
    unfold adnoc_scrape, ahram_scrape, aljazeera_scrape, africanreview_scrape,
      almonitor_scrape, requests_scrape, playwright_scrape,
      browser_guard, http_guard,
      adnoc_try, ahram_try, aljazeera_try, africanreview_try, almonitor_try,
      adnoc_turn, aljazeera_turn, almonitor_turn, adnoc_extract, ahram_extract;
    repeat first
      [ progress intros
      | solve [auto using aw_adnoc_item, aw_ahram_item, aw_almonitor_item,
                 aw_aljazeera_item, aw_africanreview_item, aw_africanreview_heading
                 with records]
      | progress cbv zeta
      | apply aw_bind
      | apply aw_try_except
      | apply aw_finally
      | apply aw_for_each
      | apply aw_for_pages
      | match goal with
        | |- appends_with _ (match ?x with _ => _ end) => destruct x
        end ].
Qed.

Lemma ro_bind {A} (m : M A) (f : A -> M (list Article)) :
  (forall a, returns_own (f a)) -> returns_own (bind m f).
Proof.
  intros Hf s s' l. unfold bind.
  destruct (m s) as [s1 [e|a]]; [discriminate|apply Hf].
Qed.

Lemma ro_get_results : returns_own get_results.
Proof. intros s s' l H. injection H as <- <-. now right. Qed.

Lemma ro_ret_nil : returns_own (ret []).
Proof. intros s s' l H. injection H as <- <-. now left. Qed.

Lemma ro_raise e : returns_own (raise e).
Proof. intros s s' l H. discriminate H. Qed.

Lemma ro_try_except (m : M (list Article)) h :
  returns_own m -> (forall e, returns_own (h e)) -> returns_own (try_except m h).
Proof.
  intros Hm Hh s s' l. unfold try_except.
  destruct (m s) as [s1 [e|a]] eqn:E; [apply Hh|].
  intros H. injection H as <- <-. exact (Hm _ _ _ E).
Qed.

Lemma ro_finally_close (m : M (list Article)) :
  returns_own m -> returns_own (finally m close).
Proof.
  intros Hm s s' l. unfold finally, close.
  destruct (m s) as [s1 r] eqn:E.
  destruct (started (self s1)); intros H; injection H as H1 H2; subst s' r;
    exact (Hm _ _ _ E).
Qed.

Lemma ro_scrape (web : Web) c q n : returns_own (scrape web c q n).
Proof.
  destruct c; cbn [scrape];
    unfold adnoc_scrape, ahram_scrape, aljazeera_scrape, africanreview_scrape,
      almonitor_scrape, requests_scrape, playwright_scrape,
      browser_guard, http_guard, on_error,
      adnoc_try, ahram_try, aljazeera_try, africanreview_try, almonitor_try;
    repeat first
      [ progress intros
      | apply ro_get_results
      | apply ro_ret_nil
      | apply ro_raise
      | apply ro_finally_close
      | apply ro_try_except
      | apply ro_bind
      | match goal with
        | |- returns_own (match ?x with _ => _ end) => destruct x
        end ].
Qed.

Lemma resolution_fresh (web : Web) (url out : string) s :
  get_scraper_for_url web url out = inr s -> s = new_scraper (cls s) url out.
Proof.
  destruct (resolution_spec web url out) as (d & _ & ->).
  intros H. apply construct_inr in H. now destruct H as [_ ->].
Qed.

(** What a call on a fresh instance returns has the fields of its class. *)
Lemma invoke_fresh_records (web : Web) c url out q n st l :
  invoke web (new_scraper c url out) q n = (st, inr l) ->
  Forall (record_ok c q) l.
Proof.
  intros Hi. unfold invoke in Hi. cbn [cls new_scraper] in Hi.
  destruct (ro_scrape web c q n _ _ _ Hi) as [-> | ->]; [constructor|].
  destruct (aw_scrape web c q n
              {| self := new_scraper c url out; trace := [] |}) as (ext & R & F).
  rewrite Hi in R. cbn [fst self results new_scraper app] in R. now rewrite R.
Qed.

Lemma tag_fields c q u a :
  record_ok c q a -> fields_ok c q (tag u a) /\ dict_get "source_url" (tag u a) = Some (VStr u).
Proof.
  intros [(Hq & Ht & Hd & Hs & Hu) _]. unfold tag.
  split; [|apply dict_get_set].
  unfold fields_ok. rewrite !dict_get_set_other by discriminate. auto.
Qed.

(** X8. Every article of a run comes from the site adapter of one of the
    input URLs and is tagged with that URL; it carries the run's query, a
    title and a date without white space at either end, a non-empty source
    label, and a url of the kind its adapter produces (for Ahram and African
    Review empty or absolute, for Al-Monitor and Al Jazeera also possibly
    null, for ADNOC the raw [href] or null). *)
Theorem run_articles_well_formed (web : Web) (urls : list string) (q : string) (n : Z) :
  Forall (article_ok web urls q) (run_articles (run_on web urls q n)).
Proof.
  destruct (run_on_spec web urls q n) as (-> & _).
  apply Forall_flat_map. apply Forall_forall. intros u Hu.
  unfold contribution.
  destruct (get_scraper_for_url web u output_dir_name) as [e|sc] eqn:G; [constructor|].
  destruct (invoke web sc q n) as [st [e|l]] eqn:I; cbn [snd]; [constructor|].
  pose proof (resolution_fresh _ _ _ _ G) as Hsc.
  assert (Hsite : is_site_adapter (cls sc) = true).
  { destruct (is_site_adapter_cases (cls sc)) as [H|H]; [exact H|].
    rewrite (invoke_base_raises _ _ _ _ H) in I. discriminate I. }
  rewrite Hsc in I. apply invoke_fresh_records in I.
  apply Forall_map. revert I. apply Forall_impl. intros a Ha.
  destruct (tag_fields _ _ u _ Ha) as [Hf Hs].
  exists u, sc. auto.
Qed.

(* ------------------------------------------------------------------ *)
(** ** What a call does to the browser *)

Lemma em_same {A} Q (m : M A) : (forall s, trace (fst (m s)) = trace s) -> emits Q m.
Proof. intros H s. exists []. now rewrite app_nil_r. Qed.

Lemma em_ret {A} Q (a : A) : emits Q (ret a).
Proof. now apply em_same. Qed.

Lemma em_raise {A} Q (e : Exn) : emits Q (@raise A e).
Proof. now apply em_same. Qed.

Lemma em_lift {A} Q (r : Res A) : emits Q (lift r).
Proof. now apply em_same. Qed.

Lemma em_get_results Q : emits Q get_results.
Proof. now apply em_same. Qed.

Lemma em_get_base_url Q : emits Q get_base_url.
Proof. now apply em_same. Qed.

Lemma em_ensure_started Q : emits Q ensure_started.
Proof. now apply em_same. Qed.

Lemma em_append_result Q a : emits Q (append_result a).
Proof. now apply em_same. Qed.

Lemma em_emit (Q : Event -> Prop) ev : Q ev -> emits Q (emit ev).
Proof. intros H s. exists [ev]. split; [reflexivity|]. now constructor. Qed.

Lemma em_bind {A B} Q (m : M A) (f : A -> M B) :
  emits Q m -> (forall a, emits Q (f a)) -> emits Q (bind m f).
Proof.
  intros Hm Hf s. unfold bind. destruct (Hm s) as (e1 & R1 & F1).
  destruct (m s) as [s1 [e|a]]; cbn [fst] in *.
  - now exists e1.
  - destruct (Hf a s1) as (e2 & R2 & F2).
    exists (e1 ++ e2)%list. split; [now rewrite R2, R1, app_assoc|].
    apply Forall_app. auto.
Qed.

Lemma em_try_except {A} Q (m : M A) (h : Exn -> M A) :
  emits Q m -> (forall e, emits Q (h e)) -> emits Q (try_except m h).
Proof.
  intros Hm Hh s. unfold try_except. destruct (Hm s) as (e1 & R1 & F1).
  destruct (m s) as [s1 [e|a]]; cbn [fst] in *.
  - destruct (Hh e s1) as (e2 & R2 & F2).
    exists (e1 ++ e2)%list. split; [now rewrite R2, R1, app_assoc|].
    apply Forall_app. auto.
  - now exists e1.
Qed.

Lemma em_for_each {A} Q (f : A -> M unit) (l : list A) :
  (forall x, emits Q (f x)) -> emits Q (for_each f l).
Proof.
  intros Hf. induction l as [|x l IH]; cbn [for_each].
  - apply em_ret.
  - apply em_bind; [apply Hf|intros _; exact IH].
Qed.

Lemma em_for_pages Q (body : Z -> Page -> M LoopStep) (rng : list Z) :
  (forall n p, emits Q (body n p)) ->
  forall p, emits Q (for_pages body rng p).
Proof.
  intros Hb. induction rng as [|n rng IH]; intros p; cbn [for_pages].
  - apply em_ret.
  - apply em_bind; [apply Hb|]. intros [|p']; [apply em_ret|apply IH].
Qed.

Lemma em_page_goto Q (web : Web) url : emits Q (page_goto web url).
Proof. apply em_same. intros s. unfold page_goto. now destruct (closed (self s)). Qed.

Create HintDb events discriminated.
#[export] Hint Resolve em_ret em_raise em_lift em_get_results em_get_base_url
  em_ensure_started em_append_result em_page_goto : events.

(** Walks through a step; an emitted event is checked against [Q]. *)
Ltac events :=
  repeat first
    [ progress intros
    | solve [auto with events]
    | solve [apply em_emit; first [exact I | discriminate]]
    | progress cbv zeta
    | apply em_bind
    | apply em_try_except
    | apply em_for_each
    | apply em_for_pages
    | match goal with
      | |- emits _ (match ?x with _ => _ end) => destruct x
      | |- emits _ (if ?b then _ else _) => destruct b
      end ].

Ltac unfold_adapters :=
  unfold adnoc_try, ahram_try, aljazeera_try, africanreview_try, almonitor_try,
    adnoc_turn, aljazeera_turn, almonitor_turn, adnoc_extract, ahram_extract,
    adnoc_item, ahram_item, aljazeera_item, africanreview_item, almonitor_item,
    africanreview_heading, submit_search, wait_for_selector, advance, random_delay,
    on_error.

(** Inside its [try] and [except], a browser adapter never closes the browser. *)
Lemma em_browser_try (web : Web) c base q n body :
  try_block web c base q n = Some body ->
  emits not_close (try_except body on_error).
Proof.
  destruct c; cbn [try_block]; intros H; try discriminate H; injection H as <-;
    unfold_adapters; unfold not_close; events.
Qed.

(** An HTTP adapter performs no browser action. *)
Lemma em_http_scrape (web : Web) c q n :
  is_playwright c = false -> emits http_event (scrape web c q n).
Proof.
  destruct c; intros H; try discriminate H; cbn [scrape];
    unfold ahram_scrape, africanreview_scrape, requests_scrape, http_guard;
    unfold_adapters; events.
Qed.

(** *** Steps that leave the browser alone *)

Lemma kb_same {A} (m : M A) : (forall s, self (fst (m s)) = self s) -> keeps_browser m.
Proof. intros H s. now rewrite H. Qed.

Lemma kb_ret {A} (a : A) : keeps_browser (ret a).
Proof. now apply kb_same. Qed.

Lemma kb_raise {A} (e : Exn) : keeps_browser (@raise A e).
Proof. now apply kb_same. Qed.

Lemma kb_lift {A} (r : Res A) : keeps_browser (lift r).
Proof. now apply kb_same. Qed.

Lemma kb_emit ev : keeps_browser (emit ev).
Proof. now apply kb_same. Qed.

Lemma kb_get_results : keeps_browser get_results.
Proof. now apply kb_same. Qed.

Lemma kb_get_base_url : keeps_browser get_base_url.
Proof. now apply kb_same. Qed.

Lemma kb_append_result a : keeps_browser (append_result a).
Proof. intros s. split; reflexivity. Qed.

Lemma kb_page_goto (web : Web) url : keeps_browser (page_goto web url).
Proof. apply kb_same. intros s. unfold page_goto. now destruct (closed (self s)). Qed.

Lemma kb_bind {A B} (m : M A) (f : A -> M B) :
  keeps_browser m -> (forall a, keeps_browser (f a)) -> keeps_browser (bind m f).
Proof.
  intros Hm Hf s. unfold bind. destruct (Hm s) as [S1 C1].
  destruct (m s) as [s1 [e|a]]; cbn [fst] in *; [auto|].
  destruct (Hf a s1) as [S2 C2]. split; congruence.
Qed.

Lemma kb_try_except {A} (m : M A) (h : Exn -> M A) :
  keeps_browser m -> (forall e, keeps_browser (h e)) -> keeps_browser (try_except m h).
Proof.
  intros Hm Hh s. unfold try_except. destruct (Hm s) as [S1 C1].
  destruct (m s) as [s1 [e|a]]; cbn [fst] in *; [|auto].
  destruct (Hh e s1) as [S2 C2]. split; congruence.
Qed.

Lemma kb_for_each {A} (f : A -> M unit) (l : list A) :
  (forall x, keeps_browser (f x)) -> keeps_browser (for_each f l).
Proof.
  intros Hf. induction l as [|x l IH]; cbn [for_each].
  - apply kb_ret.
  - apply kb_bind; [apply Hf|intros _; exact IH].
Qed.

Lemma kb_for_pages (body : Z -> Page -> M LoopStep) (rng : list Z) :
  (forall n p, keeps_browser (body n p)) ->
  forall p, keeps_browser (for_pages body rng p).
Proof.
  intros Hb. induction rng as [|n rng IH]; intros p; cbn [for_pages].
  - apply kb_ret.
  - apply kb_bind; [apply Hb|]. intros [|p']; [apply kb_ret|apply IH].
Qed.

Create HintDb browser discriminated.
#[export] Hint Resolve kb_ret kb_raise kb_lift kb_emit kb_get_results
  kb_get_base_url kb_append_result kb_page_goto : browser.

Ltac browser_kept :=
  repeat first
    [ progress intros
    | solve [auto with browser]
    | progress cbv zeta
    | apply kb_bind
    | apply kb_try_except
    | apply kb_for_each
    | apply kb_for_pages
    | match goal with
      | |- keeps_browser (match ?x with _ => _ end) => destruct x
      | |- keeps_browser (if ?b then _ else _) => destruct b
      end ].

(** Neither the [try] block of a site adapter nor its handler starts or
    closes the browser. *)
Lemma kb_try_block (web : Web) c base q n body :
  try_block web c base q n = Some body ->
  keeps_browser (try_except body on_error).
Proof.
  destruct c; cbn [try_block]; intros H; try discriminate H; injection H as <-;
    unfold_adapters; browser_kept.
Qed.

(** X9. A browser site adapter (ADNOC, Al-Monitor, Al Jazeera) closes its
    browser exactly once per call, as the last thing it does, whether the
    call completes, finds nothing or catches an error; the browser stays
    closed on the instance.  An adapter that fetches over HTTP performs no
    browser action at all.  The base [PlaywrightScraper] starts its browser
    and raises [NotImplementedError] without closing it. *)
Theorem browser_closed_at_end (web : Web) (i : Scraper) (q : string) (n : Z) :
  let st := fst (invoke web i q n) in
  (is_browser_adapter (cls i) = true ->
   (exists before, trace st = (before ++ [EvClose])%list /\ ~ In EvClose before) /\
   closed (self st) = true) /\
  (is_playwright (cls i) = false ->
   Forall http_event (trace st) /\ closed (self st) = closed i) /\
  (cls i = PlaywrightScraper ->
   started (self st) = true /\ closed (self st) = closed i /\ trace st = [] /\
   exists msg, snd (invoke web i q n) = inl (NotImplementedError msg)).
Proof.
  cbv zeta. split; [|split].
  - intros Hb. unfold is_browser_adapter in Hb. apply andb_true_iff in Hb.
    destruct Hb as [Hp Hs].
    destruct (try_block_site web (cls i) (base_url i) q n Hs) as [body Hbody].
    rewrite (invoke_site _ _ _ _ _ Hbody). unfold guard_of. rewrite Hp.
    unfold browser_guard, finally, close.
    destruct (em_browser_try _ _ _ _ _ _ Hbody (entered i)) as (evs & R & F).
    destruct (kb_try_block _ _ _ _ _ _ Hbody (entered i)) as [S _].
    destruct (try_except body on_error (entered i)) as [s1 r]. cbn [fst] in R, S.
    cbn [entered self started] in S. rewrite S.
    cbn [fst trace self closed]. split; [|reflexivity].
    exists evs. rewrite R. cbn [entered trace app].
    split; [reflexivity|].
    intros Hin. rewrite Forall_forall in F. now apply (F _ Hin).
  - intros Hp. unfold invoke.
    destruct (em_http_scrape web (cls i) q n Hp {| self := i; trace := [] |})
      as (evs & R & F).
    split; [now rewrite R|].
    destruct (is_site_adapter_cases (cls i)) as [Hs|Hs].
    + destruct (try_block_site web (cls i) (base_url i) q n Hs) as [body Hbody].
      fold (invoke web i q n).
      rewrite (invoke_site _ _ _ _ _ Hbody). unfold guard_of. rewrite Hp.
      unfold http_guard.
      now destruct (kb_try_block _ _ _ _ _ _ Hbody (entered i)) as [_ C].
    + fold (invoke web i q n). now rewrite (invoke_base_raises _ _ _ _ Hs).
  - intros Hc. rewrite invoke_base_raises by now rewrite Hc. cbn.
    repeat split. now eexists.
Qed.

Lemma browser_closed_at_end_witness :
  exists before,
    trace (fst (invoke Sample.web
                       (new_scraper AlMonitorScraper Sample.almonitor_url output_dir_name)
                       "iraq oil" 1)) = (before ++ [EvClose])%list /\
    ~ In EvClose before.
Proof.
  apply (proj1 (browser_closed_at_end Sample.web
                  (new_scraper AlMonitorScraper Sample.almonitor_url output_dir_name)
                  "iraq oil" 1)).
  reflexivity.
Defined.

(* ------------------------------------------------------------------ *)
(** ** Edges of the adapters *)

(** X10. ADNOC, on an instance whose browser has not been closed: when the
    results page shows "we found 0 matches", the call returns the empty list
    at once: no extraction pass, nothing appended, whatever result items the
    page holds and whatever the instance already collected; the browser is
    closed. *)
Theorem adnoc_no_matches (web : Web) (i : Scraper) (q : string) (n : Z) (p : Page) :
  cls i = AdnocScraper ->
  closed i = false ->
  goto web (adnoc_url (base_url i) q) = inr p ->
  query_selector_all (page_doc p) ".search-results" <> [] ->
  query_selector_all (page_doc p) "text=we found 0 matches" <> [] ->
  exists st,
    invoke web i q n = (st, inr []) /\
    results (self st) = results i /\
    trace st = [EvNoMatches; EvClose] /\
    closed (self st) = true.
Proof.
  intros Hc Ho Hg Hr Hz. unfold invoke. rewrite Hc. cbn [scrape].
  unfold adnoc_scrape, browser_guard, finally, try_except, adnoc_try, bind,
    ensure_started, get_base_url, lift, wait_for_selector, page_goto.
  cbn [self base_url closed]. rewrite Ho, Hg.
  destruct (query_selector_all (page_doc p) ".search-results"); [now elim Hr|].
  cbn [ret].
  destruct (query_selector_all (page_doc p) "text=we found 0 matches"); [now elim Hz|].
  cbn. eexists. repeat split.
Qed.

Lemma adnoc_no_matches_witness :
  exists st,
    invoke {| http_get := fun u => inl (HTTPError u);
              goto := fun _ =>
                inr (mkPage (mkElement "" []
                               [(".search-results", [mkElement "" [] []]);
                                ("text=we found 0 matches", [mkElement "" [] []])])
                            None);
              mkdir := fun _ => inr tt |}
           (new_scraper AdnocScraper Sample.adnoc_url output_dir_name)
           "no such thing" 3 = (st, inr []) /\
    trace st = [EvNoMatches; EvClose].
Proof.
  destruct (@adnoc_no_matches
              {| http_get := fun u => inl (HTTPError u);
                 goto := fun _ =>
                   inr (mkPage (mkElement "" []
                                  [(".search-results", [mkElement "" [] []]);
                                   ("text=we found 0 matches", [mkElement "" [] []])])
                               None);
                 mkdir := fun _ => inr tt |}
              (new_scraper AdnocScraper Sample.adnoc_url output_dir_name)
              "no such thing" 3%Z _ eq_refl eq_refl eq_refl)
    as (st & Hi & _ & Ht & _).
  - discriminate.
  - discriminate.
  - exists st. auto.
Defined.

Lemma africanreview_item_counted query :
  item_counted (africanreview_item query) africanreview_keeps.
Proof.
  intros e s. unfold africanreview_item, africanreview_keeps, try_except.
  destruct (query_selector e "h3 a, h2 a, .title a");
    try (exists s, []; repeat split; now rewrite app_nil_r).
  eexists _, [_]. repeat split.
Qed.

Lemma africanreview_heading_counted query :
  item_counted (africanreview_heading query) (fun _ => true).
Proof.
  intros e s. unfold africanreview_heading. eexists _, [_]. repeat split.
Qed.

Lemma filter_all {A} (l : list A) : filter (fun _ => true) l = l.
Proof. induction l as [|x l IH]; [reflexivity|]. cbn. now rewrite IH. Qed.

(** X11. African Review, once the page is fetched: the records come from the
    first of the two container selectors that matches anything, one per
    container with a title link; only when neither matches are the bare
    headings used, and then at most the first ten, one record each. *)
Theorem africanreview_fallback (web : Web) (i : Scraper) (q : string) (n : Z)
  (soup : Element) :
  cls i = AfricanReviewScraper ->
  http_get web (africanreview_url (base_url i) q) = inr soup ->
  let specific :=
    query_selector_all soup ".search-result, .search-results li, .article-list li" in
  let generic := query_selector_all soup "article, .article, .news-item" in
  let headings := query_selector_all soup "h3 a, h2 a" in
  exists st recs,
    invoke web i q n = (st, inr (results i ++ recs)%list) /\
    results (self st) = (results i ++ recs)%list /\
    length recs =
      match specific, generic with
      | _ :: _, _ => length (filter africanreview_keeps specific)
      | [], _ :: _ => length (filter africanreview_keeps generic)
      | [], [] => Nat.min 10 (length headings)
      end.
Proof.
  intros Hc Hg specific generic headings. unfold invoke. rewrite Hc. cbn [scrape].
  unfold africanreview_scrape, http_guard, try_except, africanreview_try, bind,
    ensure_started, get_base_url, lift, emit.
  cbn [self base_url]. rewrite Hg. cbn [self trace results].
  fold specific generic headings. clearbody specific generic headings.
  match goal with
  | |- context [ {| self := ?x; trace := ?t |} ] => set (s1 := {| self := x; trace := t |})
  end.
  assert (Hrun : forall f keeps l,
             item_counted f keeps ->
             exists s' recs,
               for_each f l s1 = (s', inr tt) /\
               results (self s') = (results i ++ recs)%list /\
               length recs = length (filter keeps l)).
  { intros f keeps l Hf.
    destruct (for_each_counted Hf l s1) as (s' & recs & E & _ & R & L).
    exists s', recs. auto. }
  destruct specific as [|c cs]; [destruct generic as [|g gs]|].
  - destruct (Hrun _ _ (firstn 10 headings) (africanreview_heading_counted q))
      as (s' & recs & E & R & L).
    rewrite E. cbn [get_results]. exists s', recs. rewrite R.
    repeat split. now rewrite L, filter_all, length_firstn.
  - destruct (Hrun _ _ (g :: gs) (africanreview_item_counted q))
      as (s' & recs & E & R & L).
    rewrite E. cbn [get_results]. exists s', recs. rewrite R. auto.
  - destruct (Hrun _ _ (c :: cs) (africanreview_item_counted q))
      as (s' & recs & E & R & L).
    rewrite E. cbn [get_results]. exists s', recs. rewrite R. auto.
Qed.

Lemma africanreview_fallback_witness :
  exists st recs,
    invoke Sample.web
           (new_scraper AfricanReviewScraper Sample.africanreview_url output_dir_name)
           "iraq oil" 1 = (st, inr recs) /\
    length recs = 1.
Proof.
  destruct (@africanreview_fallback Sample.web
              (new_scraper AfricanReviewScraper Sample.africanreview_url output_dir_name)
              "iraq oil" 1%Z Sample.africanreview_doc eq_refl eq_refl)
    as (st & recs & Hi & _ & Hl).
  exists st, recs. split; [exact Hi|exact Hl].
Defined.

Lemma py_range_nonpos n : (n <= 0)%Z -> py_range n = [].
Proof.
  intros H. unfold py_range. replace (Z.to_nat n) with 0 by lia. reflexivity.
Qed.

Lemma extracted_none evs : Forall not_a_pass evs -> extracted evs = [].
Proof.
  induction 1 as [|ev evs Hev _ IH]; [reflexivity|].
  unfold extracted in *. cbn [flat_map]. rewrite IH.
  destruct ev; try reflexivity. destruct Hev.
Qed.

Lemma Forall_False_nil {A} (l : list A) : Forall (fun _ => False) l -> l = [].
Proof. destruct 1; [reflexivity|contradiction]. Qed.

Lemma em_finally {A} Q (m : M A) (c : M unit) :
  emits Q m -> emits Q c -> emits Q (finally m c).
Proof.
  intros Hm Hc s. unfold finally. destruct (Hm s) as (e1 & R1 & F1).
  destruct (m s) as [s1 r]. cbn [fst] in *.
  destruct (Hc s1) as (e2 & R2 & F2).
  destruct (c s1) as [s2 [e|u]]; cbn [fst] in *;
    (exists (e1 ++ e2)%list; split; [now rewrite R2, R1, app_assoc|];
     apply Forall_app; auto).
Qed.

Lemma em_close (Q : Event -> Prop) : Q EvClose -> emits Q close.
Proof.
  intros HQ s. unfold close. destruct (started (self s)).
  - exists [EvClose]. split; [reflexivity|]. now repeat constructor.
  - exists []. now rewrite app_nil_r.
Qed.

(** With no page allowed, a browser adapter neither extracts nor appends. *)
Lemma browser_scrape_no_page (web : Web) c q n :
  (n <= 0)%Z ->
  is_browser_adapter c = true ->
  emits not_a_pass (scrape web c q n) /\
  appends_with (fun _ => False) (scrape web c q n).
Proof.
  intros Hn Hb.
  destruct c; try discriminate Hb; cbn [scrape];
    unfold adnoc_scrape, aljazeera_scrape, almonitor_scrape, browser_guard,
      adnoc_try, aljazeera_try, almonitor_try;
    rewrite (py_range_nonpos n Hn); cbn [for_pages];
    (split;
     [ unfold on_error, submit_search, wait_for_selector;
       apply em_bind; [events|intros _]; apply em_bind; [events|intros base];
       apply em_finally; [events|apply em_close; exact I]
     | records ]).
Qed.

(** X12. The page limit at its edge.  With [max_pages <= 0] a browser adapter
    makes no extraction pass and appends nothing.  An adapter that fetches
    over HTTP does not look at the limit: once its one page is fetched it
    makes its one pass over it, also with [max_pages <= 0]. *)
Theorem page_limit_not_positive (web : Web) (i : Scraper) (q : string) (n : Z) :
  (n <= 0)%Z ->
  let st := fst (invoke web i q n) in
  (is_browser_adapter (cls i) = true ->
   extracted (trace st) = [] /\ results (self st) = results i) /\
  (forall soup,
      cls i = AhramScraper ->
      http_get web (ahram_url (base_url i) q) = inr soup ->
      extracted (trace st) = [soup]) /\
  (forall soup,
      cls i = AfricanReviewScraper ->
      http_get web (africanreview_url (base_url i) q) = inr soup ->
      extracted (trace st) = [soup]).
Proof.
  intros Hn. cbv zeta. split; [|split].
  - intros Hb. destruct (browser_scrape_no_page web (cls i) q n Hn Hb) as [He Ha].
    unfold invoke.
    destruct (He {| self := i; trace := [] |}) as (evs & R & F).
    destruct (Ha {| self := i; trace := [] |}) as (ext & R' & F').
    rewrite R, R'. cbn [trace self app].
    rewrite (extracted_none _ F), (Forall_False_nil _ F'), app_nil_r. auto.
  - intros soup Hc Hg. unfold invoke. rewrite Hc. cbn [scrape].
    unfold ahram_scrape, http_guard, ahram_try, bind at 1 2, ensure_started,
      get_base_url. cbn [self base_url].
    unfold try_except, bind at 1, lift. rewrite Hg.
    unfold bind at 1, emit. cbn [self trace app].
    match goal with
    | |- context [bind ?m ?f ?s0] =>
        assert (Hs : silent (bind m f)) by silence;
        pose proof (Hs s0) as E; destruct (bind m f s0) as [s1 [e|l]]
    end; cbn [fst trace] in E.
    + unfold on_error, bind, emit, ret. cbn [fst trace].
      now rewrite extracted_app, E.
    + exact E.
  - intros soup Hc Hg. unfold invoke. rewrite Hc. cbn [scrape].
    unfold africanreview_scrape, http_guard, africanreview_try, bind at 1 2,
      ensure_started, get_base_url. cbn [self base_url].
    unfold try_except, bind at 1, lift. rewrite Hg.
    unfold bind at 1, emit. cbn [self trace app].
    match goal with
    | |- context [bind ?m ?f ?s0] =>
        assert (Hs : silent (bind m f)) by silence;
        pose proof (Hs s0) as E; destruct (bind m f s0) as [s1 [e|l]]
    end; cbn [fst trace] in E.
    + unfold on_error, bind, emit, ret. cbn [fst trace].
      now rewrite extracted_app, E.
    + exact E.
Qed.

Lemma page_limit_not_positive_witness :
  extracted (trace (fst (invoke Sample.web
                                (new_scraper AhramScraper Sample.ahram_url output_dir_name)
                                "iraq oil" 0))) = [Sample.ahram_doc].
Proof.
  apply (proj1 (proj2 (@page_limit_not_positive Sample.web
                         (new_scraper AhramScraper Sample.ahram_url output_dir_name)
                         "iraq oil" 0%Z ltac:(lia)))); reflexivity.
Defined.

(* ------------------------------------------------------------------ *)
(** ** Saving the results *)

Lemma replace_char_keeps_absent c d r s :
  PyStr.contains (String c "") r = false ->
  PyStr.contains (String c "") s = false ->
  PyStr.contains (String c "") (PyStr.replace_char d r s) = false.
Proof.
  intros Hr. induction s as [|x s IH]; [reflexivity|].
  rewrite contains_char_cons. intros H. apply orb_false_iff in H. destruct H as [Hx Hs].
  cbn [PyStr.replace_char]. rewrite contains_char_app, (IH Hs), orb_false_r.
  destruct (Ascii.eqb d x); [exact Hr|].
  now rewrite contains_char_cons, Hx.
Qed.

Lemma contains_false_prefix sub s :
  PyStr.contains sub s = false -> String.prefix sub s = false.
Proof.
  destruct s; cbn [PyStr.contains]; intros H; apply orb_false_iff in H; tauto.
Qed.

(** X13. [save_results] never raises on its way to the file.  Without a file
    name (or with an empty one) the name is [domain_stamp.json], where the
    domain part is taken from the base URL and holds neither a dot nor a
    slash; when the time stamp holds no slash either, the file lies directly
    in the output directory.  A file name that is given is used as it is.
    The document written holds the base URL and exactly the instance's
    [results]. *)
Theorem save_results_file (i : Scraper) (stamp iso : string) :
  exists dom,
    let name := dom ++ "_" ++ stamp ++ ".json" in
    save_results i None stamp iso =
      inr {| saved_path := path_join (output_dir i) name;
             saved_source := base_url i;
             saved_timestamp := iso;
             saved_articles := results i |} /\
    save_results i (Some "") stamp iso = save_results i None stamp iso /\
    PyStr.contains "/" dom = false /\
    PyStr.contains "." dom = false /\
    (PyStr.contains "/" stamp = false ->
     PyStr.contains "/" name = false /\
     exists sep, (sep = "" \/ sep = "/") /\
                 path_join (output_dir i) name = output_dir i ++ sep ++ name) /\
    (forall f, f <> "" ->
               save_results i (Some f) stamp iso =
                 inr {| saved_path := path_join (output_dir i) f;
                        saved_source := base_url i;
                        saved_timestamp := iso;
                        saved_articles := results i |}).
Proof.
  unfold save_results, PyStr.split. cbn [String.eqb].
  destruct (index_last_some (@split_from_nonempty "//" (base_url i) 0 EmptyString))
    as [rest Hr].
  rewrite !Hr. cbv beta iota.
  destruct (split_from_first_piece "/"%char "" rest eq_refl) as (host & more & Hs & Hh).
  rewrite !Hs. cbn [index_first].
  exists (PyStr.replace_char "." "_" host). cbv zeta.
  assert (Hd1 : PyStr.contains "/" (PyStr.replace_char "." "_" host) = false)
    by now apply replace_char_keeps_absent.
  assert (Hd2 : PyStr.contains "." (PyStr.replace_char "." "_" host) = false)
    by now apply replace_char_removes.
  split; [reflexivity|]. split; [reflexivity|]. split; [exact Hd1|]. split; [exact Hd2|].
  split.
  - intros Hst.
    assert (Hn : PyStr.contains "/" (PyStr.replace_char "." "_" host ++ "_" ++ stamp ++ ".json")
                 = false)
      by now rewrite !contains_char_app, Hd1, Hst.
    split; [exact Hn|]. unfold path_join, PyStr.startswith.
    rewrite (contains_false_prefix _ _ Hn).
    destruct (String.eqb (output_dir i) "") eqn:E.
    + apply String.eqb_eq in E. rewrite E. exists "". auto.
    + destruct (ends_with_slash (output_dir i)); [exists ""|exists "/"]; auto.
  - intros f Hf. apply String.eqb_neq in Hf. now rewrite Hf.
Qed.

(* ------------------------------------------------------------------ *)
(** ** Order of extraction *)

Lemma for_each_titles {f : Element -> M unit} {titles : Element -> list string} :
  item_titles f titles ->
  forall l s, exists s' recs,
    for_each f l s = (s', inr tt) /\
    results (self s') = (results (self s) ++ recs)%list /\
    map (dict_get "title") recs = map (fun t => Some (VStr t)) (flat_map titles l).
Proof.
  intros Hf. induction l as [|x l IH]; intros s; cbn [for_each flat_map].
  - exists s, []. repeat split. now rewrite app_nil_r.
  - destruct (Hf x s) as (s1 & r1 & E1 & R1 & T1).
    destruct (IH s1) as (s2 & r2 & E2 & R2 & T2).
    exists s2, (r1 ++ r2)%list. unfold bind. rewrite E1, E2.
    repeat split.
    + now rewrite R2, R1, app_assoc.
    + now rewrite !map_app, T1, T2.
Qed.

Lemma adnoc_item_titles q : item_titles (adnoc_item q) adnoc_title.
Proof.
  intros e s. unfold adnoc_item, adnoc_title.
  destruct (query_selector e ".title"), (query_selector e "a");
    try (exists s, []; repeat split; now rewrite app_nil_r).
  eexists _, [_]. repeat split.
Qed.

Lemma ahram_item_titles q : item_titles (ahram_item q) ahram_row_title.
Proof.
  intros e s. unfold ahram_item, ahram_row_title, try_except.
  destruct (query_selector e "div h5 a");
    try (exists s, []; repeat split; now rewrite app_nil_r).
  eexists _, [_]. repeat split.
Qed.

(** X14. The records of a page come out in document order: the titles of the
    records the extraction step appends are the stripped titles of the
    elements its guard keeps, in the order of the elements, after whatever
    the instance held before. *)
Theorem extraction_in_document_order (q : string) (elems : list Element) (s : St) :
  (exists s' recs,
      ahram_extract q elems s = (s', inr tt) /\
      results (self s') = (results (self s) ++ recs)%list /\
      map (dict_get "title") recs =
        map (fun t => Some (VStr t)) (flat_map ahram_row_title elems)) /\
  (exists s' recs,
      adnoc_extract q elems s = (s', inr tt) /\
      results (self s') = (results (self s) ++ recs)%list /\
      map (dict_get "title") recs =
        map (fun t => Some (VStr t)) (flat_map adnoc_title elems)).
Proof.
  split.
  - exact (for_each_titles (ahram_item_titles q) elems s).
  - exact (for_each_titles (adnoc_item_titles q) elems s).
Qed.

(* ------------------------------------------------------------------ *)
(** ** The results list across calls *)

Lemma records_of_nil c : records_of c [] [].
Proof. reflexivity. Qed.

Lemma records_of_app c E1 E2 r1 r2 :
  records_of c E1 r1 -> records_of c E2 r2 ->
  records_of c (E1 ++ E2)%list (r1 ++ r2)%list.
Proof.
  unfold records_of. intros H1 H2. now rewrite flat_map_app, !map_app, H1, H2.
Qed.

(** A step that makes no pass and appends nothing. *)
Lemma yields_quiet {A} c (m : M A) :
  silent m -> appends_with (fun _ => False) m -> yields c m.
Proof.
  intros Hs Ha s. destruct (Ha s) as (ext & R & F).
  rewrite (Forall_False_nil _ F) in R.
  exists [], []. rewrite app_nil_r.
  split; [apply Hs|]. split; [exact R|apply records_of_nil].
Qed.

Lemma yields_bind {A B} c (m : M A) (f : A -> M B) :
  yields c m -> (forall a, yields c (f a)) -> yields c (bind m f).
Proof.
  intros Hm Hf s. unfold bind. destruct (Hm s) as (E1 & r1 & X1 & R1 & T1).
  destruct (m s) as [s1 [e|a]]; cbn [fst] in *.
  - now exists E1, r1.
  - destruct (Hf a s1) as (E2 & r2 & X2 & R2 & T2).
    exists (E1 ++ E2)%list, (r1 ++ r2)%list.
    split; [now rewrite X2, X1, app_assoc|].
    split; [now rewrite R2, R1, app_assoc|]. now apply records_of_app.
Qed.

Lemma yields_try_except {A} c (m : M A) (h : Exn -> M A) :
  yields c m -> (forall e, yields c (h e)) -> yields c (try_except m h).
Proof.
  intros Hm Hh s. unfold try_except. destruct (Hm s) as (E1 & r1 & X1 & R1 & T1).
  destruct (m s) as [s1 [e|a]]; cbn [fst] in *.
  - destruct (Hh e s1) as (E2 & r2 & X2 & R2 & T2).
    exists (E1 ++ E2)%list, (r1 ++ r2)%list.
    split; [now rewrite X2, X1, app_assoc|].
    split; [now rewrite R2, R1, app_assoc|]. now apply records_of_app.
  - now exists E1, r1.
Qed.

Lemma yields_finally {A} c (m : M A) (f : M unit) :
  yields c m -> yields c f -> yields c (finally m f).
Proof.
  intros Hm Hf s. unfold finally. destruct (Hm s) as (E1 & r1 & X1 & R1 & T1).
  destruct (m s) as [s1 r]. cbn [fst] in *.
  destruct (Hf s1) as (E2 & r2 & X2 & R2 & T2).
  destruct (f s1) as [s2 [e|u]]; cbn [fst] in *;
    (exists (E1 ++ E2)%list, (r1 ++ r2)%list;
     split; [now rewrite X2, X1, app_assoc|];
     split; [now rewrite R2, R1, app_assoc|]; now apply records_of_app).
Qed.

Lemma yields_for_pages c (body : Z -> Page -> M LoopStep) (rng : list Z) :
  (forall n p, yields c (body n p)) ->
  forall p, yields c (for_pages body rng p).
Proof.
  intros Hb. induction rng as [|n rng IH]; intros p; cbn [for_pages].
  - apply yields_quiet; [apply silent_ret|apply aw_ret].
  - apply yields_bind; [apply Hb|].
    intros [|p']; [apply yields_quiet; [apply silent_ret|apply aw_ret]|apply IH].
Qed.

(** One extraction pass: the page is noted, then every item of it is read. *)
Lemma yields_pass {B} c n doc (item : Element -> M unit)
  (titles : Element -> list string) (items : list Element) (rest : M B) :
  item_titles item titles ->
  silent (for_each item items) ->
  page_titles c doc = flat_map titles items ->
  yields c rest ->
  yields c (emit (EvExtract n doc) ;; for_each item items ;; rest).
Proof.
  intros Hi Hs Hp Hr s. unfold bind. cbn [emit].
  set (s0 := {| self := self s; trace := (trace s ++ [EvExtract n doc])%list |}).
  destruct (for_each_titles Hi items s0) as (s1 & recs & E1 & R1 & T1).
  pose proof (Hs s0) as X1. rewrite E1 in X1. rewrite E1. cbn [fst] in X1.
  destruct (Hr s1) as (E2 & r2 & X2 & R2 & T2).
  exists (doc :: E2), (recs ++ r2)%list. split; [|split].
  - rewrite X2, X1. subst s0. cbn [trace]. rewrite extracted_app. cbn.
    now rewrite <- app_assoc.
  - rewrite R2, R1. subst s0. cbn [self]. now rewrite app_assoc.
  - unfold records_of in *. cbn [flat_map]. now rewrite !map_app, T1, T2, Hp.
Qed.

Lemma almonitor_item_titles q : item_titles (almonitor_item q) almonitor_title.
Proof.
  intros e s. unfold almonitor_item, almonitor_title, try_except.
  destruct (query_selector e "h2 a, h3 a");
    try (exists s, []; repeat split; now rewrite app_nil_r).
  eexists _, [_]. repeat split.
Qed.

Lemma aljazeera_item_titles q : item_titles (aljazeera_item q) aljazeera_title.
Proof.
  intros e s. unfold aljazeera_item, aljazeera_title.
  destruct (query_selector e "h3 a, h2 a");
    try (exists s, []; repeat split; now rewrite app_nil_r).
  eexists _, [_]. repeat split.
Qed.

Lemma africanreview_item_titles q :
  item_titles (africanreview_item q) africanreview_title.
Proof.
  intros e s. unfold africanreview_item, africanreview_title, try_except.
  destruct (query_selector e "h3 a, h2 a, .title a");
    try (exists s, []; repeat split; now rewrite app_nil_r).
  eexists _, [_]. repeat split.
Qed.

Lemma africanreview_heading_titles q :
  item_titles (africanreview_heading q) africanreview_heading_title.
Proof.
  intros e s. unfold africanreview_heading, africanreview_heading_title.
  eexists _, [_]. repeat split.
Qed.

Ltac quiet_step := apply yields_quiet; [silence | records].

(** The [try] block of a site adapter appends exactly the records of the
    passes it makes. *)
Lemma yields_try_block (web : Web) c base q n body :
  try_block web c base q n = Some body -> yields c body.
Proof.
  destruct c; cbn [try_block]; intros H; try discriminate H; injection H as <-.
  - (* ADNOC *)
    unfold adnoc_try.
    apply yields_bind; [quiet_step|intros p].
    apply yields_bind; [quiet_step|intros _].
    destruct (query_selector_all (page_doc p) "text=we found 0 matches");
      [|quiet_step].
    apply yields_bind; [|intros; quiet_step].
    apply yields_for_pages. intros k p'. unfold adnoc_turn, adnoc_extract.
    apply yields_bind; [quiet_step|intros _].
    apply (@yields_pass _ AdnocScraper k (page_doc p') (adnoc_item q) adnoc_title);
      [apply adnoc_item_titles | exact (silent_adnoc_extract q _) | reflexivity
      | quiet_step].
  - (* Ahram *)
    unfold ahram_try, ahram_extract.
    apply yields_bind; [quiet_step|intros soup].
    apply (@yields_pass _ AhramScraper 0%Z soup (ahram_item q) ahram_row_title);
      [apply ahram_item_titles | exact (silent_ahram_extract q _) | reflexivity
      | quiet_step].
  - (* Al Jazeera *)
    unfold aljazeera_try.
    apply yields_bind; [quiet_step|intros p0].
    apply yields_bind; [quiet_step|intros p].
    apply yields_bind; [|intros; quiet_step].
    apply yields_for_pages. intros k p'. unfold aljazeera_turn.
    apply yields_bind; [quiet_step|intros _].
    apply (@yields_pass _ AlJazeeraScraper k (page_doc p') (aljazeera_item q)
             aljazeera_title);
      [apply aljazeera_item_titles | apply silent_aljazeera_items | reflexivity
      | quiet_step].
  - (* African Review *)
    unfold africanreview_try.
    apply yields_bind; [quiet_step|intros soup]. cbv zeta.
    match goal with
    | |- yields _ (bind _ (fun _ => bind (match ?X with _ => _ end) _)) =>
        destruct X as [|e l] eqn:EC
    end; cbv beta iota.
    + apply (@yields_pass _ AfricanReviewScraper 0%Z soup (africanreview_heading q)
               africanreview_heading_title);
        [apply africanreview_heading_titles | apply silent_africanreview_headings
        | cbn [page_titles]; now rewrite EC | quiet_step].
    + apply (@yields_pass _ AfricanReviewScraper 0%Z soup (africanreview_item q)
               africanreview_title);
        [apply africanreview_item_titles | apply silent_africanreview_items
        | cbn [page_titles]; now rewrite EC | quiet_step].
  - (* Al-Monitor *)
    unfold almonitor_try.
    apply yields_bind; [quiet_step|intros p].
    apply yields_bind; [quiet_step|intros _].
    apply yields_bind; [|intros; quiet_step].
    apply yields_for_pages. intros k p'. unfold almonitor_turn.
    apply (@yields_pass _ AlMonitorScraper k (page_doc p') (almonitor_item q)
             almonitor_title);
      [apply almonitor_item_titles | apply silent_almonitor_items | reflexivity
      | quiet_step].
Qed.

Lemma yields_guard c (body : M (list Article)) :
  yields c body -> yields c (guard_of c body).
Proof.
  intros Hy. unfold guard_of, browser_guard, http_guard.
  destruct (is_playwright c);
    [apply yields_finally; [|quiet_step]|];
    (apply yields_try_except; [exact Hy|intros; quiet_step]).
Qed.

(** A call appends exactly the records of the passes it makes, each with the
    fields of its class. *)
Lemma invoke_yields (web : Web) (i : Scraper) (q : string) (n : Z) :
  exists appended,
    results (self (fst (invoke web i q n))) = (results i ++ appended)%list /\
    records_of (cls i) (extracted (trace (fst (invoke web i q n)))) appended /\
    Forall (record_ok (cls i) q) appended.
Proof.
  destruct (aw_scrape web (cls i) q n {| self := i; trace := [] |}) as (ext & R' & F).
  fold (invoke web i q n) in R'. cbn [self] in R'.
  destruct (is_site_adapter_cases (cls i)) as [Hs|Hs].
  - destruct (try_block_site web (cls i) (base_url i) q n Hs) as [body Hb].
    destruct (yields_guard _ _ (yields_try_block _ _ _ _ _ _ Hb) (entered i))
      as (E & recs & X & R & T).
    rewrite <- (invoke_site _ _ _ _ _ Hb) in X, R.
    cbn [entered self trace results extracted flat_map app] in X, R.
    exists recs. rewrite X. split; [exact R|]. split; [exact T|].
    rewrite R in R'. apply app_inv_head in R'. now rewrite R'.
  - exists []. rewrite (invoke_base_raises _ _ _ _ Hs).
    cbn [fst entered self trace results]. rewrite app_nil_r.
    split; [reflexivity|]. split; [apply records_of_nil|constructor].
Qed.

Lemma invoke_keeps_class (web : Web) (i : Scraper) (q : string) (n : Z) :
  cls (self (fst (invoke web i q n))) = cls i.
Proof.
  now destruct (ao_scrape web (cls i) q n {| self := i; trace := [] |}) as (H & _).
Qed.

(** A browser adapter leaves every call with its browser closed. *)
Lemma browser_call_closes (web : Web) (i : Scraper) (q : string) (n : Z) :
  is_browser_adapter (cls i) = true ->
  closed (self (fst (invoke web i q n))) = true.
Proof.
  intros Hb. unfold is_browser_adapter in Hb. apply andb_true_iff in Hb.
  destruct Hb as [Hp Hs].
  destruct (try_block_site web (cls i) (base_url i) q n Hs) as [body Hbody].
  rewrite (invoke_site _ _ _ _ _ Hbody). unfold guard_of. rewrite Hp.
  unfold browser_guard, finally, close.
  destruct (kb_try_block _ _ _ _ _ _ Hbody (entered i)) as [S _].
  destruct (try_except body on_error (entered i)) as [s1 r]. cbn [fst] in S.
  cbn [entered self started] in S. now rewrite S.
Qed.

(** On a closed browser the navigation raises: the call catches the error,
    returns the empty list and leaves [results] alone. *)
Lemma invoke_on_closed (web : Web) (i : Scraper) (q : string) (n : Z) :
  is_browser_adapter (cls i) = true ->
  closed i = true ->
  exists st,
    invoke web i q n = (st, inr []) /\
    results (self st) = results i /\
    trace st = [EvLogError TargetClosedError; EvClose].
Proof.
  destruct i as [c b o r st cl]. cbn [cls closed]. intros Hb ->.
  destruct c; try discriminate Hb; eexists; repeat split.
Qed.

(** C10, as stated, fails.  ADNOC, one page with two records the guard lets
    through: the first call on a fresh instance completes and returns them;
    the second call on the same instance, the site answering as before,
    returns the empty list, since the browser the first call closed is never
    started again. *)
Lemma second_call_returns_both_fails :
  ~ (forall web i q n st1 l1 st2 l2,
        invoke web i q n = (st1, inr l1) ->
        completed (trace st1) = true ->
        invoke web (self st1) q n = (st2, inr l2) ->
        exists second, l2 = (l1 ++ second)%list).
Proof.
  intros H.
  pose (i := new_scraper AdnocScraper Sample.adnoc_url output_dir_name).
  pose (c1 := invoke Sample.adnoc_web i "iraq oil" 1).
  pose (c2 := invoke Sample.adnoc_web (self (fst c1)) "iraq oil" 1).
  destruct (H Sample.adnoc_web i "iraq oil" 1%Z (fst c1) (results (self (fst c1)))
              (fst c2) [])
    as (second & Hs);
    [vm_compute; reflexivity | vm_compute; reflexivity | vm_compute; reflexivity |].
  vm_compute in Hs. discriminate Hs.
Qed.

(** C10, amended.  The [results] list of an adapter instance is empty at
    construction and every [scrape] call only appends to it: the records it
    appends are those of the extraction passes it makes, in order, each with
    the fields of its class.  A call that completes returns the whole list,
    so a second call that completes returns the records of the first call
    followed by its own; that is what a second call on an HTTP adapter
    (Ahram, African Review) does.  A browser adapter (ADNOC, Al-Monitor,
    Al Jazeera) closes its browser at the end of every call and never starts
    another: a second call on the same instance fails at the navigation,
    catches the error and returns the empty list, without a pass and with
    [results] as the first call left it.  After a caught page-level error the
    call returns the empty list while the instance's [results] hold the
    records of the passes made before the error. *)
Theorem results_accumulate (web : Web) (i : Scraper) (query : string) (max_pages : Z) :
  let st := fst (invoke web i query max_pages) in
  (forall c url out, results (new_scraper c url out) = []) /\
  (forall web' url out s, get_scraper_for_url web' url out = inr s -> results s = []) /\
  exists appended,
    results (self st) = (results i ++ appended)%list /\
    records_of (cls i) (extracted (trace st)) appended /\
    Forall (record_ok (cls i) query) appended /\
    (forall l,
        snd (invoke web i query max_pages) = inr l ->
        completed (trace st) = true ->
        l = (results i ++ appended)%list) /\
    (forall web2 query2 max_pages2 st2 l2,
        invoke web2 (self st) query2 max_pages2 = (st2, inr l2) ->
        completed (trace st2) = true ->
        is_playwright (cls i) = false /\
        exists second,
          l2 = (results i ++ appended ++ second)%list /\
          results (self st2) = l2 /\
          records_of (cls i) (extracted (trace st2)) second /\
          Forall (record_ok (cls i) query2) second) /\
    (is_browser_adapter (cls i) = true ->
     forall web2 query2 max_pages2,
       exists st2,
         invoke web2 (self st) query2 max_pages2 = (st2, inr []) /\
         results (self st2) = (results i ++ appended)%list /\
         extracted (trace st2) = [] /\
         In (EvLogError TargetClosedError) (trace st2)) /\
    (forall body s' e,
        try_block web (cls i) (base_url i) query max_pages = Some body ->
        body (entered i) = (s', inl e) ->
        snd (invoke web i query max_pages) = inr [] /\
        results (self s') = (results i ++ appended)%list /\
        records_of (cls i) (extracted (trace s')) appended).
Proof.
  cbv zeta.
  split; [reflexivity|].
  split; [intros web' url out s H; now rewrite (resolution_fresh _ _ _ _ H)|].
  destruct (invoke_yields web i query max_pages) as (appended & R & T & F).
  exists appended.
  split; [exact R|]. split; [exact T|]. split; [exact F|].
  split; [|split; [|split]].
  - intros l Hl Hc. rewrite <- R.
    apply (invoke_completed web i query max_pages (fst (invoke web i query max_pages)));
      [|exact Hc].
    destruct (invoke web i query max_pages) as [st r]. cbn [fst snd] in *. now subst r.
  - intros web2 query2 max_pages2 st2 l2 H2 C2.
    pose proof (invoke_keeps_class web i query max_pages) as Hk.
    assert (Hp : is_playwright (cls i) = false).
    { destruct (is_playwright (cls i)) eqn:Hp; [|reflexivity].
      destruct (is_site_adapter_cases (cls i)) as [Hs|Hs].
      - assert (Hb : is_browser_adapter (cls (self (fst (invoke web i query max_pages)))) = true)
          by (rewrite Hk; unfold is_browser_adapter; now rewrite Hp, Hs).
        destruct (invoke_on_closed web2 _ query2 max_pages2 Hb
                    (browser_call_closes web i query max_pages
                       ltac:(unfold is_browser_adapter; now rewrite Hp, Hs)))
          as (st' & H' & _ & Ht).
        rewrite H2 in H'. injection H' as <- _. rewrite Ht in C2. discriminate C2.
      - rewrite invoke_base_raises in H2 by now rewrite Hk. discriminate H2. }
    split; [exact Hp|].
    destruct (invoke_yields web2 (self (fst (invoke web i query max_pages)))
                query2 max_pages2) as (second & R2 & T2 & F2).
    rewrite H2, Hk in *. cbn [fst] in R2, T2.
    pose proof (invoke_completed _ _ _ _ _ _ H2 C2) as E2.
    exists second. rewrite E2, R2, R, <- app_assoc. auto.
  - intros Hb web2 query2 max_pages2.
    pose proof (invoke_keeps_class web i query max_pages) as Hk.
    destruct (invoke_on_closed web2 (self (fst (invoke web i query max_pages)))
                query2 max_pages2) as (st2 & H2 & R2 & T2).
    + now rewrite Hk.
    + now apply browser_call_closes.
    + exists st2. rewrite R2, T2, R.
      split; [exact H2|]. split; [reflexivity|]. split; [reflexivity|]. now left.
  - intros body s' e Hb He.
    destruct (guard_caught (cls i) body _ _ _ He) as (st & Hg & Hself & _).
    destruct (yields_try_block _ _ _ _ _ _ Hb (entered i)) as (E & recs & X & R' & T').
    rewrite He in X, R'. cbn [fst entered self trace results extracted flat_map app] in X, R'.
    rewrite (invoke_site _ _ _ _ _ Hb), Hg in R |- *. cbn [fst snd] in *.
    rewrite Hself, R' in R. apply app_inv_head in R. subst recs.
    split; [reflexivity|]. split; [exact R'|]. now rewrite X.
Qed.

(** Two calls on one ADNOC instance and two on one Ahram instance, each site
    answering both times: the first ADNOC call collects the two records of
    the items with a title and a link, the second returns the empty list
    and leaves them in place; the second Ahram call returns the record of
    the first call followed by its own. *)
Lemma results_accumulate_witness :
  (map (dict_get "title")
       (results (self (fst (invoke Sample.adnoc_web
                              (new_scraper AdnocScraper Sample.adnoc_url output_dir_name)
                              "iraq oil" 1)))) =
     [Some (VStr "Upstream contract awarded"); Some (VStr "Iraq oil talks")] /\
   exists st2,
     invoke Sample.adnoc_web
            (self (fst (invoke Sample.adnoc_web
                          (new_scraper AdnocScraper Sample.adnoc_url output_dir_name)
                          "iraq oil" 1)))
            "iraq oil" 1 = (st2, inr []) /\
     results (self st2) =
       results (self (fst (invoke Sample.adnoc_web
                             (new_scraper AdnocScraper Sample.adnoc_url output_dir_name)
                             "iraq oil" 1)))) /\
  (exists first second,
      snd (invoke Sample.adnoc_web
                  (new_scraper AhramScraper Sample.ahram_url output_dir_name)
                  "iraq oil" 1) = inr first /\
      map (dict_get "title") first = [Some (VStr "Gas field found")] /\
      map (dict_get "title") second = [Some (VStr "Gas field found")] /\
      snd (invoke Sample.adnoc_web
                  (self (fst (invoke Sample.adnoc_web
                                (new_scraper AhramScraper Sample.ahram_url output_dir_name)
                                "iraq oil" 1)))
                  "iraq oil" 1) = inr (first ++ second)%list).
Proof.
  split.
  - pose (i := new_scraper AdnocScraper Sample.adnoc_url output_dir_name).
    destruct (results_accumulate Sample.adnoc_web i "iraq oil" 1)
      as (_ & _ & appended & R & T & _ & _ & _ & Hclosed & _).
    fold i. split.
    + rewrite R. cbn [i results new_scraper app]. unfold records_of in T.
      rewrite T. vm_compute. reflexivity.
    + destruct (Hclosed eq_refl Sample.adnoc_web "iraq oil" 1%Z)
        as (st2 & H2 & R2 & _).
      exists st2. split; [exact H2|]. now rewrite R2, R.
  - pose (i := new_scraper AhramScraper Sample.ahram_url output_dir_name).
    pose (c1 := invoke Sample.adnoc_web i "iraq oil" 1).
    pose (c2 := invoke Sample.adnoc_web (self (fst c1)) "iraq oil" 1).
    destruct (results_accumulate Sample.adnoc_web i "iraq oil" 1)
      as (_ & _ & appended & R & T & _ & Hret & Hsecond & _).
    destruct (Hsecond Sample.adnoc_web "iraq oil" 1%Z (fst c2) (results (self (fst c2))))
      as (_ & second & Hl2 & _ & T2 & _);
      [vm_compute; reflexivity | vm_compute; reflexivity |].
    fold i. fold c1. fold c2.
    exists appended, second.
    cbn [i results new_scraper app] in R, Hl2, Hret.
    split; [|split; [|split]].
    + rewrite <- (Hret (results (self (fst c1)))); vm_compute; reflexivity.
    + unfold records_of in T. rewrite T. vm_compute. reflexivity.
    + unfold records_of in T2. rewrite T2. vm_compute. reflexivity.
    + rewrite <- Hl2. vm_compute. reflexivity.
Defined.
